(** * LuaSec 0.4.1, [src/context.c]: the SSL context binding

    A shallow embedding of the C functions of [context.c] that configure
    and destroy an SSL context, together with the slice of the Lua 5.1 C
    API and of the OpenSSL context interface they are written against.

    - C [int] / [long] / [unsigned long] values are [Z]; the only
      arithmetic done on them is bitwise OR of non-negative constants
      and index stepping, neither of which can overflow.
    - Lua strings are byte strings with an explicit length and may hold
      NUL bytes; the C code sees them through [const char *], that is up
      to their first NUL byte ([c_str]).
    - A C function called from Lua runs on a stack holding its
      arguments, pushes values and returns a count [n]; its results are
      the top [n] values ([lua_cfunction_call]).
    - [lua_error] and [luaL_argerror] do not return: they unwind to the
      caller's handler ([Err]).  Undefined behaviour of the C code (a
      NULL dereference, a write outside a buffer) is [Fault]. *)

From Stdlib Require Import ZArith String Ascii List Bool Lia.
From stdpp Require Import base list.
Import ListNotations.

Open Scope string_scope.
Open Scope list_scope.
Open Scope Z_scope.

(** ** C strings *)

(** The bytes a [const char *] pointing at a Lua string denotes: the
    prefix before the first NUL byte. *)
Fixpoint c_str (s : string) : string :=
  match s with
  | EmptyString => EmptyString
  | String c r => if Ascii.eqb c zero then EmptyString else String c (c_str r)
  end.

Definition byte_val (c : ascii) : Z := Z.of_N (N_of_ascii c).

(** [strcmp]: the difference of the first pair of differing bytes (as
    unsigned char), 0 when the two C strings agree up to their NUL.  The
    end of a Lua string or of a literal is its terminating NUL. *)
Fixpoint strcmp (a b : string) : Z :=
  match a, b with
  | EmptyString, EmptyString => 0
  | EmptyString, String y _ => - byte_val y
  | String x _, EmptyString => byte_val x
  | String x a', String y b' =>
      if Ascii.eqb x y
      then (if Ascii.eqb x zero then 0 else strcmp a' b')
      else byte_val x - byte_val y
  end.

(** [strlen] on a buffer: the index of its first NUL byte; [None] when
    the buffer holds none (the read runs off its end). *)
Fixpoint strlen (buf : list ascii) : option nat :=
  match buf with
  | [] => None
  | c :: r => if Ascii.eqb c zero then Some O else option_map S (strlen r)
  end.

(** [strncpy(buf, src, n)]: exactly [n] bytes of [buf] are written, the
    bytes of [src] up to its NUL and then NUL padding. *)
Definition strncpy (buf : list ascii) (src : string) (n : nat) : list ascii :=
  take n (list_ascii_of_string (c_str src) ++ replicate n zero) ++ drop n buf.

(** ** Lua values and the Lua stack *)

Inductive lua_tag : Type :=
| LUA_TNONE | LUA_TNIL | LUA_TBOOLEAN | LUA_TLIGHTUSERDATA | LUA_TNUMBER
| LUA_TSTRING | LUA_TTABLE | LUA_TFUNCTION | LUA_TUSERDATA | LUA_TTHREAD.

(** A number carries its [lua_Number2str] rendering, the only view of a
    number these functions take.  A function is represented by the value
    a call with no arguments yields, adjusted to one result (the only
    call made here is [lua_call(L, 0, 1)]): [LFunction y] is a function
    that returns [y].  A function that raises is not represented, so
    every statement about a function argument is about one that
    returns.  A table is known by the
    registry name it was created under; a full userdata by the address
    of its block. *)
Inductive lua_value : Type :=
| LNil
| LBoolean (b : bool)
| LLightUserdata (p : nat)
| LNumber (repr : string)
| LString (s : string)
| LTable (name : string)
| LFunction (yield : lua_value)
| LUserdata (addr : nat)
| LThread.

Definition type_of (v : lua_value) : lua_tag :=
  match v with
  | LNil => LUA_TNIL
  | LBoolean _ => LUA_TBOOLEAN
  | LLightUserdata _ => LUA_TLIGHTUSERDATA
  | LNumber _ => LUA_TNUMBER
  | LString _ => LUA_TSTRING
  | LTable _ => LUA_TTABLE
  | LFunction _ => LUA_TFUNCTION
  | LUserdata _ => LUA_TUSERDATA
  | LThread => LUA_TTHREAD
  end.

Definition lua_typename (t : lua_tag) : string :=
  match t with
  | LUA_TNONE => "no value"
  | LUA_TNIL => "nil"
  | LUA_TBOOLEAN => "boolean"
  | LUA_TLIGHTUSERDATA => "userdata"
  | LUA_TNUMBER => "number"
  | LUA_TSTRING => "string"
  | LUA_TTABLE => "table"
  | LUA_TFUNCTION => "function"
  | LUA_TUSERDATA => "userdata"
  | LUA_TTHREAD => "thread"
  end.

(** What unwinds out of a C function: the value [lua_error] was given,
    or the argument error [luaL_argerror] builds ("bad argument #narg
    to ... (extramsg)"). *)
Inductive lua_err : Type :=
| ErrValue (v : lua_value)
| ArgError (narg : Z) (extramsg : string).

(** ** The engine: OpenSSL's SSL_CTX *)

Inductive SSL_METHOD : Type := SSLv3_method | TLSv1_method | SSLv23_method.

(** openssl/ssl.h *)
Definition SSL_VERIFY_NONE : Z := 0x00.
Definition SSL_VERIFY_PEER : Z := 0x01.
Definition SSL_VERIFY_FAIL_IF_NO_PEER_CERT : Z := 0x02.
Definition SSL_VERIFY_CLIENT_ONCE : Z := 0x04.

Definition SSL_SESS_CACHE_OFF : Z := 0x0000.
Definition SSL_SESS_CACHE_CLIENT : Z := 0x0001.
Definition SSL_SESS_CACHE_SERVER : Z := 0x0002.
Definition SSL_SESS_CACHE_BOTH : Z := 0x0003.
Definition SSL_SESS_CACHE_NO_AUTO_CLEAR : Z := 0x0080.
Definition SSL_SESS_CACHE_NO_INTERNAL_LOOKUP : Z := 0x0100.
Definition SSL_SESS_CACHE_NO_INTERNAL_STORE : Z := 0x0200.
Definition SSL_SESS_CACHE_NO_INTERNAL : Z := 0x0300.

(** The fields of an SSL_CTX that [context.c] reads or writes.  The two
    password-hook slots only ever hold [passwd_cb] and [L], or NULL. *)
Record SSL_CTX : Type := mkSSL_CTX {
  method : SSL_METHOD;
  verify_mode : Z;
  verify_callback : option nat;
  options : Z;
  session_cache_mode : Z;
  default_passwd_cb : bool;
  default_passwd_cb_userdata : bool
}.

(** A PEM private key file, as far as loading it goes. *)
Inductive pem_key : Type :=
| PlainKey
| EncryptedKey (passphrase : string).

(** ** The binding's own data *)

(** Modelled from the spec: the macros MD_CTX_INVALID, MD_CTX_SERVER and
    MD_CTX_CLIENT of context.h, which is not among the sources; the spec
    gives [mode] as the enumeration Unset, Client, Server. *)
Inductive ctx_mode : Type := MD_CTX_INVALID | MD_CTX_SERVER | MD_CTX_CLIENT.

(** Modelled from the spec: [t_context] of context.h, the engine handle
    plus the mode the engine does not track.  [context = None] is the
    NULL pointer. *)
Record t_context : Type := mk_context {
  context : option nat;
  mode : ctx_mode
}.

(** A full userdata block [lua_newuserdata] made for a [t_context],
    with the registry name of its metatable once it has one. *)
Record userdata : Type := mk_userdata {
  metatable : option string;
  payload : t_context
}.

(** Modelled from the spec: an entry of the table [ssl_options] of
    options.h, which is not among the sources: a name and the bit value
    OR'ed into the option mask. *)
Record ssl_option_t : Type := mk_option {
  name : string;
  code : Z
}.

(** ** Machine state *)

(** Everything that outlives one call: the userdata heap, the engine's
    contexts by address ([None]: freed), how many more contexts the
    engine can allocate, the addresses passed to [SSL_CTX_free] (latest
    first), the key files on disk and the engine's error queue. *)
Record World : Type := mkWorld {
  udata : list userdata;
  ctxs : list (option SSL_CTX);
  avail : nat;
  free_log : list nat;
  keyfiles : list (string * pem_key);
  err_queue : list string
}.

Record lua_State : Type := mkState {
  stack : list lua_value;
  world : World
}.

Definition with_stack (st : list lua_value) (s : lua_State) : lua_State :=
  mkState st (world s).

Definition with_world (w : World) (s : lua_State) : lua_State :=
  mkState (stack s) w.

Definition with_udata (u : list userdata) (w : World) : World :=
  mkWorld u (ctxs w) (avail w) (free_log w) (keyfiles w) (err_queue w).

Definition with_ctxs (c : list (option SSL_CTX)) (w : World) : World :=
  mkWorld (udata w) c (avail w) (free_log w) (keyfiles w) (err_queue w).

Definition with_err_queue (q : list string) (w : World) : World :=
  mkWorld (udata w) (ctxs w) (avail w) (free_log w) (keyfiles w) q.

(** ** The monad of C code running against a Lua state *)

Inductive outcome (A : Type) : Type :=
| Ok (a : A) (s : lua_State)
| Err (e : lua_err) (s : lua_State)
| Fault.

Arguments Ok {A} a s.
Arguments Err {A} e s.
Arguments Fault {A}.

Definition M (A : Type) : Type := lua_State -> outcome A.

Definition ret {A : Type} (a : A) : M A := fun s => Ok a s.

Definition bind {A B : Type} (m : M A) (k : A -> M B) : M B :=
  fun s =>
    match m s with
    | Ok a s' => k a s'
    | Err e s' => Err e s'
    | Fault => Fault
    end.

Notation "x <- m ;; k" := (bind m (fun x => k))
  (at level 100, m at next level, right associativity).
Notation "m ;;; k" := (bind m (fun _ => k))
  (at level 100, right associativity).

Definition raise {A : Type} (e : lua_err) : M A := fun s => Err e s.
Definition fault {A : Type} : M A := fun _ => Fault.
Definition get_stack : M (list lua_value) := fun s => Ok (stack s) s.
Definition put_stack (st : list lua_value) : M unit :=
  fun s => Ok tt (with_stack st s).
Definition get_world : M World := fun s => Ok (world s) s.
Definition put_world (w : World) : M unit := fun s => Ok tt (with_world w s).

(** [for (i = lo; i <= hi; i++) body], where the body either goes on
    with updated locals ([inl]) or returns from the enclosing function
    ([inr]).  [for_steps] runs at most [n] iterations from [i]. *)
Fixpoint for_steps {A R : Type} (n : nat) (i : Z)
    (body : Z -> A -> M (A + R)) (acc : A) : M (A + R) :=
  match n with
  | O => ret (inl acc)
  | S n' =>
      r <- body i acc ;;
      match r with
      | inl acc' => for_steps n' (i + 1) body acc'
      | inr v => ret (inr v)
      end
  end.

Definition for_range {A R : Type} (lo hi : Z)
    (body : Z -> A -> M (A + R)) (acc : A) : M (A + R) :=
  for_steps (Z.to_nat (hi - lo + 1)) lo body acc.

(** ** The Lua 5.1 C API, as far as [context.c] calls it *)

(** The stack slot an index names: positive indices count from the
    bottom of the frame, negative ones from the top.  [None]: the index
    is not valid (above the top). *)
Definition index2adr (idx : Z) (st : list lua_value) : option nat :=
  let top := Z.of_nat (length st) in
  if (0 <? idx) && (idx <=? top) then Some (Z.to_nat (idx - 1))
  else if (idx <? 0) && (- idx <=? top) then Some (Z.to_nat (top + idx))
  else None.

Definition value_at (idx : Z) (st : list lua_value) : option lua_value :=
  match index2adr idx st with
  | Some i => st !! i
  | None => None
  end.

Definition lua_gettop : M Z :=
  st <- get_stack ;; ret (Z.of_nat (length st)).

(** LUA_TNONE for an index that is not valid, such as an argument the
    caller did not pass. *)
Definition lua_type (idx : Z) : M lua_tag :=
  st <- get_stack ;;
  ret (match value_at idx st with
       | Some v => type_of v
       | None => LUA_TNONE
       end).

Definition push (v : lua_value) : M unit :=
  st <- get_stack ;; put_stack (st ++ [v]).

Definition lua_pushnil : M unit := push LNil.
Definition lua_pushboolean (b : Z) : M unit := push (LBoolean (negb (b =? 0))).
Definition lua_pushstring (s : string) : M unit := push (LString (c_str s)).

(** [lua_pushfstring] with a format holding one [%s]: [pre], the
    argument, [post]; a NULL argument prints as "(null)". *)
Definition lua_pushfstring (pre : string) (arg : option string) (post : string)
    : M unit :=
  push (LString (pre ++ match arg with
                        | Some a => c_str a
                        | None => "(null)"
                        end ++ post)%string).

Definition lua_pushvalue (idx : Z) : M unit :=
  st <- get_stack ;;
  match value_at idx st with
  | Some v => push v
  | None => push LNil
  end.

(** [lua_call(L, 0, 1)]: the function on top of the stack is replaced
    by its single result.  Calling a value that is not a function raises
    the "attempt to call" error. *)
Definition lua_call_0_1 : M unit :=
  st <- get_stack ;;
  match last st with
  | Some (LFunction r) => put_stack (removelast st ++ [r])
  | Some v =>
      raise (ErrValue (LString ("attempt to call a "
                                ++ lua_typename (type_of v) ++ " value")%string))
  | None => fault
  end.

Definition lua_toboolean (idx : Z) : M bool :=
  st <- get_stack ;;
  ret (match value_at idx st with
       | Some LNil | None => false
       | Some (LBoolean b) => b
       | Some _ => true
       end).

(** [lua_tostring]: a string is returned as it is, a number is turned
    into a string in its stack slot and returned, anything else gives
    NULL. *)
Definition lua_tostring (idx : Z) : M (option string) :=
  st <- get_stack ;;
  match index2adr idx st with
  | Some i =>
      match st !! i with
      | Some (LString s) => ret (Some s)
      | Some (LNumber r) => put_stack (<[i := LString r]> st) ;;; ret (Some r)
      | _ => ret None
      end
  | None => ret None
  end.

Definition luaL_argerror {A : Type} (narg : Z) (extramsg : string) : M A :=
  raise (ArgError narg extramsg).

Definition luaL_typerror {A : Type} (narg : Z) (tname : string) : M A :=
  t <- lua_type narg ;;
  luaL_argerror narg (tname ++ " expected, got " ++ lua_typename t)%string.

Definition luaL_checkstring (narg : Z) : M string :=
  r <- lua_tostring narg ;;
  match r with
  | Some s => ret s
  | None => luaL_typerror narg (lua_typename LUA_TSTRING)
  end.

(** [lua_error]: unwinds with the value on top of the stack. *)
Definition lua_error {A : Type} : M A :=
  st <- get_stack ;;
  match last st with
  | Some v => put_stack (removelast st) ;;; raise (ErrValue v)
  | None => fault
  end.

(** [luaL_checkudata(L, ud, tname)]: the address of the block when the
    value is a full userdata whose metatable is the one registered
    under [tname], a type error otherwise. *)
Definition luaL_checkudata (ud : Z) (tname : string) : M nat :=
  st <- get_stack ;;
  w <- get_world ;;
  match value_at ud st with
  | Some (LUserdata a) =>
      match udata w !! a with
      | Some blk =>
          match metatable blk with
          | Some t => if String.eqb t tname then ret a
                      else luaL_typerror ud tname
          | None => luaL_typerror ud tname
          end
      | None => fault
      end
  | _ => luaL_typerror ud tname
  end.

(** The contents of a block [lua_newuserdata] has just returned are
    unspecified until written; [create] writes both fields before the
    block can be reached (it has no metatable until then). *)
Definition blank_context : t_context := mk_context None MD_CTX_INVALID.

Definition lua_newuserdata : M nat :=
  w <- get_world ;;
  let a := length (udata w) in
  put_world (with_udata (udata w ++ [mk_userdata None blank_context]) w) ;;;
  push (LUserdata a) ;;;
  ret a.

Definition luaL_getmetatable (tname : string) : M unit := push (LTable tname).

(** [lua_setmetatable(L, idx)]: pops a table and makes it the metatable
    of the value at [idx] (an index into the stack before the pop). *)
Definition lua_setmetatable (idx : Z) : M unit :=
  st <- get_stack ;;
  w <- get_world ;;
  match last st, value_at idx st with
  | Some (LTable t), Some (LUserdata a) =>
      match udata w !! a with
      | Some blk =>
          put_world (with_udata (<[a := mk_userdata (Some t) (payload blk)]> (udata w)) w) ;;;
          put_stack (removelast st)
      | None => fault
      end
  | _, _ => fault
  end.

(** Reading and writing the fields of the [t_context] at an address. *)
Definition load_ctx (a : nat) : M t_context :=
  w <- get_world ;;
  match udata w !! a with
  | Some blk => ret (payload blk)
  | None => fault
  end.

Definition store_ctx (a : nat) (c : t_context) : M unit :=
  w <- get_world ;;
  match udata w !! a with
  | Some blk =>
      put_world (with_udata (<[a := mk_userdata (metatable blk) c]> (udata w)) w)
  | None => fault
  end.

(** What the caller of a C function gets: the top [n] values of the
    stack when it returned [n], the error when it unwound. *)
Inductive call_result : Type :=
| Returned (results : list lua_value) (w : World)
| Raised (e : lua_err) (w : World)
| Crashed.

Definition lua_cfunction_call (f : M Z) (args : list lua_value) (w : World)
    : call_result :=
  match f (mkState args w) with
  | Ok n s => Returned (drop (length (stack s) - Z.to_nat n) (stack s)) (world s)
  | Err e s => Raised e (world s)
  | Fault => Crashed
  end.

(** ** The OpenSSL calls [context.c] makes

    From the library's documented interface, for a live context.  What
    the library does with a NULL or a freed context is not decided by
    [context.c]; the model makes it a [Fault], and the statements of
    this file are about live contexts or hold whatever that choice is. *)

Definition deref (p : option nat) : M SSL_CTX :=
  w <- get_world ;;
  match p with
  | Some a =>
      match ctxs w !! a with
      | Some (Some c) => ret c
      | _ => fault
      end
  | None => fault
  end.

Definition update (p : option nat) (f : SSL_CTX -> SSL_CTX) : M unit :=
  c <- deref p ;;
  w <- get_world ;;
  match p with
  | Some a => put_world (with_ctxs (<[a := Some (f c)]> (ctxs w)) w)
  | None => fault
  end.

Definition ERR_put_error (reason : string) : M unit :=
  w <- get_world ;; put_world (with_err_queue (err_queue w ++ [reason]) w).

(** The earliest error of the queue is removed and returned; 0 (here
    [None]) when the queue is empty. *)
Definition ERR_get_error : M (option string) :=
  w <- get_world ;;
  match err_queue w with
  | [] => ret None
  | e :: q => put_world (with_err_queue q w) ;;; ret (Some e)
  end.

Definition ERR_reason_error_string (e : option string) : option string := e.

(** A new context has the library's defaults: no verification, no
    option bit, server-side session caching, no callbacks. *)
Definition new_ctx (m : SSL_METHOD) : SSL_CTX :=
  mkSSL_CTX m SSL_VERIFY_NONE None 0 SSL_SESS_CACHE_SERVER false false.

(** NULL when the library cannot allocate. *)
Definition SSL_CTX_new (m : SSL_METHOD) : M (option nat) :=
  w <- get_world ;;
  match avail w with
  | O => ERR_put_error "malloc failure" ;;; ret None
  | S k =>
      let a := length (ctxs w) in
      put_world (mkWorld (udata w) (ctxs w ++ [Some (new_ctx m)]) k (free_log w)
                         (keyfiles w) (err_queue w)) ;;;
      ret (Some a)
  end.

Definition SSL_CTX_free (p : option nat) : M unit :=
  match p with
  | None => ret tt
  | Some a =>
      c <- deref p ;;
      w <- get_world ;;
      put_world (mkWorld (udata w) (<[a := None]> (ctxs w)) (S (avail w))
                         (a :: free_log w) (keyfiles w) (err_queue w))
  end.

(** Field updates of an SSL_CTX. *)
Definition with_verify (vmode : Z) (cb : option nat) (c : SSL_CTX) : SSL_CTX :=
  mkSSL_CTX (method c) vmode cb (options c) (session_cache_mode c)
            (default_passwd_cb c) (default_passwd_cb_userdata c).

Definition with_options (op : Z) (c : SSL_CTX) : SSL_CTX :=
  mkSSL_CTX (method c) (verify_mode c) (verify_callback c) op
            (session_cache_mode c)
            (default_passwd_cb c) (default_passwd_cb_userdata c).

Definition with_session_cache_mode (m : Z) (c : SSL_CTX) : SSL_CTX :=
  mkSSL_CTX (method c) (verify_mode c) (verify_callback c) (options c) m
            (default_passwd_cb c) (default_passwd_cb_userdata c).

Definition with_passwd_cb (cb : bool) (c : SSL_CTX) : SSL_CTX :=
  mkSSL_CTX (method c) (verify_mode c) (verify_callback c) (options c)
            (session_cache_mode c) cb (default_passwd_cb_userdata c).

Definition with_passwd_cb_userdata (u : bool) (c : SSL_CTX) : SSL_CTX :=
  mkSSL_CTX (method c) (verify_mode c) (verify_callback c) (options c)
            (session_cache_mode c) (default_passwd_cb c) u.

(** The verify mode and callback are replaced. *)
Definition SSL_CTX_set_verify (p : option nat) (vmode : Z) (cb : option nat)
    : M unit :=
  update p (with_verify vmode cb).

(** The bits are OR'ed into the options already set; the new mask is
    returned. *)
Definition SSL_CTX_set_options (p : option nat) (op : Z) : M Z :=
  c <- deref p ;;
  update p (with_options (Z.lor (options c) op)) ;;;
  ret (Z.lor (options c) op).

(** The cache mode is replaced; the previous one is returned. *)
Definition SSL_CTX_set_session_cache_mode (p : option nat) (m : Z) : M Z :=
  c <- deref p ;;
  update p (with_session_cache_mode m) ;;;
  ret (session_cache_mode c).

Definition SSL_CTX_set_default_passwd_cb (p : option nat) (cb : bool) : M unit :=
  update p (with_passwd_cb cb).

Definition SSL_CTX_set_default_passwd_cb_userdata (p : option nat) (u : bool)
    : M unit :=
  update p (with_passwd_cb_userdata u).

Definition PEM_BUFSIZE : Z := 1024.

(** The type of a password hook: the buffer, its size and the rwflag
    come in; the length written and the buffer come back. *)
Definition pem_password_cb : Type := list ascii -> Z -> Z -> M (Z * list ascii).

Fixpoint find_key (fs : list (string * pem_key)) (filename : string)
    : option pem_key :=
  match fs with
  | [] => None
  | (f, k) :: r => if String.eqb f (c_str filename) then Some k else find_key r filename
  end.

(** Loading a PEM key: 1 on success, 0 with a reason queued otherwise.
    An encrypted key asks the installed hook [cb] for the passphrase
    with a buffer of PEM_BUFSIZE bytes; a length of 0 or less is a
    failed read.  With no hook installed the library would prompt on
    the terminal; no passphrase comes from there. *)
Definition SSL_CTX_use_PrivateKey_file (p : option nat) (filename : string)
    (cb : pem_password_cb) : M Z :=
  c <- deref p ;;
  w <- get_world ;;
  match find_key (keyfiles w) filename with
  | None => ERR_put_error "system lib" ;;; ret 0
  | Some PlainKey => ret 1
  | Some (EncryptedKey pass) =>
      if default_passwd_cb c then
        r <- cb (replicate (Z.to_nat PEM_BUFSIZE) zero) PEM_BUFSIZE 0 ;;
        let '(n, buf) := r in
        if n <=? 0 then ERR_put_error "bad password read" ;;; ret 0
        else if String.eqb (string_of_list_ascii (take (Z.to_nat n) buf)) pass
             then ret 1
             else ERR_put_error "bad decrypt" ;;; ret 0
      else ERR_put_error "bad password read" ;;; ret 0
  end.

(** ** [context.c] *)

(** *** Auxiliary functions *)

Definition checkctx (idx : Z) : M nat := luaL_checkudata idx "SSL:Context".

Definition ctx_getcontext (idx : Z) : M (option nat) :=
  a <- checkctx idx ;;
  c <- load_ctx a ;;
  ret (context c).

(** [set_option_flag(opt, &flag)] over the table [p]: the returned int
    and the new [*flag]. *)
Fixpoint set_option_flag (p : list ssl_option_t) (opt : string) (flag : Z)
    : Z * Z :=
  match p with
  | [] => (0, flag)
  | e :: p' =>
      if strcmp opt (name e) =? 0 then (1, Z.lor flag (code e))
      else set_option_flag p' opt flag
  end.

Definition str2method (meth : string) : option SSL_METHOD :=
  if strcmp meth "sslv3" =? 0 then Some SSLv3_method
  else if strcmp meth "tlsv1" =? 0 then Some TLSv1_method
  else if strcmp meth "sslv23" =? 0 then Some SSLv23_method
  else None.

(** [set_verify_flag(str, &flag)]: the returned int and the new [*flag]. *)
Definition set_verify_flag (str : string) (flag : Z) : Z * Z :=
  if strcmp str "none" =? 0 then (1, Z.lor flag SSL_VERIFY_NONE)
  else if strcmp str "peer" =? 0 then (1, Z.lor flag SSL_VERIFY_PEER)
  else if strcmp str "client_once" =? 0 then (1, Z.lor flag SSL_VERIFY_CLIENT_ONCE)
  else if strcmp str "fail_if_no_peer_cert" =? 0
       then (1, Z.lor flag SSL_VERIFY_FAIL_IF_NO_PEER_CERT)
  else (0, flag).

(** The shared tail of [passwd_cb]'s two cases: copy the string on top
    of the stack into [buf], terminate it at [size - 1] and return its
    length. *)
Definition passwd_copy (buf : list ascii) (size : Z) : M (Z * list ascii) :=
  r <- lua_tostring (-1) ;;
  match r with
  | None => fault
  | Some s =>
      if (size <=? 0) || (Z.of_nat (length buf) <? size) then fault
      else
        let buf1 := strncpy buf s (Z.to_nat size) in
        let buf2 := <[Z.to_nat (size - 1) := zero]> buf1 in
        match strlen buf2 with
        | Some n => ret (Z.of_nat n, buf2)
        | None => fault
        end
  end.

Definition passwd_cb : pem_password_cb :=
  fun buf size flag =>
    t <- lua_type 3 ;;
    match t with
    | LUA_TFUNCTION =>
        lua_pushvalue 3 ;;;
        lua_call_0_1 ;;;
        t' <- lua_type (-1) ;;
        match t' with
        | LUA_TSTRING => passwd_copy buf size
        | _ => ret (0, buf)
        end
    | LUA_TSTRING => passwd_copy buf size
    | _ => ret (0, buf)
    end.

(** *** Lua functions *)

(** [lua_newuserdata] does not return NULL (it raises a memory error
    instead), so the first "error creating context" branch is dead. *)
Definition create : M Z :=
  s <- luaL_checkstring 1 ;;
  match str2method s with
  | None =>
      lua_pushnil ;;;
      lua_pushstring "invalid protocol" ;;;
      ret 2
  | Some m =>
      a <- lua_newuserdata ;;
      p <- SSL_CTX_new m ;;
      c <- load_ctx a ;;
      store_ctx a (mk_context p (mode c)) ;;;
      match p with
      | None =>
          lua_pushnil ;;;
          lua_pushstring "error creating context" ;;;
          ret 2
      | Some _ =>
          c <- load_ctx a ;;
          store_ctx a (mk_context (context c) MD_CTX_INVALID) ;;;
          luaL_getmetatable "SSL:Context" ;;;
          lua_setmetatable (-2) ;;;
          ret 1
      end
  end.

(** The body shared by the cases LUA_TSTRING, LUA_TFUNCTION (after they
    installed the hook) and LUA_TNIL. *)
Definition load_key_file (ctx : option nat) (filename : string) : M Z :=
  r <- SSL_CTX_use_PrivateKey_file ctx filename passwd_cb ;;
  n <- (if r =? 1 then lua_pushboolean 1 ;;; ret 1
        else
          lua_pushboolean 0 ;;;
          e <- ERR_get_error ;;
          lua_pushfstring "error loading private key ("
                          (ERR_reason_error_string e) ")" ;;;
          ret 2) ;;
  SSL_CTX_set_default_passwd_cb ctx false ;;;
  SSL_CTX_set_default_passwd_cb_userdata ctx false ;;;
  ret n.

Definition load_key : M Z :=
  ctx <- ctx_getcontext 1 ;;
  filename <- luaL_checkstring 2 ;;
  t <- lua_type 3 ;;
  match t with
  | LUA_TSTRING | LUA_TFUNCTION =>
      SSL_CTX_set_default_passwd_cb ctx true ;;;
      SSL_CTX_set_default_passwd_cb_userdata ctx true ;;;
      load_key_file ctx filename
  | LUA_TNIL => load_key_file ctx filename
  | _ =>
      lua_pushstring "invalid callback value" ;;;
      lua_error
  end.

Definition set_verify : M Z :=
  ctx <- ctx_getcontext 1 ;;
  max <- lua_gettop ;;
  if 1 <? max then
    r <- for_range 2 max
           (fun i flag =>
              str <- luaL_checkstring i ;;
              let '(ok, flag') := set_verify_flag str flag in
              if ok =? 0 then
                lua_pushboolean 0 ;;;
                lua_pushstring "invalid verify option" ;;;
                ret (inr 2)
              else ret (inl flag'))
           0 ;;
    match r with
    | inr n => ret n
    | inl flag =>
        SSL_CTX_set_verify ctx flag None ;;;
        lua_pushboolean 1 ;;;
        ret 1
    end
  else
    lua_pushboolean 1 ;;;
    ret 1.

Section Options.

(** The entries of [ssl_options] (options.h) before its NULL-named
    terminator. *)
Variable ssl_options : list ssl_option_t.

Definition set_options : M Z :=
  ctx <- ctx_getcontext 1 ;;
  max <- lua_gettop ;;
  if 1 <? max then
    r <- for_range 2 max
           (fun i flag =>
              opt <- luaL_checkstring i ;;
              let '(ok, flag') := set_option_flag ssl_options opt flag in
              if ok =? 0 then
                lua_pushboolean 0 ;;;
                lua_pushstring "invalid option" ;;;
                ret (inr 2)
              else ret (inl flag'))
           0 ;;
    match r with
    | inr n => ret n
    | inl flag =>
        SSL_CTX_set_options ctx flag ;;;
        lua_pushboolean 1 ;;;
        ret 1
    end
  else
    lua_pushboolean 1 ;;;
    ret 1.

End Options.

(** The failure path pushes two values and returns 1. *)
Definition set_mode : M Z :=
  ctx <- checkctx 1 ;;
  str <- luaL_checkstring 2 ;;
  if strcmp "server" str =? 0 then
    c <- load_ctx ctx ;;
    store_ctx ctx (mk_context (context c) MD_CTX_SERVER) ;;;
    lua_pushboolean 1 ;;;
    ret 1
  else if strcmp "client" str =? 0 then
    c <- load_ctx ctx ;;
    store_ctx ctx (mk_context (context c) MD_CTX_CLIENT) ;;;
    lua_pushboolean 1 ;;;
    ret 1
  else
    lua_pushboolean 0 ;;;
    lua_pushstring "invalid mode" ;;;
    ret 1.

(** The bit a string token of [set_session_cache_mode] stands for;
    [None] when the chain of comparisons falls through to [default]. *)
Definition session_cache_bit (str : string) : option Z :=
  if strcmp "off" str =? 0 then Some SSL_SESS_CACHE_OFF
  else if strcmp "client" str =? 0 then Some SSL_SESS_CACHE_CLIENT
  else if strcmp "server" str =? 0 then Some SSL_SESS_CACHE_SERVER
  else if strcmp "both" str =? 0 then Some SSL_SESS_CACHE_BOTH
  else if strcmp "no_auto_clear" str =? 0 then Some SSL_SESS_CACHE_NO_AUTO_CLEAR
  else if strcmp "no_internal_lookup" str =? 0
       then Some SSL_SESS_CACHE_NO_INTERNAL_LOOKUP
  else if strcmp "no_internal_store" str =? 0
       then Some SSL_SESS_CACHE_NO_INTERNAL_STORE
  else if strcmp "no_internal" str =? 0 then Some SSL_SESS_CACHE_NO_INTERNAL
  else None.

(** There is no test on the number of arguments here: the commit after
    the loop is always made. *)
Definition set_session_cache_mode : M Z :=
  ctx <- ctx_getcontext 1 ;;
  top <- lua_gettop ;;
  r <- for_range (R := Z) 2 top
         (fun i mode =>
            t <- lua_type i ;;
            match t with
            | LUA_TBOOLEAN =>
                b <- lua_toboolean i ;;
                if b then ret (inl (Z.lor mode SSL_SESS_CACHE_BOTH))
                else ret (inl (Z.lor mode SSL_SESS_CACHE_OFF))
            | LUA_TSTRING =>
                s <- lua_tostring i ;;
                match s with
                | Some str =>
                    match session_cache_bit str with
                    | Some bit => ret (inl (Z.lor mode bit))
                    | None => luaL_argerror i "unknown session cache mode"
                    end
                | None => fault
                end
            | _ => luaL_argerror i "unknown session cache mode"
            end)
         0 ;;
  match r with
  | inr n => ret n
  | inl mode =>
      SSL_CTX_set_session_cache_mode ctx mode ;;;
      lua_pushboolean 1 ;;;
      ret 1
  end.

(** *** Metamethods *)

Definition meth_destroy : M Z :=
  ctx <- checkctx 1 ;;
  c <- load_ctx ctx ;;
  match context c with
  | Some p =>
      SSL_CTX_free (Some p) ;;;
      c' <- load_ctx ctx ;;
      store_ctx ctx (mk_context None (mode c')) ;;;
      ret 0
  | None => ret 0
  end.

(** ** Vocabulary of the statements *)

(** The argument list of a method call: the handle, then the tokens. *)
Definition method_args (h : nat) (tokens : list string) : list lua_value :=
  LUserdata h :: map LString tokens.

(** [h] is an SSL context handle of [w]: a userdata block whose
    metatable is "SSL:Context". *)
Definition is_handle (w : World) (h : nat) : Prop :=
  exists blk, udata w !! h = Some blk /\ metatable blk = Some "SSL:Context".

(** [h] is a handle whose engine context is [c], live at address [p]. *)
Definition live_handle (w : World) (h p : nat) (c : SSL_CTX) : Prop :=
  exists blk,
    udata w !! h = Some blk /\ metatable blk = Some "SSL:Context" /\
    context (payload blk) = Some p /\ ctxs w !! p = Some (Some c).

(** The engine context behind the handle [h], when there is a live one. *)
Definition engine_ctx (w : World) (h : nat) : option SSL_CTX :=
  match udata w !! h with
  | Some blk =>
      match context (payload blk) with
      | Some p => match ctxs w !! p with Some (Some c) => Some c | _ => None end
      | None => None
      end
  | None => None
  end.

(** The world after an engine setter has applied [f] to the context at
    [p]; [None] when [p] is NULL or names no live context. *)
Definition commit (w : World) (p : option nat) (f : SSL_CTX -> SSL_CTX)
    : option World :=
  match p with
  | Some a =>
      match ctxs w !! a with
      | Some (Some c) => Some (with_ctxs (<[a := Some (f c)]> (ctxs w)) w)
      | _ => None
      end
  | None => None
  end.

(** The world once the mode of the handle [h] (block [blk]) is [m]. *)
Definition set_handle_mode (h : nat) (blk : userdata) (m : ctx_mode) (w : World)
    : World :=
  with_udata (<[h := mk_userdata (metatable blk)
                       (mk_context (context (payload blk)) m)]> (udata w)) w.

(** The world once the handle [h] (block [blk]) has been destroyed:
    its context, at [p], is freed and its pointer is NULL. *)
Definition destroyed (h : nat) (blk : userdata) (p : nat) (w : World) : World :=
  mkWorld (<[h := mk_userdata (metatable blk)
                    (mk_context None (mode (payload blk)))]> (udata w))
          (<[p := None]> (ctxs w)) (S (avail w)) (p :: free_log w)
          (keyfiles w) (err_queue w).

(** The world once [create] has made a handle on a new context, [k]
    being what the engine can still allocate afterwards. *)
Definition created (m : SSL_METHOD) (k : nat) (w : World) : World :=
  mkWorld (udata w ++ [mk_userdata (Some "SSL:Context")
                         (mk_context (Some (length (ctxs w))) MD_CTX_INVALID)])
          (ctxs w ++ [Some (new_ctx m)]) k (free_log w)
          (keyfiles w) (err_queue w).

(** The mode recorded on the handle [h]. *)
Definition handle_mode (w : World) (h : nat) : option ctx_mode :=
  match udata w !! h with
  | Some blk => Some (mode (payload blk))
  | None => None
  end.

Definition verify_token_ok (t : string) : bool :=
  negb (fst (set_verify_flag t 0) =? 0).

Definition option_token_ok (tbl : list ssl_option_t) (t : string) : bool :=
  negb (fst (set_option_flag tbl t 0) =? 0).

(** The mask a loop of [set_verify] or [set_options] builds from a run
    of tokens, starting from [flag], where [resolve] is the flag
    function the loop calls; [None] when a token is refused. *)
Fixpoint token_mask (resolve : string -> Z -> Z * Z) (ts : list string)
    (flag : Z) : option Z :=
  match ts with
  | [] => Some flag
  | t :: r =>
      let '(ok, flag') := resolve t flag in
      if ok =? 0 then None else token_mask resolve r flag'
  end.

Definition verify_mask : list string -> Z -> option Z :=
  token_mask set_verify_flag.

Definition option_mask (tbl : list ssl_option_t) : list string -> Z -> option Z :=
  token_mask (set_option_flag tbl).

(** The common shape of the loop bodies of [set_verify] and
    [set_options]. *)
Definition flag_loop_body (resolve : string -> Z -> Z * Z) (msg : string)
    : Z -> Z -> M (Z + Z) :=
  fun i flag =>
    str <- luaL_checkstring i ;;
    let '(ok, flag') := resolve str flag in
    if ok =? 0 then
      lua_pushboolean 0 ;;;
      lua_pushstring msg ;;;
      ret (inr 2)
    else ret (inl flag').

(** The loop of [set_session_cache_mode] over string tokens, the first
    of them at index [i]: the mask built from [m] ([inl]), or the index
    of the first token the chain of comparisons refuses ([inr]). *)
Fixpoint cache_scan (ts : list string) (i : Z) (m : Z) : Z + Z :=
  match ts with
  | [] => inl m
  | t :: r =>
      match session_cache_bit t with
      | Some bit => cache_scan r (i + 1) (Z.lor m bit)
      | None => inr i
      end
  end.

(** [n] calls of the __gc metamethod on the handle [h], one after the
    other. *)
Fixpoint destroy_times (n : nat) (h : nat) (w : World) : call_result :=
  match n with
  | O => Returned [] w
  | S k =>
      match lua_cfunction_call meth_destroy [LUserdata h] w with
      | Returned _ w' => destroy_times k h w'
      | r => r
      end
  end.

(** Does some returned value spell out the token [t]? *)
Fixpoint is_infix (t s : string) : bool :=
  String.prefix t s ||
  match s with
  | EmptyString => false
  | String _ r => is_infix t r
  end.

Definition names_token (t : string) (vs : list lua_value) : bool :=
  existsb (fun v => match v with
                    | LString s => is_infix t s
                    | _ => false
                    end) vs.

(** A small world to evaluate in: one handle (address 0) on one live
    context (address 0) that verifies the peer and caches server
    sessions, and two key files. *)
Definition sample_ctx : SSL_CTX :=
  mkSSL_CTX TLSv1_method SSL_VERIFY_PEER None 0 SSL_SESS_CACHE_SERVER false false.

Definition sample_world : World :=
  mkWorld [mk_userdata (Some "SSL:Context") (mk_context (Some 0%nat) MD_CTX_INVALID)]
          [Some sample_ctx] 4 []
          [("plain.pem", PlainKey); ("locked.pem", EncryptedKey "secret")] [].

(** A protocol name followed by a NUL byte and more bytes. *)
Definition sslv3_nul_x : string := String.append "sslv3" (String zero "x").

Definition sample_options : list ssl_option_t :=
  [mk_option "all" 0x80000BFF; mk_option "no_sslv2" 0x01000000;
   mk_option "no_sslv3" 0x02000000; mk_option "single_dh_use" 0x00100000].

(** ** More of [context.c] *)

(** [ctx_getmode], the accessor the other C files of the module call. *)
Definition ctx_getmode (idx : Z) : M ctx_mode :=
  a <- checkctx idx ;;
  c <- load_ctx a ;;
  ret (mode c).

(** [luaL_optstring(L, narg, def)]: the default when the argument is
    absent or nil ([lua_isnoneornil]), [luaL_checkstring] otherwise. *)
Definition luaL_optstring (narg : Z) (def : option string) : M (option string) :=
  t <- lua_type narg ;;
  match t with
  | LUA_TNONE | LUA_TNIL => ret def
  | _ => s <- luaL_checkstring narg ;; ret (Some s)
  end.

(** A call into the engine of which only the interface is known: it
    sees the world, not the Lua stack, and either returns or faults. *)
Definition engine_call {A : Type} (f : World -> option (A * World)) : M A :=
  fun s =>
    match f (world s) with
    | Some (a, w') => Ok a (with_world w' s)
    | None => Fault
    end.

Section Engine.

(** The three loaders of the engine, taken as they come: an int result
    and the world they leave.  Their [const char *] arguments are C
    strings, NULL being [None]. *)
Variable SSL_CTX_load_verify_locations :
  option nat -> option string -> option string -> World -> option (Z * World).
Variable SSL_CTX_use_certificate_chain_file :
  option nat -> string -> World -> option (Z * World).
Variable SSL_CTX_set_cipher_list :
  option nat -> string -> World -> option (Z * World).

Definition load_locations : M Z :=
  ctx <- ctx_getcontext 1 ;;
  cafile <- luaL_optstring 2 None ;;
  capath <- luaL_optstring 3 None ;;
  r <- engine_call (SSL_CTX_load_verify_locations ctx
                      (option_map c_str cafile) (option_map c_str capath)) ;;
  if negb (r =? 1) then
    lua_pushboolean 0 ;;;
    e <- ERR_get_error ;;
    lua_pushfstring "error loading CA locations ("
                    (ERR_reason_error_string e) ")" ;;;
    ret 2
  else
    lua_pushboolean 1 ;;;
    ret 1.

Definition load_cert : M Z :=
  ctx <- ctx_getcontext 1 ;;
  filename <- luaL_checkstring 2 ;;
  r <- engine_call (SSL_CTX_use_certificate_chain_file ctx (c_str filename)) ;;
  if negb (r =? 1) then
    lua_pushboolean 0 ;;;
    e <- ERR_get_error ;;
    lua_pushfstring "error loading certificate ("
                    (ERR_reason_error_string e) ")" ;;;
    ret 2
  else
    lua_pushboolean 1 ;;;
    ret 1.

Definition set_cipher : M Z :=
  ctx <- ctx_getcontext 1 ;;
  list <- luaL_checkstring 2 ;;
  r <- engine_call (SSL_CTX_set_cipher_list ctx (c_str list)) ;;
  if negb (r =? 1) then
    lua_pushboolean 0 ;;;
    e <- ERR_get_error ;;
    lua_pushfstring "error setting cipher list ("
                    (ERR_reason_error_string e) ")" ;;;
    ret 2
  else
    lua_pushboolean 1 ;;;
    ret 1.

End Engine.

(** ** More vocabulary *)

(** The loop of [set_session_cache_mode] over any argument values, the
    first at index [i]: a boolean stands for "both" or "off", a string
    for its bit, and anything else, like a string that is not known, is
    refused ([inr], with its index). *)
Fixpoint cache_scan_values (vs : list lua_value) (i : Z) (m : Z) : Z + Z :=
  match vs with
  | [] => inl m
  | v :: r =>
      match v with
      | LBoolean b =>
          cache_scan_values r (i + 1)
            (Z.lor m (if b then SSL_SESS_CACHE_BOTH else SSL_SESS_CACHE_OFF))
      | LString t =>
          match session_cache_bit t with
          | Some bit => cache_scan_values r (i + 1) (Z.lor m bit)
          | None => inr i
          end
      | _ => inr i
      end
  end.

(** A boolean token written out as the string token it stands for. *)
Definition spell_boolean (v : lua_value) : lua_value :=
  match v with
  | LBoolean true => LString "both"
  | LBoolean false => LString "off"
  | _ => v
  end.

(** A session cache token the loop takes. *)
Definition cache_token_ok (v : lua_value) : bool :=
  match v with
  | LBoolean _ => true
  | LString t => match session_cache_bit t with Some _ => true | None => false end
  | _ => false
  end.

(** [v] is not an SSL context handle of [w]: it is no full userdata, or
    one whose block has another metatable or none. *)
Definition not_a_context (w : World) (v : lua_value) : Prop :=
  match v with
  | LUserdata a =>
      exists blk, udata w !! a = Some blk /\ metatable blk <> Some "SSL:Context"
  | _ => True
  end.

(** The error [luaL_checkudata] raises on argument 1. *)
Definition context_expected (v : lua_value) : lua_err :=
  ArgError 1 ("SSL:Context expected, got " ++ lua_typename (type_of v))%string.

(** The error [luaL_checkstring] raises on argument [i]. *)
Definition string_expected (i : Z) (v : lua_value) : lua_err :=
  ArgError i ("string expected, got " ++ lua_typename (type_of v))%string.

(** The four names [set_verify_flag] knows. *)
Definition verify_name (t : string) : Prop :=
  c_str t = "none" \/ c_str t = "peer" \/ c_str t = "client_once" \/
  c_str t = "fail_if_no_peer_cert".

(** What [passwd_copy] leaves in the buffer for the password [pw]. *)
Definition copied (buf : list ascii) (pw : string) (size : Z) : list ascii :=
  <[Z.to_nat (size - 1) := zero]> (strncpy buf pw (Z.to_nat size)).

(** Engines to evaluate the loaders with: one that refuses everything
    with a reason queued, one that accepts everything. *)
Definition refuse (reason : string) (w : World) : option (Z * World) :=
  Some (0, with_err_queue (err_queue w ++ [reason]) w).

Definition accept (w : World) : option (Z * World) := Some (1, w).

(** A second world: the sample one with another handle (address 1) on
    another live context (address 1). *)
Definition sample_world2 : World :=
  mkWorld [mk_userdata (Some "SSL:Context") (mk_context (Some 0%nat) MD_CTX_INVALID);
           mk_userdata (Some "SSL:Context") (mk_context (Some 1%nat) MD_CTX_SERVER)]
          [Some sample_ctx; Some (new_ctx SSLv23_method)] 3 []
          [("plain.pem", PlainKey); ("locked.pem", EncryptedKey "secret")] [].

(** What a loader returns to Lua for an answer of the engine: true
    when the answer is 1; otherwise false and the message made of
    [prefix], the earliest error of the engine's queue (taken off it;
    "(null)" when there is none) and a closing parenthesis. *)
Definition loader_result (prefix : string) (r : option (Z * World))
    : call_result :=
  match r with
  | None => Crashed
  | Some (n, w') =>
      if n =? 1 then Returned [LBoolean true] w'
      else
        match err_queue w' with
        | [] => Returned [LBoolean false; LString (prefix ++ "(null))")] w'
        | e :: q =>
            Returned [LBoolean false; LString (prefix ++ c_str e ++ ")")]
                     (with_err_queue q w')
        end
  end.

(** The context pointer a handle holds (NULL: [None]). *)
Definition handle_context (w : World) (h : nat) : option nat :=
  match udata w !! h with
  | Some blk => context (payload blk)
  | None => None
  end.

(** An optional string argument as the engine receives it: the C
    string when the argument is a string, NULL when it is nil or was
    not passed. *)
Definition opt_c_string (v : option lua_value) : option string :=
  match v with
  | Some (LString s) => Some (c_str s)
  | _ => None
  end.

(** An argument [luaL_optstring] takes without raising or converting:
    absent, nil or a string. *)
Definition nil_or_string (v : option lua_value) : Prop :=
  match v with
  | None | Some LNil | Some (LString _) => True
  | _ => False
  end.

(** An engine that loads locations only when given a CA file. *)
Definition wants_cafile (ca : option string) (w : World) : option (Z * World) :=
  match ca with
  | Some _ => accept w
  | None => refuse "no CA file" w
  end.

(** [w'] differs from [w] at most in the engine context at [p]. *)
Definition same_but_ctx (p : nat) (w w' : World) : Prop :=
  udata w' = udata w /\
  (forall p', p' <> p -> ctxs w' !! p' = ctxs w !! p') /\
  avail w' = avail w /\ free_log w' = free_log w /\
  keyfiles w' = keyfiles w /\ err_queue w' = err_queue w.

(** * Properties *)

(** ** C strings *)

Lemma byte_val_zero (c : ascii) : byte_val c = 0 <-> c = zero.
Proof.
  unfold byte_val. split.
  - intros H. rewrite <- (ascii_N_embedding c).
    replace (N_of_ascii c) with 0%N by lia. reflexivity.
  - intros ->. reflexivity.
Qed.

(** [strcmp] answers 0 exactly when the two C strings are the same. *)
Lemma strcmp_0_iff (a b : string) : strcmp a b = 0 <-> c_str a = c_str b.
Proof.
  revert b. induction a as [|x a IH]; intros [|y b]; simpl.
  - tauto.
  - destruct (Ascii.eqb_spec y zero) as [->|Hy].
    + split; reflexivity.
    + split; [|discriminate]. intros H. exfalso. apply Hy, byte_val_zero. lia.
  - destruct (Ascii.eqb_spec x zero) as [->|Hx].
    + split; reflexivity.
    + split; [|discriminate]. intros H. exfalso. apply Hx, byte_val_zero. lia.
  - destruct (Ascii.eqb_spec x y) as [->|Hxy].
    + destruct (Ascii.eqb_spec y zero) as [->|Hy].
      * split; reflexivity.
      * rewrite IH. split; [intros ->; reflexivity | congruence].
    + split.
      * intros H. exfalso. apply Hxy.
        rewrite <- (ascii_N_embedding x), <- (ascii_N_embedding y).
        f_equal. unfold byte_val in H. lia.
      * destruct (Ascii.eqb_spec x zero) as [->|Hx];
          destruct (Ascii.eqb_spec y zero) as [->|Hy]; congruence.
Qed.

Lemma strcmp_eqb (a b : string) :
  (strcmp a b =? 0) = String.eqb (c_str a) (c_str b).
Proof.
  destruct (String.eqb_spec (c_str a) (c_str b)) as [H|H].
  - apply Z.eqb_eq, strcmp_0_iff, H.
  - apply Z.eqb_neq. rewrite strcmp_0_iff. exact H.
Qed.

(** A string without a NUL byte is its own C string. *)
Lemma c_str_id (s : string) :
  ~ In zero (list_ascii_of_string s) -> c_str s = s.
Proof.
  induction s as [|c s IH]; simpl; intros H; [reflexivity|].
  destruct (Ascii.eqb_spec c zero) as [->|Hc].
  - exfalso. apply H. now left.
  - f_equal. apply IH. intros Hin. apply H. now right.
Qed.

(** ** Running the API on a known stack *)

Ltac run_pushes :=
  unfold lua_pushboolean, lua_pushstring, lua_pushnil, push, get_stack,
    put_stack, with_stack, ret, bind;
  cbn [stack world].

Lemma bind_ok {A B : Type} (m : M A) (k : A -> M B) s a s' :
  m s = Ok a s' -> bind m k s = k a s'.
Proof. unfold bind. intros ->. reflexivity. Qed.

Lemma value_at_arg (st : list lua_value) (i : nat) (v : lua_value) :
  st !! i = Some v -> value_at (Z.of_nat (S i)) st = Some v.
Proof.
  intros H. pose proof (lookup_lt_Some _ _ _ H) as Hlt.
  unfold value_at, index2adr.
  replace (0 <? Z.of_nat (S i)) with true by (symmetry; apply Z.ltb_lt; lia).
  replace (Z.of_nat (S i) <=? Z.of_nat (length st)) with true
    by (symmetry; apply Z.leb_le; lia).
  simpl andb. cbv iota.
  replace (Z.to_nat (Z.of_nat (S i) - 1)) with i by lia. exact H.
Qed.

Lemma index2adr_arg (st : list lua_value) (i : nat) :
  (i < length st)%nat -> index2adr (Z.of_nat (S i)) st = Some i.
Proof.
  intros Hlt. unfold index2adr.
  replace (0 <? Z.of_nat (S i)) with true by (symmetry; apply Z.ltb_lt; lia).
  replace (Z.of_nat (S i) <=? Z.of_nat (length st)) with true
    by (symmetry; apply Z.leb_le; lia).
  simpl andb. cbv iota. f_equal. lia.
Qed.

Lemma value_at_1 (v : lua_value) (st : list lua_value) :
  value_at 1 (v :: st) = Some v.
Proof. exact (value_at_arg (v :: st) 0 v eq_refl). Qed.

Lemma run_checkstring (st : list lua_value) (w : World) (i : nat) (t : string) :
  st !! i = Some (LString t) ->
  luaL_checkstring (Z.of_nat (S i)) (mkState st w) = Ok t (mkState st w).
Proof.
  intros H. pose proof (lookup_lt_Some _ _ _ H) as Hlt.
  unfold luaL_checkstring, lua_tostring, bind, get_stack. simpl.
  rewrite (index2adr_arg _ _ Hlt), H. reflexivity.
Qed.

Lemma run_checkctx (h : nat) (rest : list lua_value) (w : World) blk :
  udata w !! h = Some blk -> metatable blk = Some "SSL:Context" ->
  checkctx 1 (mkState (LUserdata h :: rest) w)
  = Ok h (mkState (LUserdata h :: rest) w).
Proof.
  intros Hb Hm.
  unfold checkctx, luaL_checkudata, bind, get_stack, get_world.
  cbn [stack world]. rewrite value_at_1, Hb, Hm. reflexivity.
Qed.

Lemma run_ctx_getcontext (h : nat) (rest : list lua_value) (w : World) blk :
  udata w !! h = Some blk -> metatable blk = Some "SSL:Context" ->
  ctx_getcontext 1 (mkState (LUserdata h :: rest) w)
  = Ok (context (payload blk)) (mkState (LUserdata h :: rest) w).
Proof.
  intros Hb Hm. unfold ctx_getcontext.
  rewrite (bind_ok _ _ _ _ _ (run_checkctx h rest w blk Hb Hm)).
  unfold load_ctx, bind, get_world. simpl. rewrite Hb. reflexivity.
Qed.

Lemma method_args_lookup (h : nat) (pre rest : list string) (t : string) :
  method_args h (pre ++ t :: rest) !! S (length pre) = Some (LString t).
Proof.
  unfold method_args. simpl. rewrite map_app. simpl.
  rewrite lookup_app_r by (rewrite length_map; lia).
  rewrite length_map, Nat.sub_diag. reflexivity.
Qed.

Lemma results_top2 (st : list lua_value) (a b : lua_value) :
  drop (length (st ++ [a; b]) - Z.to_nat 2) (st ++ [a; b]) = [a; b].
Proof.
  rewrite length_app. simpl length.
  replace (length st + 2 - Z.to_nat 2)%nat with (length st) by lia.
  rewrite drop_app_length. reflexivity.
Qed.

Lemma results_top1 (st : list lua_value) (a : lua_value) :
  drop (length (st ++ [a]) - Z.to_nat 1) (st ++ [a]) = [a].
Proof.
  rewrite length_app. simpl length.
  replace (length st + 1 - Z.to_nat 1)%nat with (length st) by lia.
  rewrite drop_app_length. reflexivity.
Qed.

(** ** The token loops *)

(** The loop of [set_verify] / [set_options] over the tokens [rest]
    that follow the tokens [pre] already read: the mask when every token
    resolves, the two pushed error values and the return of 2 at the
    first one that does not.  The loop touches nothing but the stack. *)
Lemma flag_loop (resolve : string -> Z -> Z * Z) (msg : string)
    (h : nat) (w : World) (rest pre : list string) (flag : Z) :
  for_steps (length rest) (Z.of_nat (2 + length pre))
            (flag_loop_body resolve msg) flag
            (mkState (method_args h (pre ++ rest)) w)
  = match token_mask resolve rest flag with
    | Some f => Ok (inl f) (mkState (method_args h (pre ++ rest)) w)
    | None =>
        Ok (inr 2)
           (mkState (method_args h (pre ++ rest)
                     ++ [LBoolean false; LString (c_str msg)]) w)
    end.
Proof.
  revert pre flag. induction rest as [|t rest IH]; intros pre flag.
  - reflexivity.
  - cbn [length for_steps token_mask].
    unfold bind at 1. unfold flag_loop_body at 1.
    rewrite (bind_ok _ _ _ _ _
               (run_checkstring _ w (S (length pre)) t
                  (method_args_lookup h pre rest t))).
    destruct (resolve t flag) as [ok flag'].
    destruct (ok =? 0).
    + unfold bind, lua_pushboolean, lua_pushstring, push, get_stack,
        put_stack, with_stack, ret. simpl.
      rewrite <- app_assoc. reflexivity.
    + unfold ret at 1.
      replace (Z.of_nat (2 + length pre) + 1)
        with (Z.of_nat (2 + length (pre ++ [t])))
        by (rewrite length_app; simpl; lia).
      replace (pre ++ t :: rest) with ((pre ++ [t]) ++ rest)
        by (rewrite <- app_assoc; reflexivity).
      apply IH.
Qed.

Lemma run_update (p : option nat) (f : SSL_CTX -> SSL_CTX)
    (st : list lua_value) (w : World) :
  update p f (mkState st w)
  = match commit w p f with
    | Some w' => Ok tt (mkState st w')
    | None => Fault
    end.
Proof.
  unfold update, deref, commit, bind, get_world, put_world, with_world, ret,
    fault.
  cbn [world stack]. destruct p as [a|]; [|reflexivity].
  destruct (ctxs w !! a) as [[c|]|]; reflexivity.
Qed.

Lemma run_set_options (p : option nat) (op : Z) (st : list lua_value)
    (w : World) :
  SSL_CTX_set_options p op (mkState st w)
  = match p with
    | Some a =>
        match ctxs w !! a with
        | Some (Some c) =>
            Ok (Z.lor (options c) op)
               (mkState st
                  (with_ctxs (<[a := Some (with_options (Z.lor (options c) op) c)]>
                                (ctxs w)) w))
        | _ => Fault
        end
    | None => Fault
    end.
Proof.
  unfold SSL_CTX_set_options, update, deref, get_world, put_world, with_world,
    ret, fault, bind.
  cbn [world stack]. destruct p as [a|]; [|reflexivity].
  destruct (ctxs w !! a) as [[c|]|] eqn:E; cbn [world stack]; rewrite ?E;
    reflexivity.
Qed.

Lemma run_set_session_cache_mode (p : option nat) (m : Z)
    (st : list lua_value) (w : World) :
  SSL_CTX_set_session_cache_mode p m (mkState st w)
  = match p with
    | Some a =>
        match ctxs w !! a with
        | Some (Some c) =>
            Ok (session_cache_mode c)
               (mkState st
                  (with_ctxs (<[a := Some (with_session_cache_mode m c)]>
                                (ctxs w)) w))
        | _ => Fault
        end
    | None => Fault
    end.
Proof.
  unfold SSL_CTX_set_session_cache_mode, update, deref, get_world, put_world,
    with_world, ret, fault, bind.
  cbn [world stack]. destruct p as [a|]; [|reflexivity].
  destruct (ctxs w !! a) as [[c|]|] eqn:E; cbn [world stack]; rewrite ?E;
    reflexivity.
Qed.

Lemma args_top (h : nat) (ts : list string) :
  Z.of_nat (length (method_args h ts)) = 1 + Z.of_nat (length ts).
Proof. unfold method_args. simpl length. rewrite length_map. lia. Qed.

(** What a call of [set_verify] on a handle and string tokens does. *)
Lemma set_verify_run (h : nat) (w : World) blk (ts : list string) :
  udata w !! h = Some blk -> metatable blk = Some "SSL:Context" ->
  lua_cfunction_call set_verify (method_args h ts) w
  = match ts with
    | [] => Returned [LBoolean true] w
    | _ :: _ =>
        match verify_mask ts 0 with
        | None => Returned [LBoolean false; LString "invalid verify option"] w
        | Some f =>
            match commit w (context (payload blk)) (with_verify f None) with
            | Some w' => Returned [LBoolean true] w'
            | None => Crashed
            end
        end
    end.
Proof.
  intros Hb Hm. unfold lua_cfunction_call, set_verify.
  erewrite bind_ok by exact (run_ctx_getcontext h (map LString ts) w blk Hb Hm).
  change (LUserdata h :: map LString ts) with (method_args h ts).
  unfold bind at 1. unfold lua_gettop at 1, bind at 1, get_stack at 1, ret at 1.
  cbn [stack]. rewrite args_top.
  destruct ts as [|t ts].
  - reflexivity.
  - replace (1 <? 1 + Z.of_nat (length (t :: ts))) with true
      by (symmetry; apply Z.ltb_lt; simpl length; lia).
    unfold bind at 1, for_range.
    replace (Z.to_nat (1 + Z.of_nat (length (t :: ts)) - 2 + 1))
      with (length (t :: ts)) by lia.
    change (for_steps (length (t :: ts)) 2 ?b 0 ?s)
      with (for_steps (length (t :: ts)) (Z.of_nat (2 + length (@nil string)))
              (flag_loop_body set_verify_flag "invalid verify option") 0
              (mkState (method_args h ([] ++ t :: ts)) w)).
    rewrite flag_loop. fold verify_mask.
    destruct (verify_mask (t :: ts) 0) as [f|].
    + unfold SSL_CTX_set_verify, bind at 1. rewrite run_update.
      destruct (commit w (context (payload blk)) (with_verify f None)) as [w'|];
        [|reflexivity].
      run_pushes. rewrite results_top1. reflexivity.
    + unfold ret. cbn [stack world]. rewrite results_top2. reflexivity.
Qed.

(** What a call of [set_options] on a handle and string tokens does. *)
Lemma set_options_run (tbl : list ssl_option_t) (h : nat) (w : World) blk
    (ts : list string) :
  udata w !! h = Some blk -> metatable blk = Some "SSL:Context" ->
  lua_cfunction_call (set_options tbl) (method_args h ts) w
  = match ts with
    | [] => Returned [LBoolean true] w
    | _ :: _ =>
        match option_mask tbl ts 0 with
        | None => Returned [LBoolean false; LString "invalid option"] w
        | Some f =>
            match context (payload blk) with
            | Some p =>
                match ctxs w !! p with
                | Some (Some c) =>
                    Returned [LBoolean true]
                      (with_ctxs (<[p := Some (with_options (Z.lor (options c) f) c)]>
                                    (ctxs w)) w)
                | _ => Crashed
                end
            | None => Crashed
            end
        end
    end.
Proof.
  intros Hb Hm. unfold lua_cfunction_call, set_options.
  erewrite bind_ok by exact (run_ctx_getcontext h (map LString ts) w blk Hb Hm).
  change (LUserdata h :: map LString ts) with (method_args h ts).
  unfold bind at 1. unfold lua_gettop at 1, bind at 1, get_stack at 1, ret at 1.
  cbn [stack]. rewrite args_top.
  destruct ts as [|t ts].
  - reflexivity.
  - replace (1 <? 1 + Z.of_nat (length (t :: ts))) with true
      by (symmetry; apply Z.ltb_lt; simpl length; lia).
    unfold bind at 1, for_range.
    replace (Z.to_nat (1 + Z.of_nat (length (t :: ts)) - 2 + 1))
      with (length (t :: ts)) by lia.
    change (for_steps (length (t :: ts)) 2 ?b 0 ?s)
      with (for_steps (length (t :: ts)) (Z.of_nat (2 + length (@nil string)))
              (flag_loop_body (set_option_flag tbl) "invalid option") 0
              (mkState (method_args h ([] ++ t :: ts)) w)).
    rewrite flag_loop. fold (option_mask tbl).
    destruct (option_mask tbl (t :: ts) 0) as [f|].
    + unfold bind at 1. rewrite run_set_options.
      destruct (context (payload blk)) as [p|]; [|reflexivity].
      destruct (ctxs w !! p) as [[c|]|]; try reflexivity.
      run_pushes. rewrite results_top1. reflexivity.
    + unfold ret. cbn [stack world]. rewrite results_top2. reflexivity.
Qed.

(** ** The flag functions *)

(** Whether a token resolves does not depend on the mask built so far,
    and the new mask is the old one with the token's bits OR'ed in. *)
Lemma set_verify_flag_acc (t : string) (f : Z) :
  set_verify_flag t f
  = (fst (set_verify_flag t 0), Z.lor f (snd (set_verify_flag t 0))).
Proof.
  unfold set_verify_flag.
  repeat match goal with
         | |- context [if ?b then _ else _] => destruct b
         end; cbn [fst snd]; rewrite ?Z.lor_0_l, ?Z.lor_0_r; reflexivity.
Qed.

Lemma set_option_flag_acc (tbl : list ssl_option_t) (t : string) (f : Z) :
  set_option_flag tbl t f
  = (fst (set_option_flag tbl t 0), Z.lor f (snd (set_option_flag tbl t 0))).
Proof.
  induction tbl as [|e tbl IH]; simpl.
  - rewrite Z.lor_0_r. reflexivity.
  - destruct (strcmp t (name e) =? 0); [reflexivity | exact IH].
Qed.

Section TokenMask.

Variable resolve : string -> Z -> Z * Z.
Hypothesis resolve_acc :
  forall t f, resolve t f = (fst (resolve t 0), Z.lor f (snd (resolve t 0))).

Lemma token_mask_refused (ts : list string) (f : Z) :
  Exists (fun t => negb (fst (resolve t 0) =? 0) = false) ts ->
  token_mask resolve ts f = None.
Proof.
  intros H. revert f. induction H as [t ts Ht | t ts _ IH]; intros f; simpl.
  - rewrite resolve_acc. apply negb_false_iff in Ht. rewrite Ht. reflexivity.
  - rewrite resolve_acc. destruct (fst (resolve t 0) =? 0); [reflexivity|].
    apply IH.
Qed.

Lemma token_mask_one (t : string) (f : Z) :
  negb (fst (resolve t 0) =? 0) = true ->
  token_mask resolve [t] f = Some (Z.lor f (snd (resolve t 0))).
Proof.
  intros H. simpl. rewrite resolve_acc. apply negb_true_iff in H.
  rewrite H. reflexivity.
Qed.

Lemma token_mask_app (ts1 ts2 : list string) (f : Z) :
  token_mask resolve (ts1 ++ ts2) f
  = match token_mask resolve ts1 f with
    | Some f' => token_mask resolve ts2 f'
    | None => None
    end.
Proof.
  revert f. induction ts1 as [|t ts1 IH]; intros f; simpl; [reflexivity|].
  destruct (resolve t f) as [ok f']. destruct (ok =? 0); [reflexivity|].
  apply IH.
Qed.

End TokenMask.

(** ** The setters called with no token *)

Lemma set_verify_empty (w : World) (h : nat) :
  is_handle w h ->
  lua_cfunction_call set_verify (method_args h []) w = Returned [LBoolean true] w.
Proof. intros (blk & Hb & Hm). exact (set_verify_run h w blk [] Hb Hm). Qed.

Lemma set_options_empty (tbl : list ssl_option_t) (w : World) (h : nat) :
  is_handle w h ->
  lua_cfunction_call (set_options tbl) (method_args h []) w
  = Returned [LBoolean true] w.
Proof. intros (blk & Hb & Hm). exact (set_options_run tbl h w blk [] Hb Hm). Qed.

(** ** [set_session_cache_mode] *)

Lemma run_lua_type (st : list lua_value) (w : World) (i : nat) (v : lua_value) :
  st !! i = Some v ->
  lua_type (Z.of_nat (S i)) (mkState st w) = Ok (type_of v) (mkState st w).
Proof.
  intros H. unfold lua_type, bind, get_stack, ret. cbn [stack].
  rewrite (value_at_arg _ _ _ H). reflexivity.
Qed.

Lemma run_tostring (st : list lua_value) (w : World) (i : nat) (t : string) :
  st !! i = Some (LString t) ->
  lua_tostring (Z.of_nat (S i)) (mkState st w) = Ok (Some t) (mkState st w).
Proof.
  intros H. pose proof (lookup_lt_Some _ _ _ H) as Hlt.
  unfold lua_tostring, bind, get_stack. cbn [stack].
  rewrite (index2adr_arg _ _ Hlt), H. reflexivity.
Qed.

(** What a call of [set_session_cache_mode] on a handle and string
    tokens does: an argument error at the first token it does not know,
    otherwise the commit of the mask, made whatever the number of
    tokens. *)
Lemma set_session_cache_mode_run (h : nat) (w : World) blk (ts : list string) :
  udata w !! h = Some blk -> metatable blk = Some "SSL:Context" ->
  lua_cfunction_call set_session_cache_mode (method_args h ts) w
  = match cache_scan ts 2 0 with
    | inr i => Raised (ArgError i "unknown session cache mode") w
    | inl m =>
        match commit w (context (payload blk)) (with_session_cache_mode m) with
        | Some w' => Returned [LBoolean true] w'
        | None => Crashed
        end
    end.
Proof.
  intros Hb Hm. unfold lua_cfunction_call, set_session_cache_mode.
  erewrite bind_ok by exact (run_ctx_getcontext h (map LString ts) w blk Hb Hm).
  change (LUserdata h :: map LString ts) with (method_args h ts).
  unfold bind at 1. unfold lua_gettop at 1, bind at 1, get_stack at 1, ret at 1.
  cbn [stack]. rewrite args_top. unfold bind at 1, for_range.
  replace (Z.to_nat (1 + Z.of_nat (length ts) - 2 + 1)) with (length ts) by lia.
  match goal with
  | |- context [for_steps _ _ ?b _ _] => set (body := b)
  end.
  assert (Hloop : forall rest pre m,
    for_steps (length rest) (Z.of_nat (2 + length pre)) body m
              (mkState (method_args h (pre ++ rest)) w)
    = match cache_scan rest (Z.of_nat (2 + length pre)) m with
      | inl m' => Ok (inl m') (mkState (method_args h (pre ++ rest)) w)
      | inr i =>
          Err (ArgError i "unknown session cache mode")
              (mkState (method_args h (pre ++ rest)) w)
      end).
  { induction rest as [|t rest IH]; intros pre m; [reflexivity|].
    cbn [length for_steps cache_scan].
    unfold bind at 1. unfold body at 1.
    erewrite bind_ok
      by exact (run_lua_type _ w (S (length pre)) _
                  (method_args_lookup h pre rest t)).
    cbn [type_of].
    erewrite bind_ok
      by exact (run_tostring _ w (S (length pre)) _
                  (method_args_lookup h pre rest t)).
    cbv beta iota.
    destruct (session_cache_bit t) as [bit|]; [|reflexivity].
    unfold ret at 1.
    replace (Z.of_nat (2 + length pre) + 1)
      with (Z.of_nat (2 + length (pre ++ [t])))
      by (rewrite length_app; simpl; lia).
    replace (pre ++ t :: rest) with ((pre ++ [t]) ++ rest)
      by (rewrite <- app_assoc; reflexivity).
    apply IH. }
  specialize (Hloop ts [] 0). cbn [app length Nat.add] in Hloop.
  change (Z.of_nat 2) with 2 in Hloop. rewrite Hloop.
  destruct (cache_scan ts 2 0) as [m|i]; [|reflexivity].
  unfold bind at 1. rewrite run_set_session_cache_mode.
  unfold commit.
  destruct (context (payload blk)) as [p|]; [|reflexivity].
  destruct (ctxs w !! p) as [[c|]|]; try reflexivity.
  run_pushes. rewrite results_top1. reflexivity.
Qed.

(** ** [set_mode] *)

Lemma set_mode_run (h : nat) (w : World) blk (s : string) :
  udata w !! h = Some blk -> metatable blk = Some "SSL:Context" ->
  lua_cfunction_call set_mode (method_args h [s]) w
  = if strcmp "server" s =? 0
    then Returned [LBoolean true] (set_handle_mode h blk MD_CTX_SERVER w)
    else if strcmp "client" s =? 0
    then Returned [LBoolean true] (set_handle_mode h blk MD_CTX_CLIENT w)
    else Returned [LString "invalid mode"] w.
Proof.
  intros Hb Hm. unfold lua_cfunction_call, set_mode, method_args.
  cbn [map].
  erewrite bind_ok by exact (run_checkctx h _ w blk Hb Hm).
  erewrite bind_ok
    by exact (run_checkstring [LUserdata h; LString s] w 1 s eq_refl).
  destruct (strcmp "server" s =? 0); [|destruct (strcmp "client" s =? 0)].
  - unfold load_ctx, store_ctx, get_world, put_world, with_world.
    run_pushes. rewrite Hb. cbn [stack world]. rewrite Hb. reflexivity.
  - unfold load_ctx, store_ctx, get_world, put_world, with_world.
    run_pushes. rewrite Hb. cbn [stack world]. rewrite Hb. reflexivity.
  - reflexivity.
Qed.

(** ** [meth_destroy] *)

Lemma meth_destroy_live (h p : nat) (w : World) blk (c : SSL_CTX) :
  udata w !! h = Some blk -> metatable blk = Some "SSL:Context" ->
  context (payload blk) = Some p -> ctxs w !! p = Some (Some c) ->
  lua_cfunction_call meth_destroy [LUserdata h] w
  = Returned [] (destroyed h blk p w).
Proof.
  intros Hb Hm Hp Hc. unfold lua_cfunction_call, meth_destroy.
  erewrite bind_ok by exact (run_checkctx h [] w blk Hb Hm).
  unfold bind at 1, load_ctx at 1, bind at 1, get_world at 1.
  cbn [world]. rewrite Hb. unfold ret at 1. rewrite Hp.
  unfold SSL_CTX_free, deref, load_ctx, store_ctx, get_world, put_world,
    with_world, ret, bind.
  cbn [world stack udata]. rewrite Hc. cbn [world stack udata]. rewrite Hb.
  cbn [world stack udata payload mode]. rewrite Hb. reflexivity.
Qed.

Lemma meth_destroy_dead (h : nat) (w : World) blk :
  udata w !! h = Some blk -> metatable blk = Some "SSL:Context" ->
  context (payload blk) = None ->
  lua_cfunction_call meth_destroy [LUserdata h] w = Returned [] w.
Proof.
  intros Hb Hm Hp. unfold lua_cfunction_call, meth_destroy.
  erewrite bind_ok by exact (run_checkctx h [] w blk Hb Hm).
  unfold bind at 1, load_ctx at 1, bind at 1, get_world at 1.
  cbn [world]. rewrite Hb. unfold ret at 1. rewrite Hp. reflexivity.
Qed.

(** ** [load_key] *)

Lemma load_key_prologue (h : nat) (w : World) blk (path : string)
    (rest : list lua_value) (k : option nat -> string -> lua_tag -> M Z) :
  udata w !! h = Some blk -> metatable blk = Some "SSL:Context" ->
  (ctx <- ctx_getcontext 1 ;;
   filename <- luaL_checkstring 2 ;;
   t <- lua_type 3 ;;
   k ctx filename t) (mkState (LUserdata h :: LString path :: rest) w)
  = k (context (payload blk)) path
      (match rest with v :: _ => type_of v | [] => LUA_TNONE end)
      (mkState (LUserdata h :: LString path :: rest) w).
Proof.
  intros Hb Hm.
  erewrite bind_ok by exact (run_ctx_getcontext h _ w blk Hb Hm).
  erewrite bind_ok
    by exact (run_checkstring (LUserdata h :: LString path :: rest) w 1 path
                eq_refl).
  destruct rest as [|v rest].
  - reflexivity.
  - erewrite bind_ok
      by exact (run_lua_type (LUserdata h :: LString path :: v :: rest) w 2 v
                  eq_refl).
    reflexivity.
Qed.

(** The third argument left out: [lua_type] answers LUA_TNONE, which is
    none of the three cases of the switch. *)
Lemma load_key_absent (h : nat) (w : World) (path : string) :
  is_handle w h ->
  lua_cfunction_call load_key [LUserdata h; LString path] w
  = Raised (ErrValue (LString "invalid callback value")) w.
Proof.
  intros (blk & Hb & Hm). unfold lua_cfunction_call, load_key.
  rewrite (load_key_prologue h w blk path []
             (fun ctx filename t =>
                match t with
                | LUA_TSTRING | LUA_TFUNCTION =>
                    SSL_CTX_set_default_passwd_cb ctx true ;;;
                    SSL_CTX_set_default_passwd_cb_userdata ctx true ;;;
                    load_key_file ctx filename
                | LUA_TNIL => load_key_file ctx filename
                | _ => lua_pushstring "invalid callback value" ;;; lua_error
                end) Hb Hm).
  reflexivity.
Qed.

(** A third argument that is present and neither nil, a string nor a
    function. *)
Lemma load_key_other (h : nat) (w : World) (path : string) (v : lua_value) :
  is_handle w h ->
  type_of v <> LUA_TNIL -> type_of v <> LUA_TSTRING ->
  type_of v <> LUA_TFUNCTION ->
  lua_cfunction_call load_key [LUserdata h; LString path; v] w
  = Raised (ErrValue (LString "invalid callback value")) w.
Proof.
  intros (blk & Hb & Hm) Hn Hs Hf. unfold lua_cfunction_call, load_key.
  rewrite (load_key_prologue h w blk path [v]
             (fun ctx filename t =>
                match t with
                | LUA_TSTRING | LUA_TFUNCTION =>
                    SSL_CTX_set_default_passwd_cb ctx true ;;;
                    SSL_CTX_set_default_passwd_cb_userdata ctx true ;;;
                    load_key_file ctx filename
                | LUA_TNIL => load_key_file ctx filename
                | _ => lua_pushstring "invalid callback value" ;;; lua_error
                end) Hb Hm).
  destruct v; cbn [type_of] in *; try congruence; reflexivity.
Qed.

(** nil as the third argument and a key file that is not encrypted. *)
Lemma load_key_nil_plain (h p : nat) (w : World) (c : SSL_CTX) (path : string) :
  live_handle w h p c ->
  find_key (keyfiles w) path = Some PlainKey ->
  lua_cfunction_call load_key [LUserdata h; LString path; LNil] w
  = Returned [LBoolean true]
      (with_ctxs (<[p := Some (with_passwd_cb_userdata false
                                 (with_passwd_cb false c))]> (ctxs w)) w).
Proof.
  intros (blk & Hb & Hm & Hp & Hc) Hk. unfold lua_cfunction_call, load_key.
  rewrite (load_key_prologue h w blk path [LNil]
             (fun ctx filename t =>
                match t with
                | LUA_TSTRING | LUA_TFUNCTION =>
                    SSL_CTX_set_default_passwd_cb ctx true ;;;
                    SSL_CTX_set_default_passwd_cb_userdata ctx true ;;;
                    load_key_file ctx filename
                | LUA_TNIL => load_key_file ctx filename
                | _ => lua_pushstring "invalid callback value" ;;; lua_error
                end) Hb Hm).
  cbn [type_of]. rewrite Hp.
  unfold load_key_file, SSL_CTX_use_PrivateKey_file.
  unfold bind at 1. unfold bind at 1. unfold deref at 1, bind at 1, get_world at 1.
  cbn [world]. rewrite Hc. unfold ret at 1, bind at 1, get_world at 1.
  cbn [world]. rewrite Hk. unfold ret at 1.
  change (1 =? 1) with true. cbv iota.
  unfold bind at 1. unfold bind at 1.
  unfold lua_pushboolean at 1, push at 1, bind at 1, get_stack at 1,
    put_stack at 1, with_stack at 1, ret at 1.
  cbn [stack world].
  unfold SSL_CTX_set_default_passwd_cb, SSL_CTX_set_default_passwd_cb_userdata.
  unfold bind at 1. rewrite run_update. unfold commit. rewrite Hc.
  unfold bind at 1. rewrite run_update. unfold commit. cbn [ctxs with_ctxs].
  rewrite list_lookup_insert_eq by (eapply lookup_lt_Some; exact Hc).
  rewrite list_insert_insert_eq. unfold ret.
  cbn [stack world].
  reflexivity.
Qed.

(** ** [create] *)

(** [str2method] knows a string by its C string only. *)
Lemma str2method_Some (s : string) (m : SSL_METHOD) :
  str2method s = Some m <->
  (c_str s = "sslv3" /\ m = SSLv3_method) \/
  (c_str s = "tlsv1" /\ m = TLSv1_method) \/
  (c_str s = "sslv23" /\ m = SSLv23_method).
Proof.
  unfold str2method. rewrite !strcmp_eqb. cbn [c_str Ascii.eqb Bool.eqb zero].
  destruct (String.eqb_spec (c_str s) "sslv3") as [E1|E1];
    [|destruct (String.eqb_spec (c_str s) "tlsv1") as [E2|E2];
      [|destruct (String.eqb_spec (c_str s) "sslv23") as [E3|E3]]].
  - rewrite E1. split.
    + intros [= <-]. left. split; reflexivity.
    + intros [[_ ->]|[[? _]|[? _]]]; [reflexivity|discriminate|discriminate].
  - rewrite E2. split.
    + intros [= <-]. right. left. split; reflexivity.
    + intros [[? _]|[[_ ->]|[? _]]]; [discriminate|reflexivity|discriminate].
  - rewrite E3. split.
    + intros [= <-]. right. right. split; reflexivity.
    + intros [[? _]|[[? _]|[_ ->]]]; [discriminate|discriminate|reflexivity].
  - split; [discriminate|]. intros [[? _]|[[? _]|[? _]]]; congruence.
Qed.

Lemma str2method_None (s : string) :
  str2method s = None <->
  c_str s <> "sslv3" /\ c_str s <> "tlsv1" /\ c_str s <> "sslv23".
Proof.
  split.
  - intros H. repeat split; intros E.
    + assert (str2method s = Some SSLv3_method) by (apply str2method_Some; tauto).
      congruence.
    + assert (str2method s = Some TLSv1_method) by (apply str2method_Some; tauto).
      congruence.
    + assert (str2method s = Some SSLv23_method) by (apply str2method_Some; tauto).
      congruence.
  - intros (H1 & H2 & H3). destruct (str2method s) as [m|] eqn:E; [|reflexivity].
    apply str2method_Some in E. tauto.
Qed.

Lemma create_invalid (w : World) (s : string) :
  str2method s = None ->
  lua_cfunction_call create [LString s] w
  = Returned [LNil; LString "invalid protocol"] w.
Proof.
  intros H. unfold lua_cfunction_call, create.
  erewrite bind_ok by exact (run_checkstring [LString s] w 0 s eq_refl).
  rewrite H. reflexivity.
Qed.

Lemma insert_last {A : Type} (l : list A) (x y : A) :
  <[length l := y]> (l ++ [x]) = l ++ [y].
Proof.
  rewrite insert_app_r_alt by lia. rewrite Nat.sub_diag. reflexivity.
Qed.

Lemma lookup_last {A : Type} (l : list A) (x : A) :
  (l ++ [x]) !! length l = Some x.
Proof. rewrite lookup_app_r by lia. rewrite Nat.sub_diag. reflexivity. Qed.

Lemma value_at_m2 (a b c : lua_value) : value_at (-2) [a; b; c] = Some b.
Proof. reflexivity. Qed.

Lemma create_valid (w : World) (s : string) (m : SSL_METHOD) (k : nat) :
  str2method s = Some m -> avail w = S k ->
  lua_cfunction_call create [LString s] w
  = Returned [LUserdata (length (udata w))] (created m k w).
Proof.
  intros H Ha. unfold lua_cfunction_call, create.
  erewrite bind_ok by exact (run_checkstring [LString s] w 0 s eq_refl).
  rewrite H.
  unfold lua_newuserdata, SSL_CTX_new, load_ctx, store_ctx, luaL_getmetatable,
    lua_setmetatable, push, get_world, put_world, get_stack, put_stack,
    with_world, with_stack, with_udata, ret, bind.
  cbn [world stack udata ctxs avail free_log keyfiles err_queue].
  rewrite Ha.
  repeat (progress (cbn [world stack udata ctxs avail free_log keyfiles
                         err_queue payload mode context metatable app last
                         removelast];
                    rewrite ?lookup_last, ?insert_last, ?value_at_m2)).
  reflexivity.
Qed.

Lemma create_exhausted (w : World) (s : string) (m : SSL_METHOD) :
  str2method s = Some m -> avail w = O ->
  exists w',
    lua_cfunction_call create [LString s] w
    = Returned [LNil; LString "error creating context"] w'.
Proof.
  intros H Ha. unfold lua_cfunction_call, create.
  erewrite bind_ok by exact (run_checkstring [LString s] w 0 s eq_refl).
  rewrite H.
  unfold lua_newuserdata, SSL_CTX_new, ERR_put_error, load_ctx, store_ctx,
    lua_pushnil, lua_pushstring, push, get_world, put_world, get_stack,
    put_stack, with_world, with_stack, with_udata, with_err_queue, ret, bind.
  cbn [world stack udata ctxs avail free_log keyfiles err_queue].
  rewrite Ha.
  repeat (progress (cbn [world stack udata ctxs avail free_log keyfiles
                         err_queue payload mode context metatable app];
                    rewrite ?lookup_last, ?insert_last)).
  eexists. reflexivity.
Qed.

(** ** [passwd_cb] *)

Lemma length_list_ascii (s : string) :
  length (list_ascii_of_string s) = String.length s.
Proof. induction s as [|c s IH]; simpl; congruence. Qed.

Lemma c_str_no_nul (s : string) (i : nat) (c : ascii) :
  list_ascii_of_string (c_str s) !! i = Some c -> c <> zero.
Proof.
  revert i. induction s as [|x s IH]; intros i; simpl.
  - discriminate.
  - destruct (Ascii.eqb_spec x zero) as [->|Hx]; simpl.
    + discriminate.
    + destruct i as [|i]; simpl.
      * intros [= <-]. exact Hx.
      * apply IH.
Qed.

(** [strlen] finds the first NUL byte. *)
Lemma strlen_first_nul (n : nat) (buf : list ascii) :
  (forall i c, (i < n)%nat -> buf !! i = Some c -> c <> zero) ->
  buf !! n = Some zero ->
  strlen buf = Some n.
Proof.
  revert buf. induction n as [|n IH]; intros [|c buf] Hpre Hn;
    try discriminate; simpl in *.
  - injection Hn as ->. reflexivity.
  - destruct (Ascii.eqb_spec c zero) as [->|Hc].
    + exfalso. apply (Hpre O zero); [lia | reflexivity | reflexivity].
    + rewrite (IH buf); [reflexivity | | exact Hn].
      intros i c' Hi. apply (Hpre (S i)). lia.
Qed.

(** The buffer after [strncpy(buf, s, size); buf[size-1] = 0]: it has
    its former length, starts with the first min(strlen(s), size-1)
    bytes of [s] and has a NUL right after them. *)
Lemma passwd_buffer (buf : list ascii) (s : string) (sz : nat) :
  (0 < sz)%nat -> (sz <= length buf)%nat ->
  let n := Nat.min (String.length (c_str s)) (sz - 1) in
  let buf' := <[(sz - 1)%nat := zero]> (strncpy buf s sz) in
  length buf' = length buf /\
  take n buf' = take n (list_ascii_of_string (c_str s)) /\
  buf' !! n = Some zero /\
  strlen buf' = Some n.
Proof.
  intros Hsz Hlen n buf'. unfold strncpy in buf'.
  set (L := list_ascii_of_string (c_str s)) in *.
  assert (HL : length L = String.length (c_str s))
    by apply length_list_ascii.
  assert (Hn : n = Nat.min (length L) (sz - 1)) by (rewrite HL; reflexivity).
  clearbody n. subst n.
  assert (Htk : length (take sz (L ++ replicate sz zero)) = sz).
  { rewrite length_take, length_app, length_replicate. lia. }
  assert (Hb1 : length (take sz (L ++ replicate sz zero) ++ drop sz buf)
                = length buf).
  { rewrite length_app, Htk, length_drop. lia. }
  assert (Hlk : forall i, (i < sz)%nat ->
            (take sz (L ++ replicate sz zero) ++ drop sz buf) !! i
            = (L ++ replicate sz zero) !! i).
  { intros i Hi. rewrite lookup_app_l by lia. apply lookup_take_lt, Hi. }
  assert (Hnul : buf' !! Nat.min (length L) (sz - 1) = Some zero).
  { subst buf'.
    destruct (Nat.le_gt_cases (sz - 1) (length L)) as [Hge|Hlt].
    - rewrite Nat.min_r by exact Hge.
      apply list_lookup_insert_eq. lia.
    - rewrite Nat.min_l by lia.
      rewrite list_lookup_insert_ne by lia.
      rewrite Hlk by lia. rewrite lookup_app_r by lia.
      apply lookup_replicate_2. lia. }
  assert (Hpre : take (Nat.min (length L) (sz - 1)) buf'
                 = take (Nat.min (length L) (sz - 1)) L).
  { subst buf'. rewrite take_insert_ge by lia.
    rewrite take_app_le by lia. rewrite take_take.
    rewrite Nat.min_l by lia. apply take_app_le. lia. }
  repeat split.
  - subst buf'. rewrite length_insert. exact Hb1.
  - exact Hpre.
  - exact Hnul.
  - apply strlen_first_nul; [|exact Hnul].
    intros i c Hi Hc. apply (c_str_no_nul s i c). fold L.
    rewrite <- (lookup_take_lt L (Nat.min (length L) (sz - 1)) i) by exact Hi.
    rewrite <- Hpre. rewrite lookup_take_lt by exact Hi. exact Hc.
Qed.

Lemma run_tostring_top3 (a b : lua_value) (t : string) (w : World) :
  lua_tostring (-1) (mkState [a; b; LString t] w)
  = Ok (Some t) (mkState [a; b; LString t] w).
Proof. reflexivity. Qed.

(** [passwd_cb] when the third argument, on top of the stack, is the
    password string. *)
Lemma passwd_cb_string (h : nat) (path pw : string) (w : World)
    (buf : list ascii) (size flag : Z) :
  0 < size -> size <= Z.of_nat (length buf) ->
  let s := mkState [LUserdata h; LString path; LString pw] w in
  let n := Nat.min (String.length (c_str pw)) (Z.to_nat size - 1) in
  passwd_cb buf size flag s
  = Ok (Z.of_nat n,
        <[(Z.to_nat size - 1)%nat := zero]> (strncpy buf pw (Z.to_nat size))) s.
Proof.
  intros Hs Hl s n. unfold passwd_cb.
  erewrite bind_ok
    by exact (run_lua_type [LUserdata h; LString path; LString pw] w 2 _ eq_refl).
  cbn [type_of]. unfold passwd_copy.
  erewrite bind_ok by exact (run_tostring_top3 (LUserdata h) (LString path) pw w).
  replace (size <=? 0) with false by (symmetry; apply Z.leb_gt; lia).
  replace (Z.of_nat (length buf) <? size) with false
    by (symmetry; apply Z.ltb_ge; lia).
  cbn [orb].
  replace (Z.to_nat (size - 1)) with (Z.to_nat size - 1)%nat by lia.
  destruct (passwd_buffer buf pw (Z.to_nat size)) as (_ & _ & _ & Hlen);
    [lia | lia |].
  rewrite Hlen. reflexivity.
Qed.

(** * The statements of the specification *)

(** ** Flag aggregation: [set_verify] and [set_options] *)

Lemma set_verify_refused (w : World) (h : nat) (ts : list string) :
  is_handle w h ->
  Exists (fun t => verify_token_ok t = false) ts ->
  lua_cfunction_call set_verify (method_args h ts) w
  = Returned [LBoolean false; LString "invalid verify option"] w.
Proof.
  intros (blk & Hb & Hm) Hbad.
  rewrite (set_verify_run h w blk ts Hb Hm).
  destruct ts as [|t ts]; [inversion Hbad|].
  unfold verify_mask.
  rewrite (token_mask_refused set_verify_flag set_verify_flag_acc _ 0 Hbad).
  reflexivity.
Qed.

Lemma set_options_refused (tbl : list ssl_option_t) (w : World) (h : nat)
    (ts : list string) :
  is_handle w h ->
  Exists (fun t => option_token_ok tbl t = false) ts ->
  lua_cfunction_call (set_options tbl) (method_args h ts) w
  = Returned [LBoolean false; LString "invalid option"] w.
Proof.
  intros (blk & Hb & Hm) Hbad.
  rewrite (set_options_run tbl h w blk ts Hb Hm).
  destruct ts as [|t ts]; [inversion Hbad|].
  unfold option_mask.
  rewrite (token_mask_refused (set_option_flag tbl)
             (set_option_flag_acc tbl) _ 0 Hbad).
  reflexivity.
Qed.

(** C1, as the code has it.  When some token of the call is one the
    flag function refuses, [set_verify] returns false and the fixed
    message "invalid verify option", [set_options] returns false and
    "invalid option", and the world (the handle and the engine context
    behind it) is exactly what it was before the call: nothing of the
    valid prefix is committed.  The message does not carry the token. *)
Theorem flag_setters_abort_unchanged (tbl : list ssl_option_t) (w : World)
    (h : nat) (ts : list string) :
  is_handle w h ->
  (Exists (fun t => verify_token_ok t = false) ts ->
   lua_cfunction_call set_verify (method_args h ts) w
   = Returned [LBoolean false; LString "invalid verify option"] w) /\
  (Exists (fun t => option_token_ok tbl t = false) ts ->
   lua_cfunction_call (set_options tbl) (method_args h ts) w
   = Returned [LBoolean false; LString "invalid option"] w).
Proof.
  intros Hh. split.
  - apply set_verify_refused, Hh.
  - apply set_options_refused, Hh.
Qed.

Lemma sample_is_handle : is_handle sample_world 0.
Proof. eexists. split; reflexivity. Defined.

Lemma sample_live_handle : live_handle sample_world 0 0 sample_ctx.
Proof. eexists. repeat split; reflexivity. Defined.

Lemma flag_setters_abort_unchanged_witness :
  lua_cfunction_call set_verify (method_args 0 ["peer"; "bogus"]) sample_world
  = Returned [LBoolean false; LString "invalid verify option"] sample_world /\
  lua_cfunction_call (set_options sample_options)
                     (method_args 0 ["all"; "bogus"]) sample_world
  = Returned [LBoolean false; LString "invalid option"] sample_world.
Proof.
  split.
  - apply (proj1 (flag_setters_abort_unchanged sample_options sample_world 0
                    ["peer"; "bogus"] sample_is_handle)).
    apply Exists_cons_tl, Exists_cons_hd. reflexivity.
  - apply (proj2 (flag_setters_abort_unchanged sample_options sample_world 0
                    ["all"; "bogus"] sample_is_handle)).
    apply Exists_cons_tl, Exists_cons_hd. reflexivity.
Defined.

(** C1 as stated fails: [set_verify] on "peer", "bogus" returns false
    and "invalid verify option"; no returned value spells out "bogus",
    and the call on "peer", "wrong" returns exactly the same. *)
Lemma set_verify_error_names_no_token :
  lua_cfunction_call set_verify (method_args 0 ["peer"; "bogus"]) sample_world
  = Returned [LBoolean false; LString "invalid verify option"] sample_world /\
  names_token "bogus" [LBoolean false; LString "invalid verify option"] = false /\
  lua_cfunction_call set_verify (method_args 0 ["peer"; "wrong"]) sample_world
  = lua_cfunction_call set_verify (method_args 0 ["peer"; "bogus"]) sample_world.
Proof. repeat split; vm_compute; reflexivity. Qed.

(** C2 fails on the code.  [set_session_cache_mode] called on a live
    handle with no token at all returns true and commits the mask 0
    (SSL_SESS_CACHE_OFF) to the engine, whatever the cache mode was;
    [set_verify] and [set_options] called with no token commit nothing
    ([set_verify_empty], [set_options_empty]). *)
Theorem set_session_cache_mode_empty_commits_zero (w : World) (h p : nat)
    (c : SSL_CTX) :
  live_handle w h p c ->
  lua_cfunction_call set_session_cache_mode (method_args h []) w
  = Returned [LBoolean true]
      (with_ctxs (<[p := Some (with_session_cache_mode 0 c)]> (ctxs w)) w).
Proof.
  intros (blk & Hb & Hm & Hp & Hc).
  rewrite (set_session_cache_mode_run h w blk [] Hb Hm).
  cbn [cache_scan]. unfold commit. rewrite Hp, Hc. reflexivity.
Qed.

Lemma set_session_cache_mode_empty_commits_zero_witness :
  session_cache_mode sample_ctx = SSL_SESS_CACHE_SERVER /\
  lua_cfunction_call set_session_cache_mode (method_args 0 []) sample_world
  = Returned [LBoolean true]
      (with_ctxs [Some (with_session_cache_mode SSL_SESS_CACHE_OFF sample_ctx)]
                 sample_world).
Proof.
  split; [reflexivity|].
  exact (set_session_cache_mode_empty_commits_zero sample_world 0 0 sample_ctx
           sample_live_handle).
Defined.

(** C8.  For a live handle and two tokens of the option table, the
    call on the first token followed by the call on the second, and the
    single call on both, succeed and leave the same world; the option
    mask of the engine context is then its former mask with the bits of
    both tokens OR'ed in. *)
Theorem set_options_cumulative (tbl : list ssl_option_t) (w : World)
    (h p : nat) (c : SSL_CTX) (a b : string) :
  live_handle w h p c ->
  option_token_ok tbl a = true ->
  option_token_ok tbl b = true ->
  exists w1 w2,
    lua_cfunction_call (set_options tbl) (method_args h [a]) w
    = Returned [LBoolean true] w1 /\
    lua_cfunction_call (set_options tbl) (method_args h [b]) w1
    = Returned [LBoolean true] w2 /\
    lua_cfunction_call (set_options tbl) (method_args h [a; b]) w
    = Returned [LBoolean true] w2 /\
    option_map options (engine_ctx w2 h)
    = Some (Z.lor (Z.lor (options c) (snd (set_option_flag tbl a 0)))
                  (snd (set_option_flag tbl b 0))).
Proof.
  intros (blk & Hb & Hm & Hp & Hc) Ha Hbk.
  pose proof (lookup_lt_Some _ _ _ Hc) as Hlt.
  set (ca := snd (set_option_flag tbl a 0)).
  set (cb := snd (set_option_flag tbl b 0)).
  set (c1 := with_options (Z.lor (options c) ca) c).
  set (w1 := with_ctxs (<[p := Some c1]> (ctxs w)) w).
  set (c2 := with_options (Z.lor (Z.lor (options c) ca) cb) c).
  set (w2 := with_ctxs (<[p := Some c2]> (ctxs w)) w).
  assert (Hma : option_mask tbl [a] 0 = Some ca).
  { unfold option_mask.
    rewrite (token_mask_one _ (set_option_flag_acc tbl) a 0 Ha).
    rewrite Z.lor_0_l. reflexivity. }
  assert (Hmb : option_mask tbl [b] 0 = Some cb).
  { unfold option_mask.
    rewrite (token_mask_one _ (set_option_flag_acc tbl) b 0 Hbk).
    rewrite Z.lor_0_l. reflexivity. }
  assert (Hmab : option_mask tbl [a; b] 0 = Some (Z.lor ca cb)).
  { unfold option_mask.
    change [a; b] with ([a] ++ [b]).
    rewrite token_mask_app. fold (option_mask tbl [a] 0). rewrite Hma.
    apply (token_mask_one _ (set_option_flag_acc tbl) b ca Hbk). }
  exists w1, w2. repeat split.
  - rewrite (set_options_run tbl h w blk [a] Hb Hm), Hma, Hp, Hc. reflexivity.
  - assert (Hc1 : ctxs w1 !! p = Some (Some c1))
      by (apply list_lookup_insert_eq; exact Hlt).
    rewrite (set_options_run tbl h w1 blk [b] Hb Hm), Hmb, Hp, Hc1.
    unfold w1, w2, with_ctxs. cbn [ctxs udata avail free_log keyfiles err_queue].
    rewrite list_insert_insert_eq. reflexivity.
  - rewrite (set_options_run tbl h w blk [a; b] Hb Hm), Hmab, Hp, Hc.
    unfold w2, c2. rewrite Z.lor_assoc. reflexivity.
  - unfold engine_ctx, w2. cbn [udata ctxs with_ctxs]. rewrite Hb, Hp.
    rewrite list_lookup_insert_eq by exact Hlt. reflexivity.
Qed.

Lemma set_options_cumulative_witness :
  exists w1 w2,
    lua_cfunction_call (set_options sample_options)
                       (method_args 0 ["no_sslv2"]) sample_world
    = Returned [LBoolean true] w1 /\
    lua_cfunction_call (set_options sample_options)
                       (method_args 0 ["single_dh_use"]) w1
    = Returned [LBoolean true] w2 /\
    lua_cfunction_call (set_options sample_options)
                       (method_args 0 ["no_sslv2"; "single_dh_use"]) sample_world
    = Returned [LBoolean true] w2 /\
    option_map options (engine_ctx w2 0) = Some 0x01100000.
Proof.
  exact (set_options_cumulative sample_options sample_world 0 0 sample_ctx
           "no_sslv2" "single_dh_use" sample_live_handle eq_refl eq_refl).
Defined.

(** C10, as the code has it.  For a handle and a token sequence that
    is not empty, putting "none" anywhere into the sequence changes
    neither the mask the loop builds nor anything the call returns or
    commits.  (On the empty sequence the call commits nothing, while on
    "none" alone it commits the mask 0.) *)
Theorem verify_none_is_neutral (w : World) (h : nat) (ts1 ts2 : list string) :
  is_handle w h ->
  ts1 ++ ts2 <> [] ->
  verify_mask (ts1 ++ "none" :: ts2) 0 = verify_mask (ts1 ++ ts2) 0 /\
  lua_cfunction_call set_verify (method_args h (ts1 ++ "none" :: ts2)) w
  = lua_cfunction_call set_verify (method_args h (ts1 ++ ts2)) w.
Proof.
  intros (blk & Hb & Hm) Hne.
  assert (Hmask : verify_mask (ts1 ++ "none" :: ts2) 0
                  = verify_mask (ts1 ++ ts2) 0).
  { unfold verify_mask. rewrite !token_mask_app.
    destruct (token_mask set_verify_flag ts1 0) as [f|]; [|reflexivity].
    cbn [token_mask]. unfold set_verify_flag at 1.
    replace (strcmp "none" "none" =? 0) with true by reflexivity.
    cbv iota. change (1 =? 0) with false. cbv iota.
    unfold SSL_VERIFY_NONE. rewrite Z.lor_0_r. reflexivity. }
  split; [exact Hmask|].
  rewrite (set_verify_run h w blk (ts1 ++ "none" :: ts2) Hb Hm).
  rewrite (set_verify_run h w blk (ts1 ++ ts2) Hb Hm).
  rewrite Hmask.
  destruct (ts1 ++ ts2) as [|t r] eqn:E; [congruence|].
  destruct (ts1 ++ "none" :: ts2) as [|t' r'] eqn:E'.
  - destruct ts1; discriminate.
  - reflexivity.
Qed.

Lemma verify_none_is_neutral_witness :
  verify_mask (["peer"] ++ "none" :: ["client_once"]) 0
  = verify_mask (["peer"] ++ ["client_once"]) 0 /\
  lua_cfunction_call set_verify
    (method_args 0 (["peer"] ++ "none" :: ["client_once"])) sample_world
  = lua_cfunction_call set_verify
      (method_args 0 (["peer"] ++ ["client_once"])) sample_world.
Proof.
  apply (verify_none_is_neutral sample_world 0 ["peer"] ["client_once"]
           sample_is_handle).
  discriminate.
Defined.

(** C10 as stated fails on the empty sequence, which [set_verify]
    accepts: on a context that verifies the peer, the call with no
    token leaves the verify mode at SSL_VERIFY_PEER, the call with
    "none" put in sets it to 0. *)
Lemma verify_none_alone_resets :
  lua_cfunction_call set_verify (method_args 0 ([] ++ [])) sample_world
  = Returned [LBoolean true] sample_world /\
  option_map verify_mode (engine_ctx sample_world 0) = Some SSL_VERIFY_PEER /\
  lua_cfunction_call set_verify (method_args 0 ([] ++ "none" :: [])) sample_world
  = Returned [LBoolean true]
      (with_ctxs [Some (with_verify SSL_VERIFY_NONE None sample_ctx)]
                 sample_world) /\
  lua_cfunction_call set_verify (method_args 0 ([] ++ "none" :: [])) sample_world
  <> lua_cfunction_call set_verify (method_args 0 ([] ++ [])) sample_world.
Proof.
  repeat split; try (vm_compute; reflexivity).
  vm_compute. discriminate.
Qed.

(** ** [set_mode] *)

(** C6 fails on the code.  For a handle and a string that is neither
    "server" nor "client" to [strcmp], [set_mode] leaves the world as it
    was, but what the caller receives is the single value "invalid
    mode": the function pushes false and the message and then returns
    1, so the false below the message is not among the results. *)
Theorem set_mode_invalid_returns_message_only (w : World) (h : nat)
    (s : string) :
  is_handle w h ->
  strcmp "server" s <> 0 ->
  strcmp "client" s <> 0 ->
  lua_cfunction_call set_mode (method_args h [s]) w
  = Returned [LString "invalid mode"] w.
Proof.
  intros (blk & Hb & Hm) Hs Hc.
  rewrite (set_mode_run h w blk s Hb Hm).
  apply Z.eqb_neq in Hs, Hc. rewrite Hs, Hc. reflexivity.
Qed.

Lemma set_mode_invalid_returns_message_only_witness :
  lua_cfunction_call set_mode (method_args 0 ["bogus"]) sample_world
  = Returned [LString "invalid mode"] sample_world.
Proof.
  apply (set_mode_invalid_returns_message_only sample_world 0 "bogus"
           sample_is_handle); vm_compute; discriminate.
Defined.

(** ** [meth_destroy] *)

(** C7.  On a handle whose engine context is live at [p], the first
    call of [meth_destroy] returns (no value), frees the context (the
    one call of SSL_CTX_free logged, on [p]) and leaves the handle's
    pointer NULL; from there on any number of further calls returns
    (no value) and changes nothing: no second free. *)
Theorem destroy_frees_once (w : World) (h p : nat) (c : SSL_CTX) :
  live_handle w h p c ->
  exists w1 blk1,
    lua_cfunction_call meth_destroy [LUserdata h] w = Returned [] w1 /\
    udata w1 !! h = Some blk1 /\ context (payload blk1) = None /\
    ctxs w1 !! p = Some None /\
    free_log w1 = p :: free_log w /\
    forall n, destroy_times n h w1 = Returned [] w1.
Proof.
  intros (blk & Hb & Hm & Hp & Hc).
  pose proof (lookup_lt_Some _ _ _ Hb) as Hlh.
  pose proof (lookup_lt_Some _ _ _ Hc) as Hlp.
  exists (destroyed h blk p w),
         (mk_userdata (metatable blk) (mk_context None (mode (payload blk)))).
  assert (Hb1 : udata (destroyed h blk p w) !! h
                = Some (mk_userdata (metatable blk)
                          (mk_context None (mode (payload blk)))))
    by (apply list_lookup_insert_eq; exact Hlh).
  repeat split.
  - exact (meth_destroy_live h p w blk c Hb Hm Hp Hc).
  - exact Hb1.
  - apply list_lookup_insert_eq. exact Hlp.
  - induction n as [|n IH]; [reflexivity|].
    cbn [destroy_times].
    rewrite (meth_destroy_dead h (destroyed h blk p w) _ Hb1 Hm eq_refl).
    exact IH.
Qed.

Lemma destroy_frees_once_witness :
  exists w1 blk1,
    lua_cfunction_call meth_destroy [LUserdata 0] sample_world = Returned [] w1 /\
    udata w1 !! 0%nat = Some blk1 /\ context (payload blk1) = None /\
    ctxs w1 !! 0%nat = Some None /\
    free_log w1 = [0%nat] /\
    forall n, destroy_times n 0 w1 = Returned [] w1.
Proof.
  exact (destroy_frees_once sample_world 0 0 sample_ctx sample_live_handle).
Defined.

(** ** [load_key] and [passwd_cb] *)

(** C3 fails on the code.  With nil as the third argument [load_key]
    goes on to the engine and, for a live handle and a key file that is
    not encrypted, returns true.  With the third argument left out it
    does not get there: for every handle and path it raises "invalid
    callback value", the world unchanged. *)
Theorem load_key_without_password (w : World) (h : nat) (path : string) :
  is_handle w h ->
  lua_cfunction_call load_key [LUserdata h; LString path] w
  = Raised (ErrValue (LString "invalid callback value")) w /\
  forall p c,
    live_handle w h p c ->
    find_key (keyfiles w) path = Some PlainKey ->
    exists w',
      lua_cfunction_call load_key [LUserdata h; LString path; LNil] w
      = Returned [LBoolean true] w'.
Proof.
  intros Hh. split.
  - exact (load_key_absent h w path Hh).
  - intros p c Hl Hk. eexists. exact (load_key_nil_plain h p w c path Hl Hk).
Qed.

Lemma load_key_without_password_witness :
  lua_cfunction_call load_key [LUserdata 0; LString "plain.pem"] sample_world
  = Raised (ErrValue (LString "invalid callback value")) sample_world /\
  exists w',
    lua_cfunction_call load_key [LUserdata 0; LString "plain.pem"; LNil]
                       sample_world
    = Returned [LBoolean true] w'.
Proof.
  destruct (load_key_without_password sample_world 0 "plain.pem"
              sample_is_handle) as [Habs Hnil].
  split; [exact Habs|].
  exact (Hnil 0%nat sample_ctx sample_live_handle eq_refl).
Defined.

(** C9, as the code has it.  With the password string as third
    argument and a buffer of at least [size] > 0 bytes, [passwd_cb]
    copies the bytes of the password up to its first NUL byte, cut to
    [size - 1] of them, writes a NUL after them, and returns their
    number: min(L, size - 1), where L is the length of the password up
    to its first NUL byte.  The Lua state is unchanged. *)
Theorem passwd_cb_static_copies (w : World) (h : nat) (path pw : string)
    (buf : list ascii) (size flag : Z) :
  0 < size ->
  size <= Z.of_nat (length buf) ->
  let s := mkState [LUserdata h; LString path; LString pw] w in
  let n := Z.min (Z.of_nat (String.length (c_str pw))) (size - 1) in
  exists buf',
    passwd_cb buf size flag s = Ok (n, buf') s /\
    length buf' = length buf /\
    take (Z.to_nat n) buf'
    = take (Z.to_nat n) (list_ascii_of_string (c_str pw)) /\
    buf' !! Z.to_nat n = Some zero.
Proof.
  intros Hs Hl s n.
  destruct (passwd_buffer buf pw (Z.to_nat size)) as (H1 & H2 & H3 & _);
    [lia | lia |].
  assert (Hn : n = Z.of_nat (Nat.min (String.length (c_str pw))
                                     (Z.to_nat size - 1)))
    by (unfold n; lia).
  exists (<[(Z.to_nat size - 1)%nat := zero]> (strncpy buf pw (Z.to_nat size))).
  rewrite Hn, Nat2Z.id. repeat split.
  - exact (passwd_cb_string h path pw w buf size flag Hs Hl).
  - exact H1.
  - exact H2.
  - exact H3.
Qed.

Lemma passwd_cb_static_copies_witness :
  exists buf',
    passwd_cb (replicate 8 "x"%char) 8 0
              (mkState [LUserdata 0; LString "locked.pem"; LString "secret"]
                       sample_world)
    = Ok (6, buf')
         (mkState [LUserdata 0; LString "locked.pem"; LString "secret"]
                  sample_world) /\
    length buf' = 8%nat /\
    take 6 buf' = list_ascii_of_string "secret" /\
    buf' !! 6%nat = Some zero.
Proof.
  apply (passwd_cb_static_copies sample_world 0 "locked.pem" "secret"
           (replicate 8 "x"%char) 8 0); [reflexivity | discriminate].
Defined.

(** C9 as stated fails when the password does not fit: "abcd" into a
    buffer of capacity 4 gives "abc" and 3, not min(4, 4) = 4. *)
Lemma passwd_cb_keeps_room_for_nul :
  passwd_cb (replicate 4 "x"%char) 4 0
            (mkState [LUserdata 0; LString "locked.pem"; LString "abcd"]
                     sample_world)
  = Ok (3, list_ascii_of_string "abc" ++ [zero])
       (mkState [LUserdata 0; LString "locked.pem"; LString "abcd"]
                sample_world) /\
  3 <> Z.min (Z.of_nat (String.length "abcd")) 4.
Proof. split; [vm_compute; reflexivity | vm_compute; discriminate]. Qed.

(** ** [create] *)

(** C4, as the code has it.  [create] knows its argument by its C
    string, the bytes before the first NUL byte.  When that is "sslv3",
    "tlsv1" or "sslv23" and the engine can allocate a context, [create]
    returns one value, a handle that did not exist before, on a context
    that did not exist before, with mode MD_CTX_INVALID.  When it is
    none of the three, [create] returns nil and "invalid protocol" and
    the world, engine included, is unchanged. *)
Theorem create_by_c_string (w : World) (s : string) :
  (c_str s = "sslv3" \/ c_str s = "tlsv1" \/ c_str s = "sslv23" ->
   forall k, avail w = S k ->
   exists m,
     let h := length (udata w) in
     let w' := created m k w in
     lua_cfunction_call create [LString s] w = Returned [LUserdata h] w' /\
     udata w !! h = None /\
     ctxs w !! length (ctxs w) = None /\
     live_handle w' h (length (ctxs w)) (new_ctx m) /\
     handle_mode w' h = Some MD_CTX_INVALID) /\
  (c_str s <> "sslv3" -> c_str s <> "tlsv1" -> c_str s <> "sslv23" ->
   lua_cfunction_call create [LString s] w
   = Returned [LNil; LString "invalid protocol"] w).
Proof.
  split.
  - intros Hs k Hk.
    assert (Hm : exists m, str2method s = Some m).
    { destruct Hs as [E|[E|E]];
        [exists SSLv3_method | exists TLSv1_method | exists SSLv23_method];
        apply str2method_Some; tauto. }
    destruct Hm as [m Hm]. exists m. cbv zeta.
    split; [exact (create_valid w s m k Hm Hk)|].
    split; [apply lookup_ge_None; lia|].
    split; [apply lookup_ge_None; lia|].
    split.
    + eexists. unfold created. cbn [udata ctxs].
      rewrite !lookup_last. repeat split; reflexivity.
    + unfold handle_mode, created. cbn [udata].
      rewrite lookup_last. reflexivity.
  - intros H1 H2 H3. apply create_invalid, str2method_None. tauto.
Qed.

Lemma create_by_c_string_witness :
  (exists m,
     lua_cfunction_call create [LString "tlsv1"] sample_world
     = Returned [LUserdata 1] (created m 3 sample_world) /\
     udata sample_world !! 1%nat = None /\
     ctxs sample_world !! 1%nat = None /\
     live_handle (created m 3 sample_world) 1 1 (new_ctx m) /\
     handle_mode (created m 3 sample_world) 1 = Some MD_CTX_INVALID) /\
  lua_cfunction_call create [LString "tls"] sample_world
  = Returned [LNil; LString "invalid protocol"] sample_world.
Proof.
  split.
  - apply (proj1 (create_by_c_string sample_world "tlsv1"));
      [right; left; reflexivity | reflexivity].
  - apply (proj2 (create_by_c_string sample_world "tls")); discriminate.
Defined.

(** C4 as stated fails: the string made of "sslv3", a NUL byte and "x"
    is none of the three identifiers, and [create] returns a handle for
    it. *)
Lemma create_accepts_nul_suffix :
  sslv3_nul_x <> "sslv3" /\ sslv3_nul_x <> "tlsv1" /\ sslv3_nul_x <> "sslv23" /\
  lua_cfunction_call create [LString sslv3_nul_x] sample_world
  = Returned [LUserdata 1] (created SSLv3_method 3 sample_world).
Proof.
  split; [discriminate|]. split; [discriminate|]. split; [discriminate|].
  vm_compute. reflexivity.
Qed.

(** ** How failures reach the caller *)

Lemma cache_scan_first_refused (pre post : list string) (t : string) (i m : Z) :
  Forall (fun t => session_cache_bit t <> None) pre ->
  session_cache_bit t = None ->
  cache_scan (pre ++ t :: post) i m = inr (i + Z.of_nat (length pre)).
Proof.
  intros Hpre Ht. revert i m.
  induction Hpre as [|a pre Ha _ IH]; intros i m; cbn [app cache_scan length].
  - rewrite Ht. f_equal. lia.
  - destruct (session_cache_bit a) as [bit|]; [|congruence].
    rewrite IH. f_equal. lia.
Qed.

(** C5, as the code has it.  A protocol name that is not known makes
    [create] return nil and a message, in any world; on a handle, a
    verify token or an option token that is not known makes
    [set_verify], [set_options] return false and a message; the world
    is unchanged.  Two failures do not return.  When the first session
    cache token that is not known comes after the tokens [pre], all
    known, [set_session_cache_mode] raises an argument error on that
    very argument, number 2 + the length of [pre]; and a third argument
    of [load_key] that is present and neither nil, a string nor a
    function makes it raise "invalid callback value".  The world is
    unchanged there too. *)
Theorem failures_returned_or_raised (tbl : list ssl_option_t) (w : World) :
  (forall s, str2method s = None ->
     lua_cfunction_call create [LString s] w
     = Returned [LNil; LString "invalid protocol"] w) /\
  (forall h, is_handle w h ->
     (forall ts, Exists (fun t => verify_token_ok t = false) ts ->
        lua_cfunction_call set_verify (method_args h ts) w
        = Returned [LBoolean false; LString "invalid verify option"] w) /\
     (forall ts, Exists (fun t => option_token_ok tbl t = false) ts ->
        lua_cfunction_call (set_options tbl) (method_args h ts) w
        = Returned [LBoolean false; LString "invalid option"] w) /\
     (forall pre t post,
        Forall (fun t => session_cache_bit t <> None) pre ->
        session_cache_bit t = None ->
        lua_cfunction_call set_session_cache_mode
                           (method_args h (pre ++ t :: post)) w
        = Raised (ArgError (2 + Z.of_nat (length pre))
                           "unknown session cache mode") w) /\
     (forall path v,
        type_of v <> LUA_TNIL -> type_of v <> LUA_TSTRING ->
        type_of v <> LUA_TFUNCTION ->
        lua_cfunction_call load_key [LUserdata h; LString path; v] w
        = Raised (ErrValue (LString "invalid callback value")) w)).
Proof.
  split.
  - intros s Hs. exact (create_invalid w s Hs).
  - intros h Hh. split; [|split; [|split]].
    + intros ts Hbad. exact (set_verify_refused w h ts Hh Hbad).
    + intros ts Hbad. exact (set_options_refused tbl w h ts Hh Hbad).
    + intros pre t post Hpre Ht. destruct Hh as (blk & Hb & Hm).
      rewrite (set_session_cache_mode_run h w blk _ Hb Hm).
      rewrite (cache_scan_first_refused pre post t 2 0 Hpre Ht). reflexivity.
    + intros path v Hn Hs Hf. exact (load_key_other h w path v Hh Hn Hs Hf).
Qed.

Lemma failures_returned_or_raised_witness :
  lua_cfunction_call create [LString "tls"] (mkWorld [] [] 0 [] [] [])
  = Returned [LNil; LString "invalid protocol"] (mkWorld [] [] 0 [] [] []) /\
  lua_cfunction_call set_verify (method_args 0 ["bogus"]) sample_world
  = Returned [LBoolean false; LString "invalid verify option"] sample_world /\
  lua_cfunction_call (set_options sample_options) (method_args 0 ["bogus"])
                     sample_world
  = Returned [LBoolean false; LString "invalid option"] sample_world /\
  lua_cfunction_call set_session_cache_mode
    (method_args 0 (["both"; "no_auto_clear"] ++ "bogus" :: ["wrong"]))
    sample_world
  = Raised (ArgError 4 "unknown session cache mode") sample_world /\
  lua_cfunction_call load_key
    [LUserdata 0; LString "plain.pem"; LBoolean true] sample_world
  = Raised (ErrValue (LString "invalid callback value")) sample_world.
Proof.
  destruct (failures_returned_or_raised sample_options sample_world)
    as (_ & Hh).
  destruct (Hh 0%nat sample_is_handle) as (H2 & H3 & H4 & H5).
  split.
  { apply (proj1 (failures_returned_or_raised sample_options
                    (mkWorld [] [] 0 [] [] []))).
    reflexivity. }
  split; [apply H2, Exists_cons_hd; reflexivity|].
  split; [apply H3, Exists_cons_hd; reflexivity|].
  split.
  { apply (H4 ["both"; "no_auto_clear"] "bogus" ["wrong"]);
      [repeat constructor; discriminate | reflexivity]. }
  apply H5; discriminate.
Defined.

(** C5 as stated fails: [set_session_cache_mode] on the token "bogus"
    raises an argument error on argument 2; it returns nothing to its
    caller. *)
Lemma set_session_cache_mode_unknown_raises :
  lua_cfunction_call set_session_cache_mode (method_args 0 ["bogus"])
                     sample_world
  = Raised (ArgError 2 "unknown session cache mode") sample_world /\
  forall vs w',
    lua_cfunction_call set_session_cache_mode (method_args 0 ["bogus"])
                       sample_world
    <> Returned vs w'.
Proof.
  assert (E : lua_cfunction_call set_session_cache_mode
                (method_args 0 ["bogus"]) sample_world
              = Raised (ArgError 2 "unknown session cache mode") sample_world)
    by (vm_compute; reflexivity).
  split; [exact E|]. intros vs w'. rewrite E. discriminate.
Qed.

(** * Further properties of the code *)

(** ** The algebra of the flag loops *)

Section TokenMaskAlgebra.

Variable resolve : string -> Z -> Z * Z.
Hypothesis resolve_acc :
  forall t f, resolve t f = (fst (resolve t 0), Z.lor f (snd (resolve t 0))).

Lemma token_mask_cons (t : string) (ts : list string) (f : Z) :
  token_mask resolve (t :: ts) f
  = if fst (resolve t 0) =? 0 then None
    else token_mask resolve ts (Z.lor f (snd (resolve t 0))).
Proof. cbn [token_mask]. rewrite resolve_acc. reflexivity. Qed.

Lemma token_mask_perm (ts ts' : list string) :
  Permutation ts ts' ->
  forall f, token_mask resolve ts f = token_mask resolve ts' f.
Proof.
  induction 1 as [|x l l' _ IH|x y l|l l' l'' _ IH1 _ IH2]; intros f.
  - reflexivity.
  - rewrite !token_mask_cons. destruct (fst (resolve x 0) =? 0);
      [reflexivity | apply IH].
  - rewrite !token_mask_cons.
    destruct (fst (resolve x 0) =? 0), (fst (resolve y 0) =? 0);
      try reflexivity.
    rewrite <- !Z.lor_assoc, (Z.lor_comm (snd (resolve y 0))). reflexivity.
  - rewrite IH1. apply IH2.
Qed.

(** A mask that was built holds every bit of the mask it started from. *)
Lemma token_mask_from (ts : list string) (f m : Z) :
  token_mask resolve ts f = Some m ->
  exists m0, token_mask resolve ts 0 = Some m0 /\ m = Z.lor f m0.
Proof.
  revert f m. induction ts as [|t ts IH]; intros f m.
  - intros [= <-]. exists 0. rewrite Z.lor_0_r. split; reflexivity.
  - rewrite !token_mask_cons. destruct (fst (resolve t 0) =? 0); [discriminate|].
    intros H. destruct (IH _ _ H) as (m1 & H1 & ->).
    rewrite Z.lor_0_l.
    destruct (token_mask resolve ts (snd (resolve t 0))) as [m2|] eqn:E.
    + destruct (IH _ _ E) as (m3 & H3 & ->). exists (Z.lor (snd (resolve t 0)) m3).
      split; [reflexivity|].
      assert (m1 = m3) by congruence. subst m3.
      rewrite Z.lor_assoc. reflexivity.
    + exfalso. clear - resolve_acc H1 E.
      revert H1 E. generalize 0 (snd (resolve t 0)). clear t.
      induction ts as [|t ts IH]; intros a b; [discriminate|].
      rewrite !token_mask_cons. destruct (fst (resolve t 0) =? 0);
        [discriminate|]. apply IH.
Qed.

End TokenMaskAlgebra.

(** X1.  The order of the tokens does not matter: for a handle, two
    calls of [set_verify] (of [set_options]) whose token sequences are
    permutations of each other return the same values and leave the
    same world. *)
Theorem flag_setters_order_independent (tbl : list ssl_option_t) (w : World)
    (h : nat) (ts ts' : list string) :
  is_handle w h ->
  Permutation ts ts' ->
  lua_cfunction_call set_verify (method_args h ts) w
  = lua_cfunction_call set_verify (method_args h ts') w /\
  lua_cfunction_call (set_options tbl) (method_args h ts) w
  = lua_cfunction_call (set_options tbl) (method_args h ts') w.
Proof.
  intros (blk & Hb & Hm) Hp.
  rewrite !(set_verify_run h w blk _ Hb Hm), !(set_options_run tbl h w blk _ Hb Hm).
  unfold verify_mask, option_mask.
  rewrite (token_mask_perm set_verify_flag set_verify_flag_acc ts ts' Hp 0).
  rewrite (token_mask_perm (set_option_flag tbl) (set_option_flag_acc tbl)
             ts ts' Hp 0).
  destruct ts as [|t r], ts' as [|t' r'].
  - split; reflexivity.
  - apply Permutation_nil_l in Hp. discriminate.
  - apply Permutation_nil_r in Hp. discriminate.
  - split; reflexivity.
Qed.

Lemma flag_setters_order_independent_witness :
  lua_cfunction_call set_verify
    (method_args 0 ["peer"; "client_once"]) sample_world
  = lua_cfunction_call set_verify
      (method_args 0 ["client_once"; "peer"]) sample_world /\
  lua_cfunction_call (set_options sample_options)
    (method_args 0 ["no_sslv2"; "all"]) sample_world
  = lua_cfunction_call (set_options sample_options)
      (method_args 0 ["all"; "no_sslv2"]) sample_world.
Proof.
  split.
  - apply (proj1 (flag_setters_order_independent sample_options sample_world 0
                    ["peer"; "client_once"] ["client_once"; "peer"]
                    sample_is_handle (perm_swap _ _ _))).
  - apply (proj2 (flag_setters_order_independent sample_options sample_world 0
                    ["no_sslv2"; "all"] ["all"; "no_sslv2"]
                    sample_is_handle (perm_swap _ _ _))).
Defined.

(** X2.  [set_verify] replaces: on a live handle, after a call that
    committed, a second committing call leaves exactly the world it
    would have left alone, the verify mode being the mask of its own
    tokens and the verify callback NULL.  (Options accumulate instead.) *)
Theorem set_verify_last_call_wins (w : World) (h p : nat) (c : SSL_CTX)
    (ts1 ts2 : list string) (m1 m2 : Z) :
  live_handle w h p c ->
  ts1 <> [] -> ts2 <> [] ->
  verify_mask ts1 0 = Some m1 ->
  verify_mask ts2 0 = Some m2 ->
  exists w1 w2,
    lua_cfunction_call set_verify (method_args h ts1) w
    = Returned [LBoolean true] w1 /\
    lua_cfunction_call set_verify (method_args h ts2) w1
    = Returned [LBoolean true] w2 /\
    lua_cfunction_call set_verify (method_args h ts2) w
    = Returned [LBoolean true] w2 /\
    engine_ctx w2 h = Some (with_verify m2 None c).
Proof.
  intros (blk & Hb & Hm & Hp & Hc) Hn1 Hn2 H1 H2.
  pose proof (lookup_lt_Some _ _ _ Hc) as Hlt.
  set (w1 := with_ctxs (<[p := Some (with_verify m1 None c)]> (ctxs w)) w).
  set (w2 := with_ctxs (<[p := Some (with_verify m2 None c)]> (ctxs w)) w).
  exists w1, w2.
  assert (Hc1 : ctxs w1 !! p = Some (Some (with_verify m1 None c)))
    by (apply list_lookup_insert_eq; exact Hlt).
  destruct ts1 as [|a1 r1]; [congruence|].
  destruct ts2 as [|a2 r2]; [congruence|].
  split; [|split; [|split]].
  - rewrite (set_verify_run h w blk _ Hb Hm), H1. unfold commit.
    rewrite Hp, Hc. reflexivity.
  - rewrite (set_verify_run h w1 blk _ Hb Hm), H2. unfold commit.
    rewrite Hp, Hc1. unfold w1, w2, with_ctxs.
    cbn [ctxs udata avail free_log keyfiles err_queue].
    rewrite list_insert_insert_eq. reflexivity.
  - rewrite (set_verify_run h w blk _ Hb Hm), H2. unfold commit.
    rewrite Hp, Hc. reflexivity.
  - unfold engine_ctx, w2. cbn [udata ctxs with_ctxs]. rewrite Hb, Hp.
    rewrite list_lookup_insert_eq by exact Hlt. reflexivity.
Qed.

Lemma set_verify_last_call_wins_witness :
  exists w1 w2,
    lua_cfunction_call set_verify
      (method_args 0 ["peer"; "fail_if_no_peer_cert"]) sample_world
    = Returned [LBoolean true] w1 /\
    lua_cfunction_call set_verify (method_args 0 ["client_once"]) w1
    = Returned [LBoolean true] w2 /\
    lua_cfunction_call set_verify (method_args 0 ["client_once"]) sample_world
    = Returned [LBoolean true] w2 /\
    engine_ctx w2 0 = Some (with_verify 4 None sample_ctx).
Proof.
  apply (set_verify_last_call_wins sample_world 0 0 sample_ctx
           ["peer"; "fail_if_no_peer_cert"] ["client_once"] 3 4
           sample_live_handle); (discriminate || reflexivity).
Defined.

(** X3.  [set_options] only adds: on a live handle, a call whose
    tokens are all in the table returns true, every option bit that was
    set stays set, the verify mode and the cache mode are untouched,
    and the same call made again changes nothing more. *)
Theorem set_options_only_adds (tbl : list ssl_option_t) (w : World)
    (h p : nat) (c : SSL_CTX) (ts : list string) (m : Z) :
  live_handle w h p c ->
  option_mask tbl ts 0 = Some m ->
  exists w' c',
    lua_cfunction_call (set_options tbl) (method_args h ts) w
    = Returned [LBoolean true] w' /\
    engine_ctx w' h = Some c' /\
    (forall n, Z.testbit (options c) n = true ->
               Z.testbit (options c') n = true) /\
    verify_mode c' = verify_mode c /\
    session_cache_mode c' = session_cache_mode c /\
    lua_cfunction_call (set_options tbl) (method_args h ts) w'
    = Returned [LBoolean true] w'.
Proof.
  intros (blk & Hb & Hm & Hp & Hc) Hmask.
  pose proof (lookup_lt_Some _ _ _ Hc) as Hlt.
  destruct ts as [|t ts].
  - exists w, c. rewrite (set_options_run tbl h w blk [] Hb Hm).
    unfold engine_ctx. rewrite Hb, Hp, Hc. repeat split; auto.
  - set (c' := with_options (Z.lor (options c) m) c).
    set (w' := with_ctxs (<[p := Some c']> (ctxs w)) w).
    assert (Hc' : ctxs w' !! p = Some (Some c'))
      by (apply list_lookup_insert_eq; exact Hlt).
    exists w', c'. split; [|split; [|split; [|split; [|split]]]].
    + rewrite (set_options_run tbl h w blk _ Hb Hm), Hmask, Hp, Hc. reflexivity.
    + unfold engine_ctx. change (udata w') with (udata w).
      rewrite Hb, Hp, Hc'. reflexivity.
    + intros n Hn. unfold c'. cbn [options with_options].
      rewrite Z.lor_spec, Hn. reflexivity.
    + reflexivity.
    + reflexivity.
    + rewrite (set_options_run tbl h w' blk _ Hb Hm), Hmask, Hp, Hc'.
      unfold w', c', with_ctxs, with_options.
      cbn [ctxs udata avail free_log keyfiles err_queue options method
           verify_mode verify_callback session_cache_mode default_passwd_cb
           default_passwd_cb_userdata].
      rewrite list_insert_insert_eq, <- Z.lor_assoc, Z.lor_diag. reflexivity.
Qed.

Lemma set_options_only_adds_witness :
  exists w' c',
    lua_cfunction_call (set_options sample_options)
      (method_args 0 ["no_sslv2"; "no_sslv3"]) sample_world
    = Returned [LBoolean true] w' /\
    engine_ctx w' 0 = Some c' /\
    (forall n, Z.testbit (options sample_ctx) n = true ->
               Z.testbit (options c') n = true) /\
    verify_mode c' = verify_mode sample_ctx /\
    session_cache_mode c' = session_cache_mode sample_ctx /\
    lua_cfunction_call (set_options sample_options)
      (method_args 0 ["no_sslv2"; "no_sslv3"]) w'
    = Returned [LBoolean true] w'.
Proof.
  exact (set_options_only_adds sample_options sample_world 0 0 sample_ctx
           ["no_sslv2"; "no_sslv3"] 0x03000000 sample_live_handle eq_refl).
Defined.

(** ** What the flag functions accept *)

Lemma strcmp_literal (s lit : string) :
  c_str lit = lit -> (strcmp s lit =? 0) = String.eqb (c_str s) lit.
Proof. intros H. rewrite strcmp_eqb, H. reflexivity. Qed.

Lemma verify_token_ok_iff (t : string) :
  verify_token_ok t = true <-> verify_name t.
Proof.
  unfold verify_token_ok, verify_name, set_verify_flag.
  rewrite !strcmp_literal by reflexivity.
  destruct (String.eqb_spec (c_str t) "none") as [E1|E1];
    [cbn; tauto|].
  destruct (String.eqb_spec (c_str t) "peer") as [E2|E2];
    [cbn; tauto|].
  destruct (String.eqb_spec (c_str t) "client_once") as [E3|E3];
    [cbn; tauto|].
  destruct (String.eqb_spec (c_str t) "fail_if_no_peer_cert") as [E4|E4];
    [cbn; tauto|].
  cbn. split; [discriminate | tauto].
Qed.

Lemma set_verify_flag_small (t : string) (f : Z) :
  0 <= f <= 7 -> 0 <= snd (set_verify_flag t f) <= 7.
Proof.
  intros Hf.
  assert (Hcases : f = 0 \/ f = 1 \/ f = 2 \/ f = 3 \/ f = 4 \/ f = 5 \/
                   f = 6 \/ f = 7) by lia.
  unfold set_verify_flag.
  repeat match goal with
         | |- context [if ?b then _ else _] => destruct b
         end; cbn [snd];
    repeat (destruct Hcases as [->|Hcases]; [vm_compute; split; discriminate|]);
    subst f; vm_compute; split; discriminate.
Qed.

Lemma verify_mask_small (ts : list string) (f m : Z) :
  0 <= f <= 7 -> verify_mask ts f = Some m -> 0 <= m <= 7.
Proof.
  revert f. induction ts as [|t ts IH]; intros f Hf.
  - intros [= <-]. exact Hf.
  - unfold verify_mask. cbn [token_mask].
    pose proof (set_verify_flag_small t f Hf) as Hs.
    destruct (set_verify_flag t f) as [ok f']. cbn [snd] in Hs.
    destruct (ok =? 0); [discriminate|]. apply IH, Hs.
Qed.

(** X4.  [set_verify_flag] knows a token by its C string and knows
    exactly "none", "peer", "client_once" and "fail_if_no_peer_cert";
    the loop of [set_verify] builds a mask exactly when every token is
    one of them, and the mask is then between 0 and 7: no bit outside
    the three verify bits is ever committed. *)
Theorem verify_mask_names_and_range (ts : list string) :
  ((exists m, verify_mask ts 0 = Some m) <-> Forall verify_name ts) /\
  (forall m, verify_mask ts 0 = Some m -> 0 <= m <= 7).
Proof.
  split.
  - generalize 0. induction ts as [|t ts IH]; intros f.
    + split; [constructor | intros _; exists f; reflexivity].
    + unfold verify_mask. rewrite (token_mask_cons _ set_verify_flag_acc).
      fold verify_mask. rewrite Forall_cons, <- verify_token_ok_iff.
      unfold verify_token_ok.
      destruct (fst (set_verify_flag t 0) =? 0); cbn [negb].
      * split; [intros [m Hm]; discriminate | intros [Hf _]; discriminate].
      * rewrite IH. tauto.
  - intros m. apply verify_mask_small. lia.
Qed.

Lemma verify_mask_names_and_range_witness :
  Forall verify_name ["peer"; "fail_if_no_peer_cert"] /\
  0 <= 3 <= 7.
Proof.
  destruct (verify_mask_names_and_range ["peer"; "fail_if_no_peer_cert"])
    as [Hn Hr].
  split.
  - apply Hn. exists 3. reflexivity.
  - apply (Hr 3). reflexivity.
Defined.

(** X5.  [set_option_flag] is a first-match lookup by C string: when
    no entry of the table carries the name, it answers 0 and leaves the
    mask alone; when [e] is the first entry that does, it answers 1 and
    OR's the code of [e] into the mask, whatever entries of the same
    name follow. *)
Theorem set_option_flag_first_match (pre post : list ssl_option_t)
    (e : ssl_option_t) (opt : string) (f : Z) :
  (forall e', In e' pre -> c_str (name e') <> c_str opt) ->
  set_option_flag pre opt f = (0, f) /\
  (c_str (name e) = c_str opt ->
   set_option_flag (pre ++ e :: post) opt f = (1, Z.lor f (code e))).
Proof.
  intros Hpre.
  assert (Hskip : forall rest,
            set_option_flag (pre ++ rest) opt f = set_option_flag rest opt f).
  { intros rest. induction pre as [|e' pre IH]; [reflexivity|].
    cbn [app set_option_flag].
    replace (strcmp opt (name e') =? 0) with false.
    - apply IH. intros e'' Hin. apply Hpre. now right.
    - symmetry. apply Z.eqb_neq. rewrite strcmp_0_iff.
      intros E. apply (Hpre e'); [now left | congruence]. }
  split.
  - rewrite <- (app_nil_r pre). rewrite Hskip. reflexivity.
  - intros He. rewrite Hskip. cbn [set_option_flag].
    replace (strcmp opt (name e) =? 0) with true; [reflexivity|].
    symmetry. apply Z.eqb_eq, strcmp_0_iff. congruence.
Qed.

Lemma set_option_flag_first_match_witness :
  set_option_flag [mk_option "all" 0xBFF] "no_sslv2" 4 = (0, 4) /\
  set_option_flag ([mk_option "all" 0xBFF] ++ mk_option "no_sslv2" 0x01000000
                     :: [mk_option "no_sslv2" 0x1])
                  "no_sslv2" 4
  = (1, Z.lor 4 0x01000000).
Proof.
  destruct (set_option_flag_first_match [mk_option "all" 0xBFF]
              [mk_option "no_sslv2" 0x1] (mk_option "no_sslv2" 0x01000000)
              "no_sslv2" 4) as [H0 H1].
  - intros e' [<-|[]]. discriminate.
  - split; [exact H0 | apply H1; reflexivity].
Defined.

(** ** [set_session_cache_mode] on any arguments *)

Lemma args_lookup (a : lua_value) (pre rest : list lua_value) (v : lua_value) :
  (a :: pre ++ v :: rest) !! S (length pre) = Some v.
Proof.
  change ((pre ++ v :: rest) !! length pre = Some v).
  rewrite lookup_app_r by lia. rewrite Nat.sub_diag. reflexivity.
Qed.

Lemma run_toboolean (st : list lua_value) (w : World) (i : nat) (b : bool) :
  st !! i = Some (LBoolean b) ->
  lua_toboolean (Z.of_nat (S i)) (mkState st w) = Ok b (mkState st w).
Proof.
  intros H. unfold lua_toboolean, bind, get_stack, ret. cbn [stack].
  rewrite (value_at_arg _ _ _ H). reflexivity.
Qed.

(** What a call of [set_session_cache_mode] on a handle and any further
    arguments does. *)
Lemma set_session_cache_mode_values_run (h : nat) (w : World) blk
    (vs : list lua_value) :
  udata w !! h = Some blk -> metatable blk = Some "SSL:Context" ->
  lua_cfunction_call set_session_cache_mode (LUserdata h :: vs) w
  = match cache_scan_values vs 2 0 with
    | inr i => Raised (ArgError i "unknown session cache mode") w
    | inl m =>
        match commit w (context (payload blk)) (with_session_cache_mode m) with
        | Some w' => Returned [LBoolean true] w'
        | None => Crashed
        end
    end.
Proof.
  intros Hb Hm. unfold lua_cfunction_call, set_session_cache_mode.
  erewrite bind_ok by exact (run_ctx_getcontext h vs w blk Hb Hm).
  unfold bind at 1. unfold lua_gettop at 1, bind at 1, get_stack at 1, ret at 1.
  cbn [stack length]. unfold bind at 1, for_range.
  replace (Z.to_nat (Z.of_nat (S (length vs)) - 2 + 1)) with (length vs) by lia.
  match goal with
  | |- context [for_steps _ _ ?b _ _] => set (body := b)
  end.
  assert (Hloop : forall rest pre m,
    for_steps (length rest) (Z.of_nat (2 + length pre)) body m
              (mkState (LUserdata h :: pre ++ rest) w)
    = match cache_scan_values rest (Z.of_nat (2 + length pre)) m with
      | inl m' => Ok (inl m') (mkState (LUserdata h :: pre ++ rest) w)
      | inr i =>
          Err (ArgError i "unknown session cache mode")
              (mkState (LUserdata h :: pre ++ rest) w)
      end).
  { induction rest as [|v rest IH]; intros pre m; [reflexivity|].
    cbn [length for_steps cache_scan_values].
    unfold bind at 1. unfold body at 1.
    erewrite bind_ok
      by exact (run_lua_type _ w (S (length pre)) _
                  (args_lookup (LUserdata h) pre rest v)).
    assert (Hnext : forall m',
      for_steps (length rest) (Z.of_nat (2 + length pre) + 1) body m'
                (mkState (LUserdata h :: pre ++ v :: rest) w)
      = match cache_scan_values rest (Z.of_nat (2 + length pre) + 1) m' with
        | inl m'' => Ok (inl m'') (mkState (LUserdata h :: pre ++ v :: rest) w)
        | inr i =>
            Err (ArgError i "unknown session cache mode")
                (mkState (LUserdata h :: pre ++ v :: rest) w)
        end).
    { intros m'.
      replace (Z.of_nat (2 + length pre) + 1)
        with (Z.of_nat (2 + length (pre ++ [v])))
        by (rewrite length_app; simpl; lia).
      replace (pre ++ v :: rest) with ((pre ++ [v]) ++ rest)
        by (rewrite <- app_assoc; reflexivity).
      apply IH. }
    destruct v; cbn [type_of]; try reflexivity.
    - erewrite bind_ok
        by exact (run_toboolean _ w (S (length pre)) _
                    (args_lookup (LUserdata h) pre rest (LBoolean b))).
      destruct b; unfold ret at 1; apply Hnext.
    - erewrite bind_ok
        by exact (run_tostring _ w (S (length pre)) _
                    (args_lookup (LUserdata h) pre rest (LString s))).
      cbv beta iota.
      destruct (session_cache_bit s) as [bit|]; [|reflexivity].
      unfold ret at 1. apply Hnext. }
  specialize (Hloop vs [] 0). cbn [app length Nat.add] in Hloop.
  change (Z.of_nat 2) with 2 in Hloop. rewrite Hloop.
  destruct (cache_scan_values vs 2 0) as [m|i]; [|reflexivity].
  unfold bind at 1. rewrite run_set_session_cache_mode.
  unfold commit.
  destruct (context (payload blk)) as [p|]; [|reflexivity].
  destruct (ctxs w !! p) as [[c|]|]; try reflexivity.
  run_pushes. rewrite results_top1. reflexivity.
Qed.

Lemma cache_scan_spelled (vs : list lua_value) (i m : Z) :
  cache_scan_values (map spell_boolean vs) i m = cache_scan_values vs i m.
Proof.
  revert i m. induction vs as [|v vs IH]; intros i m; [reflexivity|].
  cbn [map cache_scan_values].
  destruct v as [|[]| | | | | | |]; cbn [spell_boolean]; try reflexivity.
  - change (session_cache_bit "both") with (Some SSL_SESS_CACHE_BOTH).
    apply IH.
  - change (session_cache_bit "off") with (Some SSL_SESS_CACHE_OFF).
    apply IH.
  - destruct (session_cache_bit s); [apply IH | reflexivity].
Qed.

Lemma cache_scan_accepted (pre : list lua_value) (i m : Z) :
  forallb cache_token_ok pre = true ->
  exists m', forall rest,
    cache_scan_values (pre ++ rest) i m
    = cache_scan_values rest (i + Z.of_nat (length pre)) m'.
Proof.
  revert i m. induction pre as [|v pre IH]; intros i m Hok.
  - exists m. intros r. cbn [app length]. rewrite Z.add_0_r. reflexivity.
  - cbn [forallb] in Hok. apply andb_true_iff in Hok as [Hv Hpre].
    destruct v; try discriminate; cbn [app cache_scan_values length].
    + destruct (IH (i + 1) (Z.lor m (if b then SSL_SESS_CACHE_BOTH
                                     else SSL_SESS_CACHE_OFF)) Hpre)
        as [m' Hm'].
      exists m'. intros r. rewrite Hm'. f_equal. lia.
    + cbn [cache_token_ok] in Hv.
      destruct (session_cache_bit s) as [bit|]; [|discriminate].
      destruct (IH (i + 1) (Z.lor m bit) Hpre) as [m' Hm'].
      exists m'. intros r. rewrite Hm'. f_equal. lia.
Qed.

(** X6.  In [set_session_cache_mode] a boolean is another spelling of
    a string token: true of "both", false of "off".  For a handle and
    any arguments, the call with every boolean written out as its
    string returns the same and leaves the same world. *)
Theorem set_session_cache_mode_booleans (w : World) (h : nat)
    (vs : list lua_value) :
  is_handle w h ->
  lua_cfunction_call set_session_cache_mode
    (LUserdata h :: map spell_boolean vs) w
  = lua_cfunction_call set_session_cache_mode (LUserdata h :: vs) w.
Proof.
  intros (blk & Hb & Hm).
  rewrite !(set_session_cache_mode_values_run h w blk _ Hb Hm).
  rewrite cache_scan_spelled. reflexivity.
Qed.

Lemma set_session_cache_mode_booleans_witness :
  lua_cfunction_call set_session_cache_mode
    [LUserdata 0; LString "both"; LString "no_auto_clear"; LString "off"]
    sample_world
  = lua_cfunction_call set_session_cache_mode
      [LUserdata 0; LBoolean true; LString "no_auto_clear"; LBoolean false]
      sample_world.
Proof.
  exact (set_session_cache_mode_booleans sample_world 0
           [LBoolean true; LString "no_auto_clear"; LBoolean false]
           sample_is_handle).
Defined.

(** X7.  [set_session_cache_mode] takes booleans and strings only: the
    first argument that is neither (a number, nil, a table, ...), coming
    after tokens that were taken, raises an argument error on its own
    index, and nothing is committed.  A number is refused even where
    [luaL_checkstring] would have read it as a string. *)
Theorem set_session_cache_mode_other_type (w : World) (h : nat)
    (pre rest : list lua_value) (v : lua_value) :
  is_handle w h ->
  forallb cache_token_ok pre = true ->
  type_of v <> LUA_TBOOLEAN -> type_of v <> LUA_TSTRING ->
  lua_cfunction_call set_session_cache_mode (LUserdata h :: pre ++ v :: rest) w
  = Raised (ArgError (2 + Z.of_nat (length pre)) "unknown session cache mode") w.
Proof.
  intros (blk & Hb & Hm) Hpre Hnb Hns.
  rewrite (set_session_cache_mode_values_run h w blk _ Hb Hm).
  destruct (cache_scan_accepted pre 2 0 Hpre) as [m' Hm'].
  rewrite Hm'. destruct v; cbn [type_of] in *; try congruence; reflexivity.
Qed.

Lemma set_session_cache_mode_other_type_witness :
  lua_cfunction_call set_session_cache_mode
    (LUserdata 0 :: [LString "client"; LBoolean true] ++ LNumber "1" :: [])
    sample_world
  = Raised (ArgError 4 "unknown session cache mode") sample_world.
Proof.
  apply (set_session_cache_mode_other_type sample_world 0
           [LString "client"; LBoolean true] [] (LNumber "1")
           sample_is_handle); [reflexivity | discriminate | discriminate].
Defined.

(** X8.  [set_session_cache_mode] replaces too: on a live handle, a
    call on string tokens it knows, made after another such call,
    leaves exactly the world it would have left alone, the cache mode
    being the mask of its own tokens (0 when it has none). *)
Theorem set_session_cache_mode_last_call_wins (w : World) (h p : nat)
    (c : SSL_CTX) (ts1 ts2 : list string) (m1 m2 : Z) :
  live_handle w h p c ->
  cache_scan ts1 2 0 = inl m1 ->
  cache_scan ts2 2 0 = inl m2 ->
  exists w1 w2,
    lua_cfunction_call set_session_cache_mode (method_args h ts1) w
    = Returned [LBoolean true] w1 /\
    lua_cfunction_call set_session_cache_mode (method_args h ts2) w1
    = Returned [LBoolean true] w2 /\
    lua_cfunction_call set_session_cache_mode (method_args h ts2) w
    = Returned [LBoolean true] w2 /\
    engine_ctx w2 h = Some (with_session_cache_mode m2 c).
Proof.
  intros (blk & Hb & Hm & Hp & Hc) H1 H2.
  pose proof (lookup_lt_Some _ _ _ Hc) as Hlt.
  set (w1 := with_ctxs (<[p := Some (with_session_cache_mode m1 c)]> (ctxs w)) w).
  set (w2 := with_ctxs (<[p := Some (with_session_cache_mode m2 c)]> (ctxs w)) w).
  exists w1, w2.
  assert (Hc1 : ctxs w1 !! p = Some (Some (with_session_cache_mode m1 c)))
    by (apply list_lookup_insert_eq; exact Hlt).
  split; [|split; [|split]].
  - rewrite (set_session_cache_mode_run h w blk _ Hb Hm), H1. unfold commit.
    rewrite Hp, Hc. reflexivity.
  - rewrite (set_session_cache_mode_run h w1 blk _ Hb Hm), H2. unfold commit.
    rewrite Hp, Hc1. unfold w1, w2, with_ctxs.
    cbn [ctxs udata avail free_log keyfiles err_queue].
    rewrite list_insert_insert_eq. reflexivity.
  - rewrite (set_session_cache_mode_run h w blk _ Hb Hm), H2. unfold commit.
    rewrite Hp, Hc. reflexivity.
  - unfold engine_ctx, w2. cbn [udata ctxs with_ctxs]. rewrite Hb, Hp.
    rewrite list_lookup_insert_eq by exact Hlt. reflexivity.
Qed.

Lemma set_session_cache_mode_last_call_wins_witness :
  exists w1 w2,
    lua_cfunction_call set_session_cache_mode
      (method_args 0 ["both"; "no_internal"]) sample_world
    = Returned [LBoolean true] w1 /\
    lua_cfunction_call set_session_cache_mode (method_args 0 ["client"]) w1
    = Returned [LBoolean true] w2 /\
    lua_cfunction_call set_session_cache_mode (method_args 0 ["client"])
      sample_world
    = Returned [LBoolean true] w2 /\
    engine_ctx w2 0 = Some (with_session_cache_mode 1 sample_ctx).
Proof.
  exact (set_session_cache_mode_last_call_wins sample_world 0 0 sample_ctx
           ["both"; "no_internal"] ["client"] 0x0303 1
           sample_live_handle eq_refl eq_refl).
Defined.

(** ** [set_mode] and [ctx_getmode] *)

Lemma run_ctx_getmode (h : nat) (rest : list lua_value) (w : World) blk :
  udata w !! h = Some blk -> metatable blk = Some "SSL:Context" ->
  ctx_getmode 1 (mkState (LUserdata h :: rest) w)
  = Ok (mode (payload blk)) (mkState (LUserdata h :: rest) w).
Proof.
  intros Hb Hm. unfold ctx_getmode.
  erewrite bind_ok by exact (run_checkctx h rest w blk Hb Hm).
  unfold load_ctx, bind, get_world. cbn [world]. rewrite Hb. reflexivity.
Qed.

(** X9.  [set_mode] on "server" or "client" (as C strings) returns
    true and records the mode, which [ctx_getmode] then reads back,
    whatever mode was recorded before: a later call overwrites an
    earlier one.  Only the mode field of that handle changes: its
    context pointer, the other handles and the engine are as before. *)
Theorem set_mode_then_getmode (w : World) (h : nat) (s : string) :
  is_handle w h ->
  c_str s = "server" \/ c_str s = "client" ->
  exists w',
    lua_cfunction_call set_mode (method_args h [s]) w
    = Returned [LBoolean true] w' /\
    ctx_getmode 1 (mkState [LUserdata h] w')
    = Ok (if String.eqb (c_str s) "server" then MD_CTX_SERVER
          else MD_CTX_CLIENT) (mkState [LUserdata h] w') /\
    ctxs w' = ctxs w /\
    (forall blk, udata w !! h = Some blk ->
       exists blk', udata w' !! h = Some blk' /\
         context (payload blk') = context (payload blk) /\
         metatable blk' = metatable blk) /\
    (forall h', h' <> h -> udata w' !! h' = udata w !! h').
Proof.
  intros (blk & Hb & Hm) Hs.
  pose proof (lookup_lt_Some _ _ _ Hb) as Hlt.
  rewrite (set_mode_run h w blk s Hb Hm), !strcmp_eqb.
  change (c_str "server") with "server". change (c_str "client") with "client".
  assert (Hmode : forall m,
    let w' := set_handle_mode h blk m w in
    ctx_getmode 1 (mkState [LUserdata h] w') = Ok m (mkState [LUserdata h] w') /\
    ctxs w' = ctxs w /\
    (forall blk0, udata w !! h = Some blk0 ->
       exists blk', udata w' !! h = Some blk' /\
         context (payload blk') = context (payload blk0) /\
         metatable blk' = metatable blk0) /\
    (forall h', h' <> h -> udata w' !! h' = udata w !! h')).
  { intros m w'.
    assert (Hb' : udata w' !! h
                  = Some (mk_userdata (metatable blk)
                            (mk_context (context (payload blk)) m)))
      by (apply list_lookup_insert_eq; exact Hlt).
    split; [|split; [|split]].
    - exact (run_ctx_getmode h [] w' _ Hb' Hm).
    - reflexivity.
    - intros blk0 Hb0. rewrite Hb in Hb0. injection Hb0 as <-.
      eexists. split; [exact Hb'|]. split; reflexivity.
    - intros h' Hne. apply list_lookup_insert_ne. congruence. }
  destruct Hs as [E|E]; rewrite E.
  - exists (set_handle_mode h blk MD_CTX_SERVER w).
    split; [reflexivity | apply Hmode].
  - exists (set_handle_mode h blk MD_CTX_CLIENT w).
    split; [reflexivity | apply Hmode].
Qed.

Lemma set_mode_then_getmode_witness :
  exists w',
    lua_cfunction_call set_mode (method_args 1 ["client"]) sample_world2
    = Returned [LBoolean true] w' /\
    ctx_getmode 1 (mkState [LUserdata 1] w')
    = Ok MD_CTX_CLIENT (mkState [LUserdata 1] w') /\
    ctxs w' = ctxs sample_world2 /\
    (forall blk, udata sample_world2 !! 1%nat = Some blk ->
       exists blk', udata w' !! 1%nat = Some blk' /\
         context (payload blk') = context (payload blk) /\
         metatable blk' = metatable blk) /\
    (forall h', h' <> 1%nat -> udata w' !! h' = udata sample_world2 !! h').
Proof.
  apply (set_mode_then_getmode sample_world2 1 "client").
  - eexists. split; reflexivity.
  - right. reflexivity.
Defined.

(** ** Arguments of the wrong type *)

Lemma bind_err {A B : Type} (m : M A) (k : A -> M B) s e s' :
  m s = Err e s' -> bind m k s = Err e s'.
Proof. unfold bind. intros ->. reflexivity. Qed.

Lemma run_checkctx_bad (v : lua_value) (rest : list lua_value) (w : World) :
  not_a_context w v ->
  checkctx 1 (mkState (v :: rest) w)
  = Err (context_expected v) (mkState (v :: rest) w).
Proof.
  intros Hv. unfold checkctx, luaL_checkudata, bind at 1, get_stack at 1.
  unfold bind at 1, get_world at 1. cbn [stack world]. rewrite value_at_1.
  assert (Hty : luaL_typerror (A := nat) 1 "SSL:Context"
                  (mkState (v :: rest) w)
                = Err (context_expected v) (mkState (v :: rest) w)).
  { unfold luaL_typerror, lua_type, bind, get_stack, ret. cbn [stack].
    rewrite value_at_1. reflexivity. }
  destruct v; try exact Hty.
  destruct Hv as (blk & Hb & Hm). rewrite Hb.
  destruct (metatable blk) as [t|]; [|exact Hty].
  destruct (String.eqb_spec t "SSL:Context") as [->|_]; [congruence | exact Hty].
Qed.

Lemma run_ctx_getcontext_bad (v : lua_value) (rest : list lua_value) (w : World) :
  not_a_context w v ->
  ctx_getcontext 1 (mkState (v :: rest) w)
  = Err (context_expected v) (mkState (v :: rest) w).
Proof.
  intros Hv. unfold ctx_getcontext. apply bind_err, run_checkctx_bad, Hv.
Qed.

(** X10.  Every method checks its receiver first.  Called with a first
    argument that is not an SSL context (no userdata, or a userdata
    with another metatable), each of them raises the argument error
    "SSL:Context expected, got ..." on argument 1, whatever the other
    arguments are, and leaves the world untouched; so does
    [ctx_getmode].  This holds for the three loaders whatever the
    engine is. *)
Theorem receiver_is_checked_first (tbl : list ssl_option_t)
    (E1 : option nat -> option string -> option string -> World -> option (Z * World))
    (E2 E3 : option nat -> string -> World -> option (Z * World))
    (w : World) (v : lua_value) (rest : list lua_value) :
  not_a_context w v ->
  let raised f := lua_cfunction_call f (v :: rest) w
                  = Raised (context_expected v) w in
  raised set_verify /\ raised (set_options tbl) /\ raised set_mode /\
  raised set_session_cache_mode /\ raised load_key /\ raised meth_destroy /\
  raised (load_locations E1) /\ raised (load_cert E2) /\
  raised (set_cipher E3) /\
  ctx_getmode 1 (mkState (v :: rest) w)
  = Err (context_expected v) (mkState (v :: rest) w).
Proof.
  intros Hv raised. subst raised. cbv beta.
  pose proof (run_checkctx_bad v rest w Hv) as Hc.
  pose proof (run_ctx_getcontext_bad v rest w Hv) as Hg.
  repeat split; unfold lua_cfunction_call;
    try (unfold set_verify, set_options, set_session_cache_mode, load_key,
           load_locations, load_cert, set_cipher;
         rewrite (bind_err _ _ _ _ _ Hg); reflexivity);
    try (unfold set_mode, meth_destroy;
         rewrite (bind_err _ _ _ _ _ Hc); reflexivity).
  unfold ctx_getmode. apply bind_err, Hc.
Qed.

Lemma receiver_is_checked_first_witness :
  lua_cfunction_call set_verify [LString "h"; LString "peer"] sample_world
  = Raised (ArgError 1 "SSL:Context expected, got string") sample_world /\
  lua_cfunction_call meth_destroy [LNil] sample_world
  = Raised (ArgError 1 "SSL:Context expected, got nil") sample_world.
Proof.
  split.
  - apply (receiver_is_checked_first sample_options
             (fun _ _ _ => accept) (fun _ _ => accept) (fun _ _ => accept)
             sample_world (LString "h") [LString "peer"] I).
  - apply (receiver_is_checked_first sample_options
             (fun _ _ _ => accept) (fun _ _ => accept) (fun _ _ => accept)
             sample_world LNil [] I).
Defined.

Lemma for_steps_add {A R : Type} (n k : nat) (i : Z)
    (body : Z -> A -> M (A + R)) (acc : A) (s : lua_State) :
  for_steps (n + k) i body acc s
  = match for_steps n i body acc s with
    | Ok (inl acc') s' => for_steps k (i + Z.of_nat n) body acc' s'
    | Ok (inr v) s' => Ok (inr v) s'
    | Err e s' => Err e s'
    | Fault => Fault
    end.
Proof.
  revert i acc s. induction n as [|n IH]; intros i acc s.
  - cbn [Nat.add for_steps]. unfold ret. rewrite Z.add_0_r. reflexivity.
  - cbn [Nat.add for_steps]. unfold bind.
    destruct (body i acc s) as [[acc'|v] s'|e s'|]; try reflexivity.
    rewrite IH. replace (i + 1 + Z.of_nat n) with (i + Z.of_nat (S n)) by lia.
    reflexivity.
Qed.

Lemma string_args_lookup (h : nat) (pre rest : list string) (t : string)
    (tail : list lua_value) :
  (LUserdata h :: map LString (pre ++ t :: rest) ++ tail) !! S (length pre)
  = Some (LString t).
Proof.
  change ((map LString (pre ++ t :: rest) ++ tail) !! length pre
          = Some (LString t)).
  rewrite map_app, <- app_assoc.
  rewrite lookup_app_r by (rewrite length_map; lia).
  rewrite length_map, Nat.sub_diag. reflexivity.
Qed.

(** The flag loop over string tokens that are followed by further
    arguments of any kind. *)
Lemma flag_loop_tail (resolve : string -> Z -> Z * Z) (msg : string)
    (h : nat) (w : World) (tail : list lua_value)
    (rest pre : list string) (flag : Z) :
  let st := LUserdata h :: map LString (pre ++ rest) ++ tail in
  for_steps (length rest) (Z.of_nat (2 + length pre))
            (flag_loop_body resolve msg) flag (mkState st w)
  = match token_mask resolve rest flag with
    | Some f => Ok (inl f) (mkState st w)
    | None =>
        Ok (inr 2) (mkState (st ++ [LBoolean false; LString (c_str msg)]) w)
    end.
Proof.
  revert pre flag. induction rest as [|t rest IH]; intros pre flag st.
  - reflexivity.
  - cbn [length for_steps token_mask].
    unfold bind at 1. unfold flag_loop_body at 1.
    rewrite (bind_ok _ _ _ _ _
               (run_checkstring _ w (S (length pre)) t
                  (string_args_lookup h pre rest t tail))).
    destruct (resolve t flag) as [ok flag'].
    destruct (ok =? 0).
    + subst st. run_pushes. rewrite <- app_assoc. reflexivity.
    + unfold ret at 1. subst st.
      replace (Z.of_nat (2 + length pre) + 1)
        with (Z.of_nat (2 + length (pre ++ [t])))
        by (rewrite length_app; simpl; lia).
      replace (pre ++ t :: rest) with ((pre ++ [t]) ++ rest)
        by (rewrite <- app_assoc; reflexivity).
      apply IH.
Qed.

Lemma run_checkstring_bad (st : list lua_value) (w : World) (i : nat)
    (v : lua_value) :
  st !! i = Some v ->
  type_of v <> LUA_TSTRING -> type_of v <> LUA_TNUMBER ->
  luaL_checkstring (Z.of_nat (S i)) (mkState st w)
  = Err (string_expected (Z.of_nat (S i)) v) (mkState st w).
Proof.
  intros H Hs Hn. pose proof (lookup_lt_Some _ _ _ H) as Hlt.
  unfold luaL_checkstring, lua_tostring, bind at 1, bind at 1, get_stack at 1.
  cbn [stack]. rewrite (index2adr_arg _ _ Hlt), H.
  assert (Hty : luaL_typerror (A := string) (Z.of_nat (S i))
                  (lua_typename LUA_TSTRING) (mkState st w)
                = Err (string_expected (Z.of_nat (S i)) v) (mkState st w)).
  { unfold luaL_typerror, lua_type, bind, get_stack, ret. cbn [stack].
    rewrite (value_at_arg _ _ _ H). reflexivity. }
  destruct v; cbn [type_of] in *; try congruence; exact Hty.
Qed.

(** The flag loop when the argument after the string tokens [pre], all
    of them resolved, is neither a string nor a number. *)
Lemma flag_loop_bad_type (resolve : string -> Z -> Z * Z) (msg : string)
    (h : nat) (w : World) (pre : list string) (v : lua_value)
    (rest : list lua_value) (f : Z) :
  token_mask resolve pre 0 = Some f ->
  type_of v <> LUA_TSTRING -> type_of v <> LUA_TNUMBER ->
  let st := LUserdata h :: map LString pre ++ v :: rest in
  for_steps (length pre + S (length rest)) 2 (flag_loop_body resolve msg) 0
            (mkState st w)
  = Err (string_expected (2 + Z.of_nat (length pre)) v) (mkState st w).
Proof.
  intros Hmask Hs Hn st. rewrite for_steps_add.
  pose proof (flag_loop_tail resolve msg h w (v :: rest) pre [] 0) as Hl.
  cbn [app length Nat.add] in Hl. change (Z.of_nat 2) with 2 in Hl.
  cbv zeta in Hl. fold st in Hl. rewrite Hl, Hmask.
  cbn [for_steps]. unfold bind at 1. unfold flag_loop_body at 1.
  assert (Hv : st !! S (length pre) = Some v).
  { subst st. rewrite <- (length_map LString pre). apply args_lookup. }
  pose proof (run_checkstring_bad st w (S (length pre)) v Hv Hs Hn) as Hc.
  replace (Z.of_nat (S (S (length pre)))) with (2 + Z.of_nat (length pre))
    in Hc by lia.
  rewrite (bind_err _ _ _ _ _ Hc). reflexivity.
Qed.

(** X11.  A token of [set_verify] or [set_options] that is neither a
    string nor a number (nil, a boolean, a table, ...), coming after
    string tokens that all resolve, raises the argument error "string
    expected, got ..." on its own index; nothing is committed, the
    flags resolved before it included. *)
Theorem flag_setters_token_type (tbl : list ssl_option_t) (w : World) (h : nat)
    (pre : list string) (v : lua_value) (rest : list lua_value) :
  is_handle w h ->
  type_of v <> LUA_TSTRING -> type_of v <> LUA_TNUMBER ->
  let args := LUserdata h :: map LString pre ++ v :: rest in
  let err := string_expected (2 + Z.of_nat (length pre)) v in
  (Forall (fun t => verify_token_ok t = true) pre ->
   lua_cfunction_call set_verify args w = Raised err w) /\
  (Forall (fun t => option_token_ok tbl t = true) pre ->
   lua_cfunction_call (set_options tbl) args w = Raised err w).
Proof.
  intros (blk & Hb & Hm) Hs Hn args err.
  assert (Hall : forall resolve,
    (forall t f, resolve t f
                 = (fst (resolve t 0), Z.lor f (snd (resolve t 0)))) ->
    Forall (fun t => negb (fst (resolve t 0) =? 0) = true) pre ->
    exists f, token_mask resolve pre 0 = Some f).
  { intros resolve Hacc Hok. generalize 0.
    induction Hok as [|t ts Ht _ IH]; intros f0; [exists f0; reflexivity|].
    rewrite (token_mask_cons resolve Hacc). apply negb_true_iff in Ht.
    rewrite Ht. apply IH. }
  assert (Htop : Z.of_nat (length args)
                 = 1 + Z.of_nat (length pre + S (length rest))).
  { unfold args. cbn [length]. rewrite length_app, length_map. cbn [length].
    lia. }
  split; intros Hok.
  - destruct (Hall set_verify_flag set_verify_flag_acc Hok) as [f Hf].
    unfold lua_cfunction_call, set_verify.
    erewrite bind_ok by exact (run_ctx_getcontext h _ w blk Hb Hm).
    unfold bind at 1. unfold lua_gettop at 1, bind at 1, get_stack at 1, ret at 1.
    cbn [stack]. fold args. rewrite Htop.
    replace (1 <? 1 + Z.of_nat (length pre + S (length rest))) with true
      by (symmetry; apply Z.ltb_lt; lia).
    unfold bind at 1, for_range.
    replace (Z.to_nat (1 + Z.of_nat (length pre + S (length rest)) - 2 + 1))
      with (length pre + S (length rest))%nat by lia.
    change (for_steps ?n 2 ?b 0 ?s)
      with (for_steps n 2 (flag_loop_body set_verify_flag
                             "invalid verify option") 0 s).
    unfold args.
    rewrite (flag_loop_bad_type set_verify_flag _ h w pre v rest f Hf Hs Hn).
    reflexivity.
  - destruct (Hall (set_option_flag tbl) (set_option_flag_acc tbl) Hok)
      as [f Hf].
    unfold lua_cfunction_call, set_options.
    erewrite bind_ok by exact (run_ctx_getcontext h _ w blk Hb Hm).
    unfold bind at 1. unfold lua_gettop at 1, bind at 1, get_stack at 1, ret at 1.
    cbn [stack]. fold args. rewrite Htop.
    replace (1 <? 1 + Z.of_nat (length pre + S (length rest))) with true
      by (symmetry; apply Z.ltb_lt; lia).
    unfold bind at 1, for_range.
    replace (Z.to_nat (1 + Z.of_nat (length pre + S (length rest)) - 2 + 1))
      with (length pre + S (length rest))%nat by lia.
    change (for_steps ?n 2 ?b 0 ?s)
      with (for_steps n 2 (flag_loop_body (set_option_flag tbl)
                             "invalid option") 0 s).
    unfold args.
    rewrite (flag_loop_bad_type (set_option_flag tbl) _ h w pre v rest f Hf
               Hs Hn).
    reflexivity.
Qed.

Lemma flag_setters_token_type_witness :
  lua_cfunction_call set_verify
    (LUserdata 0 :: map LString ["peer"] ++ LBoolean true :: [LString "none"])
    sample_world
  = Raised (ArgError 3 "string expected, got boolean") sample_world /\
  lua_cfunction_call (set_options sample_options)
    (LUserdata 0 :: map LString ["all"] ++ LNil :: []) sample_world
  = Raised (ArgError 3 "string expected, got nil") sample_world.
Proof.
  split.
  - apply (proj1 (flag_setters_token_type sample_options sample_world 0
                    ["peer"] (LBoolean true) [LString "none"]
                    sample_is_handle ltac:(discriminate) ltac:(discriminate))).
    repeat constructor.
  - apply (proj2 (flag_setters_token_type sample_options sample_world 0
                    ["all"] LNil [] sample_is_handle
                    ltac:(discriminate) ltac:(discriminate))).
    repeat constructor.
Defined.

(** ** [passwd_cb]: the three strategies *)

Lemma passwd_cb_function_string (a b : lua_value) (pw : string) (w : World)
    (buf : list ascii) (size flag : Z) :
  0 < size -> size <= Z.of_nat (length buf) ->
  passwd_cb buf size flag (mkState [a; b; LFunction (LString pw)] w)
  = Ok (Z.of_nat (Nat.min (String.length (c_str pw)) (Z.to_nat size - 1)),
        copied buf pw size)
       (mkState [a; b; LFunction (LString pw); LString pw] w).
Proof.
  intros Hs Hl. unfold passwd_cb.
  erewrite bind_ok
    by exact (run_lua_type [a; b; LFunction (LString pw)] w 2 _ eq_refl).
  cbn [type_of].
  change ((lua_pushvalue 3 ;;; lua_call_0_1 ;;;
           t' <- lua_type (-1) ;;
           match t' with
           | LUA_TSTRING => passwd_copy buf size
           | _ => ret (0, buf)
           end) (mkState [a; b; LFunction (LString pw)] w))
    with (passwd_copy buf size
            (mkState [a; b; LFunction (LString pw); LString pw] w)).
  unfold passwd_copy.
  erewrite bind_ok
    by exact (eq_refl : lua_tostring (-1)
                          (mkState [a; b; LFunction (LString pw); LString pw] w)
                        = Ok (Some pw) _).
  replace (size <=? 0) with false by (symmetry; apply Z.leb_gt; lia).
  replace (Z.of_nat (length buf) <? size) with false
    by (symmetry; apply Z.ltb_ge; lia).
  cbn [orb]. unfold copied.
  replace (Z.to_nat (size - 1)) with (Z.to_nat size - 1)%nat by lia.
  destruct (passwd_buffer buf pw (Z.to_nat size)) as (_ & _ & _ & Hlen);
    [lia | lia |].
  rewrite Hlen. reflexivity.
Qed.

Lemma passwd_cb_function_other (a b v : lua_value) (w : World)
    (buf : list ascii) (size flag : Z) :
  type_of v <> LUA_TSTRING ->
  passwd_cb buf size flag (mkState [a; b; LFunction v] w)
  = Ok (0, buf) (mkState [a; b; LFunction v; v] w).
Proof.
  intros Hv. unfold passwd_cb.
  erewrite bind_ok by exact (run_lua_type [a; b; LFunction v] w 2 _ eq_refl).
  cbn [type_of].
  destruct v; cbn [type_of] in Hv; try congruence; reflexivity.
Qed.

Lemma passwd_cb_no_password (st : list lua_value) (w : World)
    (buf : list ascii) (size flag : Z) :
  match value_at 3 st with
  | Some v => type_of v <> LUA_TSTRING /\ type_of v <> LUA_TFUNCTION
  | None => True
  end ->
  passwd_cb buf size flag (mkState st w) = Ok (0, buf) (mkState st w).
Proof.
  intros Hv. unfold passwd_cb, lua_type, bind at 1, bind at 1, get_stack at 1.
  cbn [stack]. unfold ret at 1.
  destruct (value_at 3 st) as [v|]; [|reflexivity].
  destruct Hv as [Hs Hf].
  destruct v; cbn [type_of] in *; try congruence; reflexivity.
Qed.

Lemma passwd_cb_string_any (a b : lua_value) (pw : string) (w : World)
    (buf : list ascii) (size flag : Z) :
  0 < size -> size <= Z.of_nat (length buf) ->
  passwd_cb buf size flag (mkState [a; b; LString pw] w)
  = Ok (Z.of_nat (Nat.min (String.length (c_str pw)) (Z.to_nat size - 1)),
        copied buf pw size)
       (mkState [a; b; LString pw] w).
Proof.
  intros Hs Hl. unfold passwd_cb.
  erewrite bind_ok by exact (run_lua_type [a; b; LString pw] w 2 _ eq_refl).
  cbn [type_of]. unfold passwd_copy.
  erewrite bind_ok by exact (run_tostring_top3 a b pw w).
  replace (size <=? 0) with false by (symmetry; apply Z.leb_gt; lia).
  replace (Z.of_nat (length buf) <? size) with false
    by (symmetry; apply Z.ltb_ge; lia).
  cbn [orb]. unfold copied.
  replace (Z.to_nat (size - 1)) with (Z.to_nat size - 1)%nat by lia.
  destruct (passwd_buffer buf pw (Z.to_nat size)) as (_ & _ & _ & Hlen);
    [lia | lia |].
  rewrite Hlen. reflexivity.
Qed.

Lemma copied_tail (buf : list ascii) (pw : string) (size : Z) :
  0 < size -> size <= Z.of_nat (length buf) ->
  drop (Z.to_nat size) (copied buf pw size) = drop (Z.to_nat size) buf.
Proof.
  intros Hs Hl. unfold copied, strncpy.
  rewrite drop_insert_lt by lia.
  apply drop_app_length'.
  rewrite length_take, length_app, length_replicate. lia.
Qed.

(** X12.  [passwd_cb] stays inside the buffer it was given: with the
    password string as third argument and a buffer of at least [size]
    > 0 bytes, the length it returns is less than [size], what it
    leaves in the buffer is a C string of exactly that length, and the
    bytes of the buffer from [size] on are not written. *)
Theorem passwd_cb_within_size (w : World) (a b : lua_value) (pw : string)
    (buf : list ascii) (size flag : Z) :
  0 < size ->
  size <= Z.of_nat (length buf) ->
  exists n buf',
    passwd_cb buf size flag (mkState [a; b; LString pw] w)
    = Ok (n, buf') (mkState [a; b; LString pw] w) /\
    0 <= n < size /\
    strlen buf' = Some (Z.to_nat n) /\
    drop (Z.to_nat size) buf' = drop (Z.to_nat size) buf.
Proof.
  intros Hs Hl.
  exists (Z.of_nat (Nat.min (String.length (c_str pw)) (Z.to_nat size - 1))),
         (copied buf pw size).
  split; [|split; [lia|split]].
  - apply passwd_cb_string_any; assumption.
  - rewrite Nat2Z.id. unfold copied.
    replace (Z.to_nat (size - 1)) with (Z.to_nat size - 1)%nat by lia.
    destruct (passwd_buffer buf pw (Z.to_nat size)) as (_ & _ & _ & Hlen);
      [lia | lia | exact Hlen].
  - apply copied_tail; assumption.
Qed.

Lemma passwd_cb_within_size_witness :
  exists n buf',
    passwd_cb (replicate 6 "x"%char) 4 0
              (mkState [LUserdata 0; LString "locked.pem"; LString "secret"]
                       sample_world)
    = Ok (n, buf')
         (mkState [LUserdata 0; LString "locked.pem"; LString "secret"]
                  sample_world) /\
    0 <= n < 4 /\
    strlen buf' = Some (Z.to_nat n) /\
    drop 4 buf' = ["x"%char; "x"%char].
Proof.
  apply (passwd_cb_within_size sample_world (LUserdata 0) (LString "locked.pem")
           "secret" (replicate 6 "x"%char) 4 0); [reflexivity | discriminate].
Defined.

(** X13.  The on-demand strategy and the absent one.  When the third
    argument is a function, [passwd_cb] calls it: if it yields a string
    the hook answers what it answers for that string given directly,
    and if it yields anything else the hook answers 0 and leaves the
    buffer alone; either way the value yielded stays on the Lua stack.
    When the third argument is absent or neither a string nor a
    function, the hook answers 0 and touches neither buffer nor stack. *)
Theorem passwd_cb_strategies (w : World) (a b : lua_value)
    (buf : list ascii) (size flag : Z) :
  (forall pw, 0 < size -> size <= Z.of_nat (length buf) ->
     exists r,
       passwd_cb buf size flag (mkState [a; b; LString pw] w)
       = Ok r (mkState [a; b; LString pw] w) /\
       passwd_cb buf size flag (mkState [a; b; LFunction (LString pw)] w)
       = Ok r (mkState [a; b; LFunction (LString pw); LString pw] w)) /\
  (forall v, type_of v <> LUA_TSTRING ->
     passwd_cb buf size flag (mkState [a; b; LFunction v] w)
     = Ok (0, buf) (mkState [a; b; LFunction v; v] w)) /\
  (forall v, type_of v <> LUA_TSTRING -> type_of v <> LUA_TFUNCTION ->
     passwd_cb buf size flag (mkState [a; b; v] w)
     = Ok (0, buf) (mkState [a; b; v] w)) /\
  passwd_cb buf size flag (mkState [a; b] w) = Ok (0, buf) (mkState [a; b] w).
Proof.
  split; [|split; [|split]].
  - intros pw Hs Hl. eexists. split.
    + apply passwd_cb_string_any; assumption.
    + apply passwd_cb_function_string; assumption.
  - intros v Hv. apply passwd_cb_function_other, Hv.
  - intros v Hs Hf. apply passwd_cb_no_password.
    change (value_at 3 [a; b; v]) with (Some v). split; assumption.
  - apply passwd_cb_no_password. exact I.
Qed.

Lemma passwd_cb_strategies_witness :
  (exists r,
     passwd_cb (replicate 8 "x"%char) 8 0
       (mkState [LUserdata 0; LString "k"; LString "secret"] sample_world)
     = Ok r (mkState [LUserdata 0; LString "k"; LString "secret"] sample_world) /\
     passwd_cb (replicate 8 "x"%char) 8 0
       (mkState [LUserdata 0; LString "k"; LFunction (LString "secret")]
                sample_world)
     = Ok r (mkState [LUserdata 0; LString "k"; LFunction (LString "secret");
                      LString "secret"] sample_world)) /\
  passwd_cb (replicate 8 "x"%char) 8 0
    (mkState [LUserdata 0; LString "k"; LFunction (LNumber "42")] sample_world)
  = Ok (0, replicate 8 "x"%char)
       (mkState [LUserdata 0; LString "k"; LFunction (LNumber "42"); LNumber "42"]
                sample_world) /\
  passwd_cb (replicate 8 "x"%char) 8 0
    (mkState [LUserdata 0; LString "k"; LNil] sample_world)
  = Ok (0, replicate 8 "x"%char)
       (mkState [LUserdata 0; LString "k"; LNil] sample_world).
Proof.
  destruct (passwd_cb_strategies sample_world (LUserdata 0) (LString "k")
              (replicate 8 "x"%char) 8 0) as (H1 & H2 & H3 & _).
  split; [|split].
  - apply H1; [reflexivity | discriminate].
  - apply H2. discriminate.
  - apply H3; discriminate.
Defined.

(** ** [load_key]: the hook does not outlive the call *)

Lemma passwd_cb_total (a b v : lua_value) (w : World) :
  exists n buf st',
    passwd_cb (replicate (Z.to_nat PEM_BUFSIZE) zero) PEM_BUFSIZE 0
              (mkState [a; b; v] w)
    = Ok (n, buf) (mkState st' w).
Proof.
  assert (Hs : 0 < PEM_BUFSIZE) by reflexivity.
  assert (Hl : PEM_BUFSIZE
               <= Z.of_nat (length (replicate (Z.to_nat PEM_BUFSIZE) zero)))
    by (rewrite length_replicate; vm_compute; discriminate).
  destruct v as [| | | |pw| |y| |];
    try (do 3 eexists; apply passwd_cb_no_password;
         change (value_at 3 [a; b; ?x]) with (Some x);
         split; discriminate).
  - do 3 eexists. apply passwd_cb_string_any; assumption.
  - destruct y as [| | | |pw| | | |];
      try (do 3 eexists; apply passwd_cb_function_other; discriminate).
    do 3 eexists. apply passwd_cb_function_string; assumption.
Qed.

(** The engine's key load on a live context whose hook, if installed,
    answers: it returns, having changed nothing but the stack and the
    error queue. *)
Lemma use_key_run (p : nat) (path : string) (st : list lua_value)
    (u : list userdata) (cs : list (option SSL_CTX)) (av : nat)
    (fl : list nat) (kf : list (string * pem_key)) (q : list string)
    (cA : SSL_CTX) :
  cs !! p = Some (Some cA) ->
  (forall w, exists n buf st',
     passwd_cb (replicate (Z.to_nat PEM_BUFSIZE) zero) PEM_BUFSIZE 0
               (mkState st w)
     = Ok (n, buf) (mkState st' w)) ->
  exists r st' q',
    SSL_CTX_use_PrivateKey_file (Some p) path passwd_cb
      (mkState st (mkWorld u cs av fl kf q))
    = Ok r (mkState st' (mkWorld u cs av fl kf q')).
Proof.
  intros Hc Hhook. unfold SSL_CTX_use_PrivateKey_file.
  unfold bind at 1, deref at 1, bind at 1, get_world at 1.
  cbn [world ctxs]. rewrite Hc. unfold ret at 1.
  unfold bind at 1, get_world at 1. cbn [world keyfiles].
  assert (Hfail : forall reason st0 q0,
    exists r st' q',
      (ERR_put_error reason ;;; ret 0) (mkState st0 (mkWorld u cs av fl kf q0))
      = Ok r (mkState st' (mkWorld u cs av fl kf q'))).
  { intros reason st0 q0. do 3 eexists. reflexivity. }
  destruct (find_key kf path) as [[|pass]|].
  - do 3 eexists. reflexivity.
  - destruct (default_passwd_cb cA); [|apply Hfail].
    destruct (Hhook (mkWorld u cs av fl kf q)) as (n & buf & st' & Hcb).
    rewrite (bind_ok _ _ _ _ _ Hcb). cbv beta iota.
    destruct (n <=? 0); [apply Hfail|].
    destruct (String.eqb _ pass); [|apply Hfail].
    do 3 eexists. reflexivity.
  - apply Hfail.
Qed.

(** What [load_key] does after the engine answered: it pushes true, or
    false and a message, and clears both hook slots. *)
Lemma load_key_tail (r : Z) (p : nat) (st : list lua_value)
    (u : list userdata) (cs : list (option SSL_CTX)) (av : nat)
    (fl : list nat) (kf : list (string * pem_key)) (q : list string)
    (cA : SSL_CTX) :
  cs !! p = Some (Some cA) ->
  exists n top q',
    (n <- (if r =? 1 then lua_pushboolean 1 ;;; ret 1
           else
             lua_pushboolean 0 ;;;
             e <- ERR_get_error ;;
             lua_pushfstring "error loading private key ("
                             (ERR_reason_error_string e) ")" ;;;
             ret 2) ;;
     SSL_CTX_set_default_passwd_cb (Some p) false ;;;
     SSL_CTX_set_default_passwd_cb_userdata (Some p) false ;;;
     ret n) (mkState st (mkWorld u cs av fl kf q))
    = Ok n (mkState (st ++ top)
              (mkWorld u (<[p := Some (with_passwd_cb_userdata false
                                         (with_passwd_cb false cA))]> cs)
                       av fl kf q')) /\
    Z.to_nat n = length top /\
    (top = [LBoolean true] \/ exists msg, top = [LBoolean false; LString msg]).
Proof.
  intros Hc. pose proof (lookup_lt_Some _ _ _ Hc) as Hlt.
  assert (Hclear : forall (n : Z) st0 q0,
    (SSL_CTX_set_default_passwd_cb (Some p) false ;;;
     SSL_CTX_set_default_passwd_cb_userdata (Some p) false ;;;
     ret n) (mkState st0 (mkWorld u cs av fl kf q0))
    = Ok n (mkState st0
              (mkWorld u (<[p := Some (with_passwd_cb_userdata false
                                         (with_passwd_cb false cA))]> cs)
                       av fl kf q0))).
  { intros n st0 q0.
    unfold SSL_CTX_set_default_passwd_cb, SSL_CTX_set_default_passwd_cb_userdata.
    unfold bind at 1. rewrite run_update. unfold commit. cbn [ctxs]. rewrite Hc.
    unfold bind at 1. rewrite run_update. unfold commit. cbn [ctxs with_ctxs].
    rewrite list_lookup_insert_eq by exact Hlt.
    rewrite list_insert_insert_eq. reflexivity. }
  destruct (r =? 1).
  - exists 1, [LBoolean true], q. split; [|split; [reflexivity | now left]].
    unfold bind at 1.
    change ((lua_pushboolean 1 ;;; ret 1) (mkState st (mkWorld u cs av fl kf q)))
      with (Ok 1 (mkState (st ++ [LBoolean true]) (mkWorld u cs av fl kf q))).
    apply Hclear.
  - destruct q as [|e q].
    + exists 2, [LBoolean false; LString "error loading private key ((null))"], [].
      split; [|split; [reflexivity | right; eexists; reflexivity]].
      unfold bind at 1.
      change ((lua_pushboolean 0 ;;;
               e <- ERR_get_error ;;
               lua_pushfstring "error loading private key ("
                               (ERR_reason_error_string e) ")" ;;;
               ret 2) (mkState st (mkWorld u cs av fl kf [])))
        with (Ok 2 (mkState
                      ((st ++ [LBoolean false])
                       ++ [LString "error loading private key ((null))"])
                      (mkWorld u cs av fl kf []))).
      rewrite <- app_assoc. apply Hclear.
    + exists 2,
        [LBoolean false;
         LString ("error loading private key (" ++ c_str e ++ ")")%string], q.
      split; [|split; [reflexivity | right; eexists; reflexivity]].
      unfold bind at 1.
      change ((lua_pushboolean 0 ;;;
               e0 <- ERR_get_error ;;
               lua_pushfstring "error loading private key ("
                               (ERR_reason_error_string e0) ")" ;;;
               ret 2) (mkState st (mkWorld u cs av fl kf (e :: q))))
        with (Ok 2 (mkState
                      ((st ++ [LBoolean false])
                       ++ [LString ("error loading private key ("
                                    ++ c_str e ++ ")")%string])
                      (mkWorld u cs av fl kf q))).
      rewrite <- app_assoc. apply Hclear.
Qed.

Lemma load_key_file_run (p : nat) (path : string) (a b v : lua_value)
    (u : list userdata) (cs : list (option SSL_CTX)) (av : nat)
    (fl : list nat) (kf : list (string * pem_key)) (q : list string)
    (cA : SSL_CTX) :
  cs !! p = Some (Some cA) ->
  exists n st' top q',
    load_key_file (Some p) path (mkState [a; b; v] (mkWorld u cs av fl kf q))
    = Ok n (mkState (st' ++ top)
              (mkWorld u (<[p := Some (with_passwd_cb_userdata false
                                         (with_passwd_cb false cA))]> cs)
                       av fl kf q')) /\
    Z.to_nat n = length top /\
    (top = [LBoolean true] \/ exists msg, top = [LBoolean false; LString msg]).
Proof.
  intros Hc. unfold load_key_file.
  destruct (use_key_run p path [a; b; v] u cs av fl kf q cA Hc
              (passwd_cb_total a b v)) as (r & st' & q' & Hr).
  rewrite (bind_ok _ _ _ _ _ Hr).
  destruct (load_key_tail r p st' u cs av fl kf q' cA Hc)
    as (n & top & q'' & Ht & Hn & Htop).
  exists n, st', top, q''. split; [exact Ht | split; assumption].
Qed.

Lemma results_top (st top : list lua_value) (n : Z) :
  Z.to_nat n = length top ->
  drop (length (st ++ top) - Z.to_nat n) (st ++ top) = top.
Proof.
  intros ->. rewrite length_app.
  replace (length st + length top - length top)%nat with (length st) by lia.
  apply drop_app_length.
Qed.

(** [load_key] on a live handle when the third argument is nil, a
    string or a function that returns. *)
Lemma load_key_returns_cleared (w : World) (h p : nat) (c : SSL_CTX)
    (path : string) (v : lua_value) :
  live_handle w h p c ->
  type_of v = LUA_TNIL \/ type_of v = LUA_TSTRING \/ type_of v = LUA_TFUNCTION ->
  exists vs w',
    lua_cfunction_call load_key [LUserdata h; LString path; v] w
    = Returned vs w' /\
    (vs = [LBoolean true] \/ exists msg, vs = [LBoolean false; LString msg]) /\
    engine_ctx w' h
    = Some (with_passwd_cb_userdata false (with_passwd_cb false c)) /\
    udata w' = udata w /\
    (forall p', p' <> p -> ctxs w' !! p' = ctxs w !! p').
Proof.
  intros (blk & Hb & Hm & Hp & Hc) Hv.
  pose proof (lookup_lt_Some _ _ _ Hc) as Hlt.
  destruct w as [u cs av fl kf q]. cbn [udata ctxs] in *.
  unfold lua_cfunction_call, load_key.
  rewrite (load_key_prologue h (mkWorld u cs av fl kf q) blk path [v]
             (fun ctx filename t =>
                match t with
                | LUA_TSTRING | LUA_TFUNCTION =>
                    SSL_CTX_set_default_passwd_cb ctx true ;;;
                    SSL_CTX_set_default_passwd_cb_userdata ctx true ;;;
                    load_key_file ctx filename
                | LUA_TNIL => load_key_file ctx filename
                | _ => lua_pushstring "invalid callback value" ;;; lua_error
                end) Hb Hm).
  rewrite Hp.
  set (c1 := with_passwd_cb_userdata true (with_passwd_cb true c)).
  assert (Hinstall :
    (SSL_CTX_set_default_passwd_cb (Some p) true ;;;
     SSL_CTX_set_default_passwd_cb_userdata (Some p) true ;;;
     load_key_file (Some p) path)
      (mkState [LUserdata h; LString path; v] (mkWorld u cs av fl kf q))
    = load_key_file (Some p) path
        (mkState [LUserdata h; LString path; v]
                 (mkWorld u (<[p := Some c1]> cs) av fl kf q))).
  { unfold SSL_CTX_set_default_passwd_cb, SSL_CTX_set_default_passwd_cb_userdata.
    unfold bind at 1. rewrite run_update. unfold commit. cbn [ctxs]. rewrite Hc.
    unfold bind at 1. rewrite run_update. unfold commit. cbn [ctxs with_ctxs].
    rewrite list_lookup_insert_eq by exact Hlt.
    rewrite list_insert_insert_eq. reflexivity. }
  assert (Hc1 : <[p := Some c1]> cs !! p = Some (Some c1))
    by (apply list_lookup_insert_eq; exact Hlt).
  assert (Hdone : forall cs0 cA n st' top q',
    cs0 !! p = Some (Some cA) ->
    (forall p', p' <> p -> cs0 !! p' = cs !! p') ->
    with_passwd_cb_userdata false (with_passwd_cb false cA)
    = with_passwd_cb_userdata false (with_passwd_cb false c) ->
    Z.to_nat n = length top ->
    (top = [LBoolean true] \/ exists msg, top = [LBoolean false; LString msg]) ->
    let w' := mkWorld u (<[p := Some (with_passwd_cb_userdata false
                                        (with_passwd_cb false cA))]> cs0)
                      av fl kf q' in
    exists vs w'0,
      Returned (drop (length (st' ++ top) - Z.to_nat n) (st' ++ top)) w'
      = Returned vs w'0 /\
      (vs = [LBoolean true] \/ exists msg, vs = [LBoolean false; LString msg]) /\
      engine_ctx w'0 h
      = Some (with_passwd_cb_userdata false (with_passwd_cb false c)) /\
      udata w'0 = u /\
      (forall p', p' <> p -> ctxs w'0 !! p' = cs !! p')).
  { intros cs0 cA n st' top q' H0 Hframe Hsame Hn Htop w'.
    exists top, w'. rewrite (results_top st' top n Hn).
    split; [reflexivity|]. split; [exact Htop|].
    split; [|split; [reflexivity|]].
    - unfold engine_ctx, w'. cbn [udata ctxs]. rewrite Hb, Hp.
      rewrite list_lookup_insert_eq by (eapply lookup_lt_Some; exact H0).
      rewrite Hsame. reflexivity.
    - intros p' Hne. unfold w'. cbn [ctxs].
      rewrite list_lookup_insert_ne by congruence. apply Hframe, Hne. }
  destruct v; cbn [type_of] in Hv |- *;
    try (exfalso; destruct Hv as [Hv|[Hv|Hv]]; discriminate).
  - destruct (load_key_file_run p path (LUserdata h) (LString path) LNil
                u cs av fl kf q c Hc) as (n & st' & top & q' & Hr & Hn & Htop).
    rewrite Hr. apply (Hdone cs c); auto.
  - rewrite Hinstall.
    destruct (load_key_file_run p path (LUserdata h) (LString path) (LString s)
                u _ av fl kf q c1 Hc1) as (n & st' & top & q' & Hr & Hn & Htop).
    rewrite Hr. apply (Hdone _ c1); auto.
    intros p' Hne. apply list_lookup_insert_ne. congruence.
  - rewrite Hinstall.
    destruct (load_key_file_run p path (LUserdata h) (LString path)
                (LFunction v) u _ av fl kf q c1 Hc1)
      as (n & st' & top & q' & Hr & Hn & Htop).
    rewrite Hr. apply (Hdone _ c1); auto.
    intros p' Hne. apply list_lookup_insert_ne. congruence.
Qed.

(** X14.  [load_key] installs the password hook for the length of the
    call only.  On a live handle, with nil or a string as third
    argument, the call returns either true or false and a message, and
    whichever it is, both hook slots of the context are NULL afterwards
    and nothing else of the context, of the handles or of the other
    contexts has changed. *)
Theorem load_key_clears_hook (w : World) (h p : nat) (c : SSL_CTX)
    (path : string) (v : lua_value) :
  live_handle w h p c ->
  v = LNil \/ (exists pw, v = LString pw) ->
  exists vs w',
    lua_cfunction_call load_key [LUserdata h; LString path; v] w
    = Returned vs w' /\
    (vs = [LBoolean true] \/ exists msg, vs = [LBoolean false; LString msg]) /\
    engine_ctx w' h
    = Some (with_passwd_cb_userdata false (with_passwd_cb false c)) /\
    udata w' = udata w /\
    (forall p', p' <> p -> ctxs w' !! p' = ctxs w !! p').
Proof.
  intros Hl Hv. apply load_key_returns_cleared; [exact Hl|].
  destruct Hv as [->|[pw ->]]; [left | right; left]; reflexivity.
Qed.

Lemma load_key_clears_hook_witness :
  exists vs w',
    lua_cfunction_call load_key
      [LUserdata 0; LString "locked.pem"; LString "wrong"] sample_world
    = Returned vs w' /\
    (vs = [LBoolean true] \/ exists msg, vs = [LBoolean false; LString msg]) /\
    engine_ctx w' 0
    = Some (with_passwd_cb_userdata false (with_passwd_cb false sample_ctx)) /\
    udata w' = udata sample_world /\
    (forall p', p' <> 0%nat -> ctxs w' !! p' = ctxs sample_world !! p').
Proof.
  apply (load_key_clears_hook sample_world 0 0 sample_ctx "locked.pem"
           (LString "wrong") sample_live_handle).
  right. exists "wrong". reflexivity.
Defined.



(** ** Handles do not interfere *)

Lemma live_handle_created (m : SSL_METHOD) (k : nat) (w : World)
    (h p : nat) (c : SSL_CTX) :
  live_handle w h p c -> live_handle (created m k w) h p c.
Proof.
  intros (blk & Hb & Hm & Hp & Hc). exists blk. unfold created.
  cbn [udata ctxs]. repeat split; try assumption.
  - apply lookup_app_l_Some, Hb.
  - apply lookup_app_l_Some, Hc.
Qed.

Lemma live_handle_new (m : SSL_METHOD) (k : nat) (w : World) :
  live_handle (created m k w) (length (udata w)) (length (ctxs w)) (new_ctx m).
Proof.
  eexists. unfold created. cbn [udata ctxs]. rewrite !lookup_last.
  repeat split; reflexivity.
Qed.

(** X15.  Handles made by [create] are independent.  When the engine
    can allocate two more contexts, two calls of [create] with known
    protocol names return two different handles on two different
    engine contexts, both live afterwards; and every handle that was
    live before is still live on the same, unchanged context. *)
Theorem create_twice (w : World) (s1 s2 : string) (m1 m2 : SSL_METHOD)
    (k : nat) :
  str2method s1 = Some m1 ->
  str2method s2 = Some m2 ->
  avail w = S (S k) ->
  exists w1 w2 h1 h2 p1 p2,
    lua_cfunction_call create [LString s1] w = Returned [LUserdata h1] w1 /\
    lua_cfunction_call create [LString s2] w1 = Returned [LUserdata h2] w2 /\
    h1 <> h2 /\ p1 <> p2 /\
    live_handle w2 h1 p1 (new_ctx m1) /\
    live_handle w2 h2 p2 (new_ctx m2) /\
    (forall h p c, live_handle w h p c -> live_handle w2 h p c).
Proof.
  intros H1 H2 Ha.
  set (w1 := created m1 (S k) w).
  exists w1, (created m2 k w1), (length (udata w)), (length (udata w1)),
         (length (ctxs w)), (length (ctxs w1)).
  assert (Hu : length (udata w1) = S (length (udata w)))
    by (unfold w1, created; cbn [udata]; rewrite length_app; simpl; lia).
  assert (Hcs : length (ctxs w1) = S (length (ctxs w)))
    by (unfold w1, created; cbn [ctxs]; rewrite length_app; simpl; lia).
  split; [exact (create_valid w s1 m1 (S k) H1 Ha)|].
  split; [exact (create_valid w1 s2 m2 k H2 eq_refl)|].
  split; [lia|]. split; [lia|].
  split; [apply live_handle_created, live_handle_new|].
  split; [apply live_handle_new|].
  intros h p c Hl. apply live_handle_created, live_handle_created, Hl.
Qed.

Lemma create_twice_witness :
  exists w1 w2 h1 h2 p1 p2,
    lua_cfunction_call create [LString "tlsv1"] sample_world
    = Returned [LUserdata h1] w1 /\
    lua_cfunction_call create [LString "sslv23"] w1
    = Returned [LUserdata h2] w2 /\
    h1 <> h2 /\ p1 <> p2 /\
    live_handle w2 h1 p1 (new_ctx TLSv1_method) /\
    live_handle w2 h2 p2 (new_ctx SSLv23_method) /\
    (forall h p c, live_handle sample_world h p c -> live_handle w2 h p c).
Proof.
  exact (create_twice sample_world "tlsv1" "sslv23" TLSv1_method SSLv23_method
           2 eq_refl eq_refl eq_refl).
Defined.

(** X16.  When the engine cannot allocate, [create] on a known
    protocol name returns nil and "error creating context".  The
    engine holds no new context, and the userdata block made on the
    way has no metatable: the handles of the world are exactly those
    there were. *)
Theorem create_without_memory (w : World) (s : string) (m : SSL_METHOD) :
  str2method s = Some m ->
  avail w = O ->
  exists w',
    lua_cfunction_call create [LString s] w
    = Returned [LNil; LString "error creating context"] w' /\
    ctxs w' = ctxs w /\ avail w' = O /\ free_log w' = free_log w /\
    (forall h, is_handle w' h <-> is_handle w h).
Proof.
  intros H Ha.
  exists (mkWorld (udata w ++ [mk_userdata None (mk_context None MD_CTX_INVALID)])
                  (ctxs w) 0 (free_log w) (keyfiles w)
                  (err_queue w ++ ["malloc failure"])).
  split; [|split; [reflexivity|split; [reflexivity|split; [reflexivity|]]]].
  - unfold lua_cfunction_call, create.
    erewrite bind_ok by exact (run_checkstring [LString s] w 0 s eq_refl).
    rewrite H.
    unfold lua_newuserdata, SSL_CTX_new, ERR_put_error, load_ctx, store_ctx,
      lua_pushnil, lua_pushstring, push, get_world, put_world, get_stack,
      put_stack, with_world, with_stack, with_udata, with_err_queue, ret, bind.
    cbn [world stack udata ctxs avail free_log keyfiles err_queue].
    rewrite Ha.
    repeat (progress (cbn [world stack udata ctxs avail free_log keyfiles
                           err_queue payload mode context metatable app];
                      rewrite ?lookup_last, ?insert_last)).
    reflexivity.
  - intros h. unfold is_handle. cbn [udata].
    destruct (Nat.lt_ge_cases h (length (udata w))) as [Hlt|Hge].
    + rewrite lookup_app_l by exact Hlt. reflexivity.
    + split; intros (blk & Hb & Hm).
      * apply lookup_app_Some in Hb as [Hb|[_ Hb]].
        -- apply lookup_lt_Some in Hb. lia.
        -- destruct (h - length (udata w))%nat; [|discriminate].
           injection Hb as <-. discriminate.
      * apply lookup_lt_Some in Hb. lia.
Qed.

Lemma create_without_memory_witness :
  exists w',
    lua_cfunction_call create [LString "sslv3"]
      (mkWorld [] [] 0 [] [] [])
    = Returned [LNil; LString "error creating context"] w' /\
    ctxs w' = [] /\ avail w' = O /\ free_log w' = [] /\
    (forall h, is_handle w' h <-> is_handle (mkWorld [] [] 0 [] [] []) h).
Proof.
  exact (create_without_memory (mkWorld [] [] 0 [] [] []) "sslv3" SSLv3_method
           eq_refl eq_refl).
Defined.

(** X17.  One handle destroyed, the others live on.  [meth_destroy]
    on a live handle leaves that handle without engine context, and
    every other handle that was live on another context is still live
    on it, the context unchanged. *)
Theorem destroy_leaves_the_others (w : World) (h p : nat) (c : SSL_CTX) :
  live_handle w h p c ->
  exists w1,
    lua_cfunction_call meth_destroy [LUserdata h] w = Returned [] w1 /\
    engine_ctx w1 h = None /\
    (forall h' p' c', h' <> h -> p' <> p ->
       live_handle w h' p' c' -> live_handle w1 h' p' c').
Proof.
  intros (blk & Hb & Hm & Hp & Hc).
  pose proof (lookup_lt_Some _ _ _ Hb) as Hlh.
  exists (destroyed h blk p w).
  split; [exact (meth_destroy_live h p w blk c Hb Hm Hp Hc)|].
  split.
  - unfold engine_ctx, destroyed. cbn [udata].
    rewrite list_lookup_insert_eq by exact Hlh. reflexivity.
  - intros h' p' c' Hh Hpp (blk' & Hb' & Hm' & Hp' & Hc').
    exists blk'. unfold destroyed. cbn [udata ctxs].
    rewrite !list_lookup_insert_ne by congruence. repeat split; assumption.
Qed.

Lemma destroy_leaves_the_others_witness :
  exists w1,
    lua_cfunction_call meth_destroy [LUserdata 0] sample_world2 = Returned [] w1 /\
    engine_ctx w1 0 = None /\
    (forall h' p' c', h' <> 0%nat -> p' <> 0%nat ->
       live_handle sample_world2 h' p' c' -> live_handle w1 h' p' c').
Proof.
  apply (destroy_leaves_the_others sample_world2 0 0 sample_ctx).
  eexists. repeat split; reflexivity.
Defined.

(** ** The loaders *)

Lemma loader_tail (prefix : string) (st : list lua_value) (n : Z) (w' : World) :
  lua_cfunction_call
    (if negb (n =? 1) then
       lua_pushboolean 0 ;;;
       e <- ERR_get_error ;;
       lua_pushfstring prefix (ERR_reason_error_string e) ")" ;;;
       ret 2
     else lua_pushboolean 1 ;;; ret 1)
    st w'
  = loader_result prefix (Some (n, w')).
Proof.
  unfold lua_cfunction_call, loader_result.
  destruct (n =? 1); cbn [negb].
  - run_pushes. rewrite results_top1. reflexivity.
  - unfold ERR_get_error, lua_pushfstring, ERR_reason_error_string, get_world,
      put_world, with_world.
    run_pushes. destruct (err_queue w') as [|e q]; cbn [stack world].
    + rewrite <- app_assoc. cbn [app].
      rewrite (results_top2 st). reflexivity.
    + rewrite <- app_assoc. cbn [app].
      rewrite (results_top2 st). reflexivity.
Qed.

Lemma load_cert_run
    (E : option nat -> string -> World -> option (Z * World))
    (h : nat) (w : World) blk (file : string) :
  udata w !! h = Some blk -> metatable blk = Some "SSL:Context" ->
  lua_cfunction_call (load_cert E) (method_args h [file]) w
  = loader_result "error loading certificate ("
      (E (context (payload blk)) (c_str file) w).
Proof.
  intros Hb Hm.
  unfold lua_cfunction_call at 1, load_cert.
  erewrite bind_ok by exact (run_ctx_getcontext h _ w blk Hb Hm).
  erewrite bind_ok
    by exact (run_checkstring [LUserdata h; LString file] w 1 file eq_refl).
  unfold bind at 1, engine_call at 1. cbn [world].
  destruct (E (context (payload blk)) (c_str file) w) as [[n w']|];
    [|reflexivity].
  apply (loader_tail "error loading certificate (" (method_args h [file]) n w').
Qed.

Lemma set_cipher_run
    (E : option nat -> string -> World -> option (Z * World))
    (h : nat) (w : World) blk (list : string) :
  udata w !! h = Some blk -> metatable blk = Some "SSL:Context" ->
  lua_cfunction_call (set_cipher E) (method_args h [list]) w
  = loader_result "error setting cipher list ("
      (E (context (payload blk)) (c_str list) w).
Proof.
  intros Hb Hm.
  unfold lua_cfunction_call at 1, set_cipher.
  erewrite bind_ok by exact (run_ctx_getcontext h _ w blk Hb Hm).
  erewrite bind_ok
    by exact (run_checkstring [LUserdata h; LString list] w 1 list eq_refl).
  unfold bind at 1, engine_call at 1. cbn [world].
  destruct (E (context (payload blk)) (c_str list) w) as [[n w']|];
    [|reflexivity].
  apply (loader_tail "error setting cipher list (" (method_args h [list]) n w').
Qed.

(** X19.  [load_cert] and [set_cipher], whatever the engine is: on a
    handle and a string, they hand the engine the handle's context and
    the C string, and return true exactly when it answers 1; on any
    other answer they return false and a message quoting the earliest
    error of the engine's queue, which they take off the queue.  They
    do not raise. *)
Theorem load_cert_and_set_cipher_report
    (E2 E3 : option nat -> string -> World -> option (Z * World))
    (w : World) (h : nat) (arg : string) :
  is_handle w h ->
  lua_cfunction_call (load_cert E2) (method_args h [arg]) w
  = loader_result "error loading certificate ("
      (E2 (handle_context w h) (c_str arg) w) /\
  lua_cfunction_call (set_cipher E3) (method_args h [arg]) w
  = loader_result "error setting cipher list ("
      (E3 (handle_context w h) (c_str arg) w).
Proof.
  intros (blk & Hb & Hm). unfold handle_context. rewrite Hb. split.
  - exact (load_cert_run E2 h w blk arg Hb Hm).
  - exact (set_cipher_run E3 h w blk arg Hb Hm).
Qed.

Lemma load_cert_and_set_cipher_report_witness :
  lua_cfunction_call (load_cert (fun _ _ => refuse "no certificate"))
    (method_args 0 ["cert.pem"]) sample_world
  = Returned [LBoolean false;
              LString "error loading certificate (no certificate)"]
             sample_world /\
  lua_cfunction_call (set_cipher (fun _ _ => accept))
    (method_args 0 ["ALL"]) sample_world
  = Returned [LBoolean true] sample_world.
Proof.
  split.
  - exact (proj1 (load_cert_and_set_cipher_report
                    (fun _ _ => refuse "no certificate") (fun _ _ => accept)
                    sample_world 0 "cert.pem" sample_is_handle)).
  - exact (proj2 (load_cert_and_set_cipher_report
                    (fun _ _ => refuse "no certificate") (fun _ _ => accept)
                    sample_world 0 "ALL" sample_is_handle)).
Defined.

Lemma value_at_beyond (st : list lua_value) (i : nat) :
  st !! i = None -> value_at (Z.of_nat (S i)) st = None.
Proof.
  intros H. apply lookup_ge_None in H. unfold value_at, index2adr.
  replace (Z.of_nat (S i) <=? Z.of_nat (length st)) with false
    by (symmetry; apply Z.leb_gt; lia).
  replace (Z.of_nat (S i) <? 0) with false by (symmetry; apply Z.ltb_ge; lia).
  rewrite andb_false_r. reflexivity.
Qed.

Lemma run_optstring (st : list lua_value) (w : World) (i : nat) :
  nil_or_string (st !! i) ->
  luaL_optstring (Z.of_nat (S i)) None (mkState st w)
  = Ok (match st !! i with Some (LString s) => Some s | _ => None end)
       (mkState st w).
Proof.
  intros Hv. unfold luaL_optstring.
  destruct (st !! i) as [v|] eqn:E.
  - erewrite bind_ok by exact (run_lua_type st w i v E).
    destruct v; cbn [nil_or_string] in Hv; try contradiction; cbn [type_of].
    + reflexivity.
    + erewrite bind_ok by exact (run_checkstring st w i s E). reflexivity.
  - unfold lua_type, bind at 1, bind at 1, get_stack at 1. cbn [stack].
    rewrite (value_at_beyond st i E). reflexivity.
Qed.

Lemma load_locations_run
    (E : option nat -> option string -> option string -> World
         -> option (Z * World))
    (h : nat) (w : World) blk (rest : list lua_value) :
  udata w !! h = Some blk -> metatable blk = Some "SSL:Context" ->
  nil_or_string (rest !! 0%nat) -> nil_or_string (rest !! 1%nat) ->
  lua_cfunction_call (load_locations E) (LUserdata h :: rest) w
  = loader_result "error loading CA locations ("
      (E (context (payload blk)) (opt_c_string (rest !! 0%nat))
         (opt_c_string (rest !! 1%nat)) w).
Proof.
  intros Hb Hm H0 H1.
  unfold lua_cfunction_call at 1, load_locations.
  erewrite bind_ok by exact (run_ctx_getcontext h _ w blk Hb Hm).
  erewrite bind_ok by exact (run_optstring (LUserdata h :: rest) w 1 H0).
  erewrite bind_ok by exact (run_optstring (LUserdata h :: rest) w 2 H1).
  change ((LUserdata h :: rest) !! 1%nat) with (rest !! 0%nat).
  change ((LUserdata h :: rest) !! 2%nat) with (rest !! 1%nat).
  unfold bind at 1, engine_call at 1. cbn [world].
  replace (option_map c_str
             match rest !! 0%nat with Some (LString s) => Some s | _ => None end)
    with (opt_c_string (rest !! 0%nat))
    by (destruct (rest !! 0%nat) as [[]|]; reflexivity).
  replace (option_map c_str
             match rest !! 1%nat with Some (LString s) => Some s | _ => None end)
    with (opt_c_string (rest !! 1%nat))
    by (destruct (rest !! 1%nat) as [[]|]; reflexivity).
  destruct (E (context (payload blk)) (opt_c_string (rest !! 0%nat))
              (opt_c_string (rest !! 1%nat)) w) as [[n w']|];
    [|reflexivity].
  apply (loader_tail "error loading CA locations (" (LUserdata h :: rest) n w').
Qed.

(** X20.  The two locations of [load_locations] are optional, and
    leaving one out is the same as passing nil: whatever the engine is,
    the calls with no location, with nil, and with nil and nil return
    the same and leave the same world, as do the calls with a CA file
    alone and with a CA file and nil; the engine gets NULL for what is
    nil or absent.  ([load_key] does not treat its optional argument
    this way.) *)
Theorem load_locations_nil_is_absent
    (E : option nat -> option string -> option string -> World
         -> option (Z * World))
    (w : World) (h : nat) (cafile : string) :
  is_handle w h ->
  let call args := lua_cfunction_call (load_locations E) (LUserdata h :: args) w in
  call [] = loader_result "error loading CA locations ("
              (E (handle_context w h) None None w) /\
  call [LNil] = call [] /\
  call [LNil; LNil] = call [] /\
  call [LString cafile]
  = loader_result "error loading CA locations ("
      (E (handle_context w h) (Some (c_str cafile)) None w) /\
  call [LString cafile; LNil] = call [LString cafile].
Proof.
  intros (blk & Hb & Hm) call. unfold call, handle_context. rewrite Hb.
  rewrite (load_locations_run E h w blk [] Hb Hm I I).
  rewrite (load_locations_run E h w blk [LNil] Hb Hm I I).
  rewrite (load_locations_run E h w blk [LNil; LNil] Hb Hm I I).
  rewrite (load_locations_run E h w blk [LString cafile] Hb Hm I I).
  rewrite (load_locations_run E h w blk [LString cafile; LNil] Hb Hm I I).
  repeat split; reflexivity.
Qed.

Lemma load_locations_nil_is_absent_witness :
  let call args :=
    lua_cfunction_call (load_locations (fun _ ca _ => wants_cafile ca))
                       (LUserdata 0 :: args) sample_world in
  call [] = Returned [LBoolean false;
                      LString "error loading CA locations (no CA file)"]
                     sample_world /\
  call [LNil] = call [] /\
  call [LNil; LNil] = call [] /\
  call [LString "ca.pem"] = Returned [LBoolean true] sample_world /\
  call [LString "ca.pem"; LNil] = call [LString "ca.pem"].
Proof.
  exact (load_locations_nil_is_absent (fun _ ca _ => wants_cafile ca)
           sample_world 0 "ca.pem" sample_is_handle).
Defined.

(** ** A handle after [meth_destroy] *)

(** X18.  No method looks whether the context was destroyed.  After
    [meth_destroy] the handle is still an SSL context to [checkctx],
    and [ctx_getcontext] answers NULL for it.  The calls of the setters
    that stop before the engine still answer (no token, or a token
    refused), and the loaders hand the engine that NULL pointer,
    whatever the engine is. *)
Theorem handle_after_destroy (tbl : list ssl_option_t)
    (E1 : option nat -> option string -> option string -> World
          -> option (Z * World))
    (E2 E3 : option nat -> string -> World -> option (Z * World))
    (w : World) (h p : nat) (c : SSL_CTX) (arg : string) :
  live_handle w h p c ->
  exists w1,
    lua_cfunction_call meth_destroy [LUserdata h] w = Returned [] w1 /\
    is_handle w1 h /\
    ctx_getcontext 1 (mkState [LUserdata h] w1)
    = Ok None (mkState [LUserdata h] w1) /\
    lua_cfunction_call set_verify (method_args h []) w1
    = Returned [LBoolean true] w1 /\
    (forall ts, Exists (fun t => verify_token_ok t = false) ts ->
       lua_cfunction_call set_verify (method_args h ts) w1
       = Returned [LBoolean false; LString "invalid verify option"] w1) /\
    (forall ts, Exists (fun t => option_token_ok tbl t = false) ts ->
       lua_cfunction_call (set_options tbl) (method_args h ts) w1
       = Returned [LBoolean false; LString "invalid option"] w1) /\
    lua_cfunction_call (load_locations E1) [LUserdata h] w1
    = loader_result "error loading CA locations (" (E1 None None None w1) /\
    lua_cfunction_call (load_cert E2) (method_args h [arg]) w1
    = loader_result "error loading certificate (" (E2 None (c_str arg) w1) /\
    lua_cfunction_call (set_cipher E3) (method_args h [arg]) w1
    = loader_result "error setting cipher list (" (E3 None (c_str arg) w1).
Proof.
  intros (blk & Hb & Hm & Hp & Hc).
  pose proof (lookup_lt_Some _ _ _ Hb) as Hlh.
  set (blk1 := mk_userdata (metatable blk) (mk_context None (mode (payload blk)))).
  assert (Hb1 : udata (destroyed h blk p w) !! h = Some blk1)
    by (apply list_lookup_insert_eq; exact Hlh).
  assert (Hh1 : is_handle (destroyed h blk p w) h)
    by (exists blk1; split; [exact Hb1 | exact Hm]).
  exists (destroyed h blk p w).
  split; [exact (meth_destroy_live h p w blk c Hb Hm Hp Hc)|].
  split; [exact Hh1|].
  split; [exact (run_ctx_getcontext h [] _ blk1 Hb1 Hm)|].
  split; [exact (set_verify_empty _ h Hh1)|].
  split; [intros ts Hbad; exact (set_verify_refused _ h ts Hh1 Hbad)|].
  split; [intros ts Hbad; exact (set_options_refused tbl _ h ts Hh1 Hbad)|].
  split; [exact (load_locations_run E1 h _ blk1 [] Hb1 Hm I I)|].
  split.
  - exact (load_cert_run E2 h _ blk1 arg Hb1 Hm).
  - exact (set_cipher_run E3 h _ blk1 arg Hb1 Hm).
Qed.

Lemma handle_after_destroy_witness :
  exists w1,
    lua_cfunction_call meth_destroy [LUserdata 0] sample_world = Returned [] w1 /\
    is_handle w1 0 /\
    ctx_getcontext 1 (mkState [LUserdata 0] w1)
    = Ok None (mkState [LUserdata 0] w1) /\
    lua_cfunction_call set_verify (method_args 0 []) w1
    = Returned [LBoolean true] w1 /\
    lua_cfunction_call set_verify (method_args 0 ["bogus"]) w1
    = Returned [LBoolean false; LString "invalid verify option"] w1 /\
    lua_cfunction_call (set_options sample_options) (method_args 0 ["bogus"]) w1
    = Returned [LBoolean false; LString "invalid option"] w1 /\
    lua_cfunction_call (load_locations (fun _ ca _ => wants_cafile ca))
                       [LUserdata 0] w1
    = loader_result "error loading CA locations (" (wants_cafile None w1) /\
    lua_cfunction_call (load_cert (fun _ _ => accept))
                       (method_args 0 ["file"]) w1
    = Returned [LBoolean true] w1 /\
    lua_cfunction_call (set_cipher (fun _ _ => refuse "no cipher"))
                       (method_args 0 ["file"]) w1
    = loader_result "error setting cipher list (" (refuse "no cipher" w1).
Proof.
  destruct (handle_after_destroy sample_options
              (fun _ ca _ => wants_cafile ca) (fun _ _ => accept)
              (fun _ _ => refuse "no cipher") sample_world 0 0 sample_ctx
              "file" sample_live_handle)
    as (w1 & H1 & H2 & H3 & H4 & H5 & H6 & H7 & H8 & H9).
  exists w1. split; [exact H1|]. split; [exact H2|]. split; [exact H3|].
  split; [exact H4|].
  split; [apply H5, Exists_cons_hd; reflexivity|].
  split; [apply H6, Exists_cons_hd; reflexivity|].
  split; [exact H7|]. split; [exact H8|]. exact H9.
Defined.

(** ** What the setters leave alone *)

Lemma same_but_ctx_refl (p : nat) (w : World) : same_but_ctx p w w.
Proof. repeat split; reflexivity. Qed.

Lemma same_but_ctx_commit (p : nat) (w : World) (c' : SSL_CTX) :
  same_but_ctx p w (with_ctxs (<[p := Some c']> (ctxs w)) w).
Proof.
  repeat split; try reflexivity.
  intros p' Hne. cbn [ctxs with_ctxs]. apply list_lookup_insert_ne. congruence.
Qed.

(** X21.  The three flag setters touch one engine context and only
    their own field of it.  On a live handle and string tokens,
    whenever [set_verify], [set_options] or [set_session_cache_mode]
    returns, the handles, the other engine contexts, the free log and
    the error queue are as before, and the context of the handle still
    has its method and its password hook slots. *)
Theorem flag_setters_frame (tbl : list ssl_option_t) (w : World) (h p : nat)
    (c : SSL_CTX) (ts : list string) (vs : list lua_value) (w' : World) :
  live_handle w h p c ->
  lua_cfunction_call set_verify (method_args h ts) w = Returned vs w' \/
  lua_cfunction_call (set_options tbl) (method_args h ts) w = Returned vs w' \/
  lua_cfunction_call set_session_cache_mode (method_args h ts) w
  = Returned vs w' ->
  same_but_ctx p w w' /\
  exists c', ctxs w' !! p = Some (Some c') /\
    method c' = method c /\
    default_passwd_cb c' = default_passwd_cb c /\
    default_passwd_cb_userdata c' = default_passwd_cb_userdata c.
Proof.
  intros (blk & Hb & Hm & Hp & Hc) Hcall.
  pose proof (lookup_lt_Some _ _ _ Hc) as Hlt.
  assert (Hsame : same_but_ctx p w w /\
    exists c', ctxs w !! p = Some (Some c') /\
      method c' = method c /\
      default_passwd_cb c' = default_passwd_cb c /\
      default_passwd_cb_userdata c' = default_passwd_cb_userdata c).
  { split; [apply same_but_ctx_refl|]. exists c. repeat split. exact Hc. }
  assert (Hnew : forall c0,
    method c0 = method c ->
    default_passwd_cb c0 = default_passwd_cb c ->
    default_passwd_cb_userdata c0 = default_passwd_cb_userdata c ->
    same_but_ctx p w (with_ctxs (<[p := Some c0]> (ctxs w)) w) /\
    exists c', ctxs (with_ctxs (<[p := Some c0]> (ctxs w)) w) !! p
               = Some (Some c') /\
      method c' = method c /\
      default_passwd_cb c' = default_passwd_cb c /\
      default_passwd_cb_userdata c' = default_passwd_cb_userdata c).
  { intros c0 H1 H2 H3. split; [apply same_but_ctx_commit|].
    exists c0. split; [|repeat split; assumption].
    apply list_lookup_insert_eq. exact Hlt. }
  destruct Hcall as [H|[H|H]].
  - rewrite (set_verify_run h w blk ts Hb Hm) in H.
    destruct ts as [|t ts]; [injection H as _ <-; exact Hsame|].
    destruct (verify_mask (t :: ts) 0) as [f|];
      [|injection H as _ <-; exact Hsame].
    unfold commit in H. rewrite Hp, Hc in H. injection H as _ <-.
    apply Hnew; reflexivity.
  - rewrite (set_options_run tbl h w blk ts Hb Hm) in H.
    destruct ts as [|t ts]; [injection H as _ <-; exact Hsame|].
    destruct (option_mask tbl (t :: ts) 0) as [f|];
      [|injection H as _ <-; exact Hsame].
    rewrite Hp, Hc in H. injection H as _ <-.
    apply Hnew; reflexivity.
  - rewrite (set_session_cache_mode_run h w blk ts Hb Hm) in H.
    destruct (cache_scan ts 2 0) as [m|i]; [|discriminate].
    unfold commit in H. rewrite Hp, Hc in H. injection H as _ <-.
    apply Hnew; reflexivity.
Qed.

Lemma flag_setters_frame_witness :
  same_but_ctx 1 sample_world2
    (with_ctxs [Some sample_ctx;
                Some (with_verify SSL_VERIFY_PEER None (new_ctx SSLv23_method))]
               sample_world2) /\
  exists c',
    ctxs (with_ctxs [Some sample_ctx;
                     Some (with_verify SSL_VERIFY_PEER None
                             (new_ctx SSLv23_method))] sample_world2)
    !! 1%nat = Some (Some c') /\
    method c' = SSLv23_method /\
    default_passwd_cb c' = false /\
    default_passwd_cb_userdata c' = false.
Proof.
  apply (flag_setters_frame sample_options sample_world2 1 1
           (new_ctx SSLv23_method) ["peer"] [LBoolean true]).
  - eexists. repeat split; reflexivity.
  - left. reflexivity.
Defined.
